(** * photo-change: a shallow embedding of the scene-fusion front end

  The development follows the source of the application:
  - [utils/fileUtils.ts]: [fileToBase64], the downscaler of uploads;
  - [services/geminiService.ts]: [swapCharactersInImage], [inpaintImage];
  - [components/RefinePanel.tsx], which also holds the [ImageEditor]
    component (the mask editor); line numbers given for the editor are
    those of that file;
  - [App.tsx]: the state of the page and its two handlers.

  JavaScript numbers are rationals ([Q]).  Where the program multiplies,
  divides or subtracts numbers that need not be whole ([fileToBase64],
  [getCoordinates]) each operation is rounded to binary64 ([Double]); the
  editor's [onload] is computed exactly, the integer parts the canvas
  keeps being those of the rounded values.  The conversion a canvas
  applies to the numbers assigned to its [width] and [height] is written
  out ([ToUint32]).  Strings are sequences of UTF-8 bytes.  Whatever the
  browser supplies (file reader, image decoder, canvas encoder,
  rasteriser, remote model, the timer) is a field of a record or a
  variable of a section. *)

From Stdlib Require Import ZArith QArith Qabs Qminmax Qround Qpower Lqa Lia.
From Stdlib Require Import String Ascii List Bool DecimalString DecimalPos.
Import ListNotations.

Local Open Scope string_scope.

(* ------------------------------------------------------------------ *)
(** ** JavaScript values *)

Module JS.

(** [!!s] for a string: only the empty string is falsy. *)
Definition truthy (s : string) : bool := negb (s =? "").

(** [!!v] for [string | null | undefined]. *)
Definition truthy_opt (v : option string) : bool :=
  match v with
  | Some s => truthy s
  | None => false
  end.

(** [!!v] for an object reference or [null]. *)
Definition present {A : Type} (v : option A) : bool :=
  match v with
  | Some _ => true
  | None => false
  end.

(** [s.split(sep)] for a one-character separator. *)
Fixpoint split (sep : ascii) (s : string) : list string :=
  match s with
  | EmptyString => [EmptyString]
  | String c rest =>
      if Ascii.eqb c sep then EmptyString :: split sep rest
      else match split sep rest with
           | [] => [String c EmptyString]
           | piece :: pieces => String c piece :: pieces
           end
  end.

(** [xs[i]], [undefined] past the end. *)
Definition index {A : Type} (xs : list A) (i : nat) : option A :=
  nth_error xs i.

Definition lower_ascii (c : ascii) : ascii :=
  let n := nat_of_ascii c in
  if ((65 <=? n) && (n <=? 90))%nat then ascii_of_nat (n + 32) else c.

(** [s.toLowerCase()] on the ASCII range; other bytes are kept. *)
Fixpoint toLowerCase (s : string) : string :=
  match s with
  | EmptyString => EmptyString
  | String c rest => String (lower_ascii c) (toLowerCase rest)
  end.

(** Does the character occur in the string? *)
Fixpoint occurs (c : ascii) (s : string) : bool :=
  match s with
  | EmptyString => false
  | String d rest => Ascii.eqb d c || occurs c rest
  end.

(** The conversion of a number to an [unsigned long] attribute: the
    fraction is dropped and the integer is taken modulo 2^32. *)
Definition ToUint32 (q : Q) : Z :=
  (Z.quot (Qnum q) (Z.pos (Qden q))) mod 2 ^ 32.

Definition Qgtb (x y : Q) : bool := negb (Qle_bool x y).

End JS.

(* ------------------------------------------------------------------ *)
(** ** binary64 arithmetic *)

Module Double.

(** 2^k for an integer k. *)
Definition pow2 (k : Z) : Q := 2 ^ k.

(** The exponent [e] of a positive number: 2^e <= q < 2^(e+1). *)
Definition exponent (q : Q) : Z :=
  let guess := (Z.log2 (Qnum q) - Z.log2 (Z.pos (Qden q)))%Z in
  if Qle_bool (pow2 guess) q then guess else (guess - 1)%Z.

(** The nearest integer, the even one of two that are equally near. *)
Definition nearestEven (q : Q) : Z :=
  let f := Qfloor q in
  match Qcompare (q - inject_Z f) (1 # 2) with
  | Lt => f
  | Gt => (f + 1)%Z
  | Eq => if Z.even f then f else (f + 1)%Z
  end.

(** A positive number rounded to 53 significant bits, or to a multiple
    of 2^-1074 below 2^-1022. *)
Definition roundPositive (q : Q) : Q :=
  let e := Z.max (exponent q - 52) (-1074) in
  Qred (inject_Z (nearestEven (q / pow2 e)) * pow2 e).

(** The binary64 number nearest to [q], ties to even.  Numbers from
    2^1024 on, which round to [Infinity], are out of its range; image
    sizes and screen coordinates are far below. *)
Definition round64 (q : Q) : Q :=
  match Qnum q with
  | Z0 => 0
  | Zpos _ => roundPositive q
  | Zneg _ => - roundPositive (- q)
  end.

(** The unit roundoff, 2^-53: half the distance from 1 to the next
    number. *)
Definition unit_roundoff : Q := 1 # 9007199254740992.

(** [x * y], [x - y], and [x / y] for a divisor that is not zero. *)
Definition mul (x y : Q) : Q := round64 (x * y).
Definition sub (x y : Q) : Q := round64 (x - y).
Definition div (x y : Q) : Q := round64 (x / y).

End Double.

(** A settled promise. Every rejection of the application carries an
  [Error]; its message is kept. *)
Inductive Settled (A : Type) : Type :=
| Resolved (value : A)
| Rejected (message : string).
Arguments Resolved {A} value.
Arguments Rejected {A} message.

Definition comma : ascii := ","%char.

(* ------------------------------------------------------------------ *)
(** ** utils/fileUtils.ts *)

Module FileUtils.

(** A [File]: its declared type and the base64 text of its bytes. *)
Record File : Type := mkFile {
  ftype : string;
  fbytes64 : string
}.

Record FileConversionResult : Type := mkConversion {
  base64 : option string;
  mimeType : string
}.

Inductive ReadOutcome : Type :=
| ReadLoaded (result : option string)
| ReadFailed (event : string).

Inductive ImageOutcome : Type :=
| ImageLoaded (width height : N)
| ImageFailed (event : string).

(** What [ctx.drawImage(img, dx, dy, dw, dh)] was asked to draw. *)
Record Drawn : Type := mkDrawn {
  source : string;
  dx : Q; dy : Q; dw : Q; dh : Q
}.

Record Canvas : Type := mkCanvas {
  cwidth : Z;
  cheight : Z;
  drawn : option Drawn
}.

(** The browser services [fileToBase64] calls. *)
Record Browser : Type := mkBrowser {
  readAsDataURL : File -> ReadOutcome;
  loadImage : string -> ImageOutcome;
  getContext2d : bool;
  toDataURL : Canvas -> string -> Q -> string
}.

(** The data URL a [FileReader] builds for a file it can read. *)
Definition dataURL_of (f : File) : string :=
  "data:" ++ ftype f ++ ";base64," ++ fbytes64 f.

Definition MAX_DIMENSION : Q := 1024.

Definition dim (n : N) : Q := inject_Z (Z.of_N n).

(** Lines 47-57: the new dimensions.  [height *= MAX_DIMENSION / width]
    is a quotient and then a product, each rounded. *)
Definition new_dimensions (width height : Q) : Q * Q :=
  if JS.Qgtb width height then
    if JS.Qgtb width MAX_DIMENSION
    then (MAX_DIMENSION, Double.mul height (Double.div MAX_DIMENSION width))
    else (width, height)
  else
    if JS.Qgtb height MAX_DIMENSION
    then (Double.mul width (Double.div MAX_DIMENSION height), MAX_DIMENSION)
    else (width, height).

(** Lines 59-61: the canvas takes the dimensions and the image is drawn
    over all of it. *)
Definition render (imgUrl : string) (width height : Q) : Canvas :=
  let '(w, h) := new_dimensions width height in
  {| cwidth := JS.ToUint32 w;
     cheight := JS.ToUint32 h;
     drawn := Some (mkDrawn imgUrl 0 0 w h) |}.

Definition outputMimeType (f : File) : string :=
  if ftype f =? "image/png" then "image/png" else "image/jpeg".

Definition quality (mime : string) : Q :=
  if mime =? "image/jpeg" then 9 # 10 else 1.

Definition small_enough (width height : Q) : bool :=
  Qle_bool width MAX_DIMENSION && Qle_bool height MAX_DIMENSION.

Definition fileToBase64 (b : Browser) (file : File)
  : Settled FileConversionResult :=
  match readAsDataURL b file with
  | ReadFailed ev => Rejected ("File reader error: " ++ ev)
  | ReadLoaded None => Rejected "Could not read file data."
  | ReadLoaded (Some imgUrl) =>
      if negb (JS.truthy imgUrl) then Rejected "Could not read file data."
      else
        match loadImage b imgUrl with
        | ImageFailed ev =>
            Rejected ("Image failed to load for processing: " ++ ev)
        | ImageLoaded w h =>
            if small_enough (dim w) (dim h) then
              Resolved {| base64 := JS.index (JS.split comma imgUrl) 1;
                          mimeType := ftype file |}
            else if negb (getContext2d b) then
              Rejected "Could not get canvas 2D context."
            else
              let canvas := render imgUrl (dim w) (dim h) in
              let mime := outputMimeType file in
              let dataUrl := toDataURL b canvas mime (quality mime) in
              Resolved {| base64 := JS.index (JS.split comma dataUrl) 1;
                          mimeType := mime |}
        end
  end.

End FileUtils.

(* ------------------------------------------------------------------ *)
(** ** services/geminiService.ts *)

Module GeminiService.

Definition model : string := "gemini-2.5-flash-image-preview".

Record SwapParams : Type := mkSwapParams {
  sceneImageBase64 : option string;
  sceneMimeType : string;
  characterImageBase64 : option string;
  characterMimeType : string;
  characterScale : string;
  sceneComposition : string;
  characterAction : string;
  artStyle : string;
  timeOfDay : string;
  atmosphere : string;
  negativePrompt : string;
  aspectRatio : string;
  removeWatermark : bool
}.

Record InpaintParams : Type := mkInpaintParams {
  imageBase64 : option string;
  imageMimeType : string;
  maskBase64 : option string;
  maskMimeType : string
}.

(** The SDK's [Blob], [Part], [Content], [Candidate] and response, with
    every optional member an [option]. *)
Record Blob : Type := mkBlob {
  data : option string;
  mimeType : option string
}.

Record Part : Type := mkPart {
  inlineData : option Blob;
  text : option string
}.

Record Content : Type := mkContent { parts : option (list Part) }.

Record Candidate : Type := mkCandidate { content : option Content }.

Record GenerateContentResponse : Type := mkResponse {
  candidates : option (list Candidate)
}.

Inductive Modality : Type :=
| MODALITY_UNSPECIFIED | TEXT | IMAGE | AUDIO.

Record GenerateContentParameters : Type := mkRequest {
  rmodel : string;
  contents : list Part;
  responseModalities : list Modality
}.

(** What [await ai.models.generateContent(...)] does: it returns a
    response, throws an [Error], or throws something else. *)
Inductive ApiOutcome : Type :=
| Returns (response : GenerateContentResponse)
| ThrowsError (message : string)
| ThrowsOther.

Definition Api : Type := GenerateContentParameters -> ApiOutcome.

(** The object literals [{ inlineData: { data, mimeType } }] and
    [{ text }]. *)
Definition inline_part (d : option string) (mime : string) : Part :=
  {| inlineData := Some {| data := d; mimeType := Some mime |};
     text := None |}.

Definition text_part (t : string) : Part :=
  {| inlineData := None; text := Some t |}.

Definition nl : string := String (ascii_of_nat 10) EmptyString.

(** Lines 58-61. *)
Definition styleBase (artStyle : string) : string :=
  "**Art Style:** The final image should have a " ++ artStyle ++ " style.".

Definition styleExtra : string :=
  " Pay extreme attention to matching lighting, shadows, perspective, and color grading between the character and the scene to ensure a completely natural and elegant composition with no visual artifacts.".

Definition styleInstruction (p : SwapParams) : string :=
  let s := styleBase (artStyle p) in
  if JS.toLowerCase (artStyle p) =? "photorealistic" then s ++ styleExtra
  else s.

(** Lines 63-67. *)
Definition timeText (timeOfDay : string) : string :=
  "**Time of Day:** The lighting should reflect " ++ timeOfDay ++ ".".

Definition timeInstruction (p : SwapParams) : string :=
  if negb (timeOfDay p =? "As in Scene") then timeText (timeOfDay p)
  else "".

Definition atmosphereText (atmosphere : string) : string :=
  "**Atmosphere:** The overall mood should be " ++ atmosphere ++ ".".

Definition atmosphereInstruction (p : SwapParams) : string :=
  if JS.truthy (atmosphere p) then atmosphereText (atmosphere p) else "".

Definition negativeText (negativePrompt : string) : string :=
  "**Exclusions:** Do not include the following elements in the image: "
  ++ negativePrompt ++ ".".

Definition negativeInstruction (p : SwapParams) : string :=
  if JS.truthy (negativePrompt p) then negativeText (negativePrompt p)
  else "".

Definition aspectRatioInstruction (p : SwapParams) : string :=
  "**Aspect Ratio:** The final image must have an aspect ratio of "
  ++ aspectRatio p ++ ".".

Definition watermarkText : string :=
  "**Watermark Removal:** Identify and completely remove any watermarks, logos, or signatures from the source images. The final output must be clean.".

Definition watermarkInstruction (p : SwapParams) : string :=
  if removeWatermark p then watermarkText else "".

(** [characterAction || 'naturally placed in the environment'] *)
Definition actionOrDefault (p : SwapParams) : string :=
  if JS.truthy (characterAction p) then characterAction p
  else "naturally placed in the environment".

(** Lines 69-94: the template literal, one slot per interpolation. *)
Definition fusionTemplate
  (watermark style time atmos aspect composition scale action negative
   : string) : string :=
  nl ++
  "    This is a highly detailed image editing task. You are provided with two images." ++ nl ++
  "    1. The first image is the background scene." ++ nl ++
  "    2. The second image contains a character." ++ nl ++
  nl ++
  "    Your task is to create a new, cohesive image with the following requirements:" ++ nl ++
  "    - Use the first image as the primary background. Remove any existing people or main subjects from it." ++ nl ++
  "    - Extract only the primary character from the second image." ++ nl ++
  "    - Seamlessly integrate the character into the background scene." ++ nl ++
  "    " ++ watermark ++ nl ++
  nl ++
  "    **Creative Direction:**" ++ nl ++
  "    " ++ style ++ nl ++
  "    " ++ time ++ nl ++
  "    " ++ atmos ++ nl ++
  nl ++
  "    **Composition Details:**" ++ nl ++
  "    " ++ aspect ++ nl ++
  "    - **Scene Composition:** The final image should be a " ++ composition ++ "." ++ nl ++
  "    - **Character Scale:** The character should appear " ++ scale ++ " relative to the scene." ++ nl ++
  "    - **Character Action:** The character should be depicted " ++ action ++ "." ++ nl ++
  nl ++
  "    " ++ negative ++ nl ++
  nl ++
  "    The final output must be a single, high-quality image that perfectly merges the character into the scene according to all the specifications above." ++ nl ++
  "  ".

Definition fusionPrompt (p : SwapParams) : string :=
  fusionTemplate
    (watermarkInstruction p) (styleInstruction p) (timeInstruction p)
    (atmosphereInstruction p) (aspectRatioInstruction p)
    (sceneComposition p) (characterScale p) (actionOrDefault p)
    (negativeInstruction p).

(** Lines 136-144. *)
Definition blackAreaSentence : string :=
  "The area of the image corresponding to the black area in the mask needs to be removed.".

Definition preserveSentence : string :=
  "Do not alter any parts of the image that are not covered by the mask.".

Definition inpaintPrompt : string :=
  nl ++
  "      You are an expert in photo restoration and editing." ++ nl ++
  "      The user has provided an image and a corresponding mask image." ++ nl ++
  "      Your task is to perform an inpainting operation." ++ nl ++
  "      " ++ blackAreaSentence ++ nl ++
  "      You must then seamlessly and realistically fill in the removed area with new content that matches the surrounding context, lighting, textures, and overall style of the original image." ++ nl ++
  "      " ++ preserveSentence ++ nl ++
  "      The final output must be a single, high-quality, edited image." ++ nl ++
  "    ".

Definition modalities : list Modality := [IMAGE; TEXT].

(** Lines 97-109: the argument of [generateContent]. *)
Definition swapRequest (p : SwapParams) : GenerateContentParameters :=
  {| rmodel := model;
     contents :=
       [ inline_part (sceneImageBase64 p) (sceneMimeType p);
         inline_part (characterImageBase64 p) (characterMimeType p);
         text_part (fusionPrompt p) ];
     responseModalities := modalities |}.

(** Lines 147-159. *)
Definition inpaintRequest (p : InpaintParams) : GenerateContentParameters :=
  {| rmodel := model;
     contents :=
       [ inline_part (imageBase64 p) (imageMimeType p);
         inline_part (maskBase64 p) (maskMimeType p);
         text_part inpaintPrompt ];
     responseModalities := modalities |}.

(** [response.candidates?.[0]?.content?.parts ?? []] *)
Definition firstCandidateParts (r : GenerateContentResponse) : list Part :=
  match candidates r with
  | None => []
  | Some cs =>
      match JS.index cs 0 with
      | None => []
      | Some c =>
          match content c with
          | None => []
          | Some ct =>
              match parts ct with
              | None => []
              | Some ps => ps
              end
          end
      end
  end.

(** [part.inlineData?.data], kept when truthy. *)
Definition partData (p : Part) : option string :=
  match inlineData p with
  | None => None
  | Some blob =>
      match data blob with
      | Some d => if JS.truthy d then Some d else None
      | None => None
      end
  end.

(** The [for ... of] loop with its early [return]. *)
Fixpoint firstInlineData (ps : list Part) : option string :=
  match ps with
  | [] => None
  | p :: rest =>
      match partData p with
      | Some d => Some d
      | None => firstInlineData rest
      end
  end.

(** The [try]/[catch] around the call: [prefix] is put before the message
    of a caught [Error], [unknown] is the message for any other value,
    [missing] that of the error thrown when no part has data. *)
Definition settle (prefix unknown missing : string) (o : ApiOutcome)
  : Settled string :=
  match o with
  | Returns r =>
      match firstInlineData (firstCandidateParts r) with
      | Some d => Resolved d
      | None => Rejected (prefix ++ missing)
      end
  | ThrowsError m => Rejected (prefix ++ m)
  | ThrowsOther => Rejected unknown
  end.

(** Both functions return their promise's outcome and the requests they
    sent to the model. *)
Definition swapCharactersInImage (ai : Api) (p : SwapParams)
  : Settled string * list GenerateContentParameters :=
  let request := swapRequest p in
  (settle "Failed to generate image: "
          "An unknown error occurred while calling the Gemini API."
          "The AI did not return an image. It might have refused the request due to safety policies or an inability to process the images."
          (ai request),
   [request]).

Definition inpaintImage (ai : Api) (p : InpaintParams)
  : Settled string * list GenerateContentParameters :=
  let request := inpaintRequest p in
  (settle "Inpainting failed: "
          "An unknown error occurred during the inpainting API call."
          "The AI did not return an edited image. It may have refused the request."
          (ai request),
   [request]).

End GeminiService.

(* ------------------------------------------------------------------ *)
(** ** components/RefinePanel.tsx: the ImageEditor component *)

Module ImageEditor.

(** A pixel: 8-bit red, green, blue and alpha. *)
Record Colour : Type := rgba {
  red : Z; green : Z; blue : Z; alpha : Z
}.

(** The CSS colours the editor names. *)
Definition white : Colour := rgba 255 255 255 255.
Definition black : Colour := rgba 0 0 0 255.
Definition halfBlack : Colour := rgba 0 0 0 128.   (* rgba(0, 0, 0, 0.5) *)
Definition transparent : Colour := rgba 0 0 0 0.

(** [n / d] to the nearest integer, for [n >= 0] and [d > 0]. *)
Definition divRound (n d : Z) : Z := ((2 * n + d) / (2 * d))%Z.

(** The canvas's default compositing, [source-over], at 8-bit precision. *)
Definition source_over (src dst : Colour) : Colour :=
  (let sa := alpha src in
   let rest := divRound (alpha dst * (255 - sa)) 255 in
   let oa := sa + rest in
   if oa =? 0 then transparent
   else
     let channel (s d : Z) := divRound (s * sa + d * rest) oa in
     rgba (channel (red src) (red dst))
          (channel (green src) (green dst))
          (channel (blue src) (blue dst))
          oa)%Z.

(** How much of a pixel a shape covers is a number from 0, none of it,
    to 255, all of it; a number outside is taken as the nearer end. *)
Definition clamp (coverage : Z) : Z := Z.max 0 (Z.min 255 coverage).

(** A style painted on a pixel that the shape covers in part
    (anti-aliasing): the alpha of the style is scaled by the coverage. *)
Definition paint (style : Colour) (coverage : Z) (dst : Colour) : Colour :=
  let c := clamp coverage in
  if (c =? 0)%Z then dst
  else
    source_over
      (rgba (red style) (green style) (blue style)
         (divRound (alpha style * c) 255))
      dst.

(** A canvas element: its size and its bitmap. *)
Record Canvas : Type := mkCanvas {
  width : Z;
  height : Z;
  pixel : Z -> Z -> Colour
}.

(** A new canvas element is 300 by 150 and transparent. *)
Definition blank : Canvas := mkCanvas 300 150 (fun _ _ => transparent).

(** [canvas.width = w; canvas.height = h]: the bitmap is cleared. *)
Definition resize (w h : Q) : Canvas :=
  mkCanvas (JS.ToUint32 w) (JS.ToUint32 h) (fun _ _ => transparent).


(** The length of the part of [x, x+1] that lies in [from, from + size]. *)
Definition overlap (from size : Q) (x : Z) : Q :=
  Qmax 0 (Qmin (inject_Z x + 1) (from + size) - Qmax (inject_Z x) from).

(** The part of the pixel square [x, x+1] x [y, y+1] that lies in the
    rectangle, out of 255. *)
Definition rect_coverage (rx ry rw rh : Q) (x y : Z) : Z :=
  Qfloor (255 * (overlap rx rw x * overlap ry rh y) + (1 # 2)).

(** [ctx.fillStyle = style; ctx.fillRect(rx, ry, rw, rh)] *)
Definition fillRect (style : Colour) (rx ry rw rh : Q) (c : Canvas)
  : Canvas :=
  mkCanvas (width c) (height c)
    (fun x y => paint style (rect_coverage rx ry rw rh x y) (pixel c x y)).

Definition MAX_DIM : Q := 1024.

(** Lines 184-193 of the [onload] handler. *)
Definition fitted (width height : Q) : Q * Q :=
  if JS.Qgtb width MAX_DIM || JS.Qgtb height MAX_DIM then
    if JS.Qgtb width height
    then (MAX_DIM, (height / width) * MAX_DIM)
    else ((width / height) * MAX_DIM, MAX_DIM)
  else (width, height).

Record Point : Type := mkPoint { px : Q; py : Q }.

(** The object [getCoordinates] returns: its two numbers are finite, or
    one of them at least is [Infinity] or [NaN]. *)
Inductive Coordinates : Type :=
| Finite (p : Point)
| NonFinite.

Record DOMRect : Type := mkRect {
  left : Q; top : Q; rwidth : Q; rheight : Q
}.

(** A mouse event, with the bounding rectangle the visible canvas has
    when it fires. *)
Record MouseEvent : Type := mkMouse {
  clientX : Q;
  clientY : Q;
  rect : DOMRect
}.

(** The refs and the state of the component, once mounted. *)
Record Editor : Type := mkEditor {
  canvas : Canvas;
  maskCanvas : Canvas;
  isDrawing : bool;
  lastPosition : option Coordinates;
  brushSize : Z
}.

Definition mounted : Editor := mkEditor blank blank false None 40.

(** [image.onload], lines 181-206. The picture drawn on the visible
    canvas is given as the bitmap the browser scales it to. *)
Definition onload (picture : Z -> Z -> Colour) (imgWidth imgHeight : N)
  (ed : Editor) : Editor :=
  let '(w, h) := fitted (FileUtils.dim imgWidth) (FileUtils.dim imgHeight) in
  let shown := resize w h in
  let mask := resize w h in
  mkEditor
    (mkCanvas (width shown) (height shown)
       (fun x y => source_over (picture x y) (pixel shown x y)))
    (fillRect white 0 0 w h mask)
    (isDrawing ed) (lastPosition ed) (brushSize ed).

(** Lines 209-222. The canvas ref is set once the component is mounted,
    so the [null] of line 211 does not arise.  A bounding rectangle
    without width or height makes a scale [Infinity] or [NaN], and the
    coordinate with it. *)
Definition getCoordinates (ed : Editor) (e : MouseEvent)
  : option Coordinates :=
  if Qeq_bool (rwidth (rect e)) 0 || Qeq_bool (rheight (rect e)) 0
  then Some NonFinite
  else
    let scaleX := Double.div (inject_Z (width (canvas ed))) (rwidth (rect e)) in
    let scaleY :=
      Double.div (inject_Z (height (canvas ed))) (rheight (rect e)) in
    Some (Finite
            {| px := Double.mul (Double.sub (clientX e) (left (rect e))) scaleX;
               py := Double.mul (Double.sub (clientY e) (top (rect e))) scaleY
            |}).

Section Rasteriser.

(** How much of the pixel [(x, y)] a round-capped stroke of the given
    width from one point to another covers, out of 255: the browser's
    rasteriser. *)
Variable strokes : Z -> Point -> Point -> Z -> Z -> Z.

(** [drawOnCanvas(context, color)], lines 239-250.  [moveTo] and
    [lineTo] ignore numbers that are not finite, and a path left with a
    single point has no line to stroke. *)
Definition drawOnCanvas (ed : Editor) (coords : Coordinates) (color : Colour)
  (c : Canvas) : Canvas :=
  let lineWidth := brushSize ed in
  let start :=
    match lastPosition ed with
    | Some p => p
    | None => coords
    end in
  match start, coords with
  | Finite a, Finite b =>
      mkCanvas (width c) (height c)
        (fun x y => paint color (strokes lineWidth a b x y) (pixel c x y))
  | _, _ => c
  end.

Definition draw (e : MouseEvent) (ed : Editor) : Editor :=
  if negb (isDrawing ed) then ed
  else
    match getCoordinates ed e with
    | None => ed
    | Some coords =>
        mkEditor
          (drawOnCanvas ed coords halfBlack (canvas ed))
          (drawOnCanvas ed coords black (maskCanvas ed))
          (isDrawing ed) (Some coords) (brushSize ed)
    end.

Definition startDrawing (e : MouseEvent) (ed : Editor) : Editor :=
  draw e
    (mkEditor (canvas ed) (maskCanvas ed) true (getCoordinates ed e)
       (brushSize ed)).

Definition stopDrawing (ed : Editor) : Editor :=
  mkEditor (canvas ed) (maskCanvas ed) false None (brushSize ed).

Definition setBrushSize (n : Z) (ed : Editor) : Editor :=
  mkEditor (canvas ed) (maskCanvas ed) (isDrawing ed) (lastPosition ed) n.

(** What the user can do to the canvas and the brush slider. *)
Inductive Action : Type :=
| MouseDown (e : MouseEvent)
| MouseMove (e : MouseEvent)
| MouseUp
| MouseLeave
| BrushSlider (n : Z).

Definition step (ed : Editor) (a : Action) : Editor :=
  match a with
  | MouseDown e => startDrawing e ed
  | MouseMove e => draw e ed
  | MouseUp => stopDrawing ed
  | MouseLeave => stopDrawing ed
  | BrushSlider n => setBrushSize n ed
  end.

Definition run (ed : Editor) (actions : list Action) : Editor :=
  fold_left step actions ed.

(** The PNG encoder behind [toDataURL('image/png')]. *)
Variable toDataURL : Canvas -> string -> string.

(** [handleSave]: the arguments [onSave] is called with. *)
Definition handleSave (imageBase64 : option string) (ed : Editor)
  : option string * option string :=
  let maskBase64 :=
    JS.index (JS.split comma (toDataURL (maskCanvas ed) "image/png")) 1 in
  (imageBase64, maskBase64).

End Rasteriser.

End ImageEditor.

(* ------------------------------------------------------------------ *)
(** ** App.tsx *)

Module App.

Import FileUtils GeminiService.

(** The nine refinement controls (lines 24-32). *)
Record Controls : Type := mkControls {
  cCharacterScale : string;
  cSceneComposition : string;
  cCharacterAction : string;
  cArtStyle : string;
  cTimeOfDay : string;
  cAtmosphere : string;
  cNegativePrompt : string;
  cAspectRatio : string;
  cRemoveWatermark : bool
}.

Definition initialControls : Controls :=
  mkControls "Medium" "Medium Shot" "" "Photorealistic" "As in Scene" "" ""
             "1:1" false.

(** The [useState] cells of the component (lines 10-21), and the
    interval of the effect of lines 44-56 with its counter [i], while it
    is set. *)
Record State : Type := mkState {
  sceneImage : option File;
  characterImage : option File;
  sceneImageUrl : option string;
  characterImageUrl : option string;
  resultImage : option string;
  resultImageBase64 : option string;
  isLoading : bool;
  isEditing : bool;
  error : option string;
  loadingMessage : string;
  ticker : option nat;
  controls : Controls
}.

Definition initial : State :=
  mkState None None None None None None false false None "" None
    initialControls.

Definition setResultImage (v : option string) (s : State) : State :=
  mkState (sceneImage s) (characterImage s) (sceneImageUrl s)
    (characterImageUrl s) v (resultImageBase64 s) (isLoading s)
    (isEditing s) (error s) (loadingMessage s) (ticker s) (controls s).

Definition setResultImageBase64 (v : option string) (s : State) : State :=
  mkState (sceneImage s) (characterImage s) (sceneImageUrl s)
    (characterImageUrl s) (resultImage s) v (isLoading s) (isEditing s)
    (error s) (loadingMessage s) (ticker s) (controls s).

Definition setIsLoading (v : bool) (s : State) : State :=
  mkState (sceneImage s) (characterImage s) (sceneImageUrl s)
    (characterImageUrl s) (resultImage s) (resultImageBase64 s) v
    (isEditing s) (error s) (loadingMessage s) (ticker s) (controls s).

Definition setIsEditing (v : bool) (s : State) : State :=
  mkState (sceneImage s) (characterImage s) (sceneImageUrl s)
    (characterImageUrl s) (resultImage s) (resultImageBase64 s)
    (isLoading s) v (error s) (loadingMessage s) (ticker s) (controls s).

Definition setError (v : option string) (s : State) : State :=
  mkState (sceneImage s) (characterImage s) (sceneImageUrl s)
    (characterImageUrl s) (resultImage s) (resultImageBase64 s)
    (isLoading s) (isEditing s) v (loadingMessage s) (ticker s)
    (controls s).

Definition setLoadingMessage (v : string) (s : State) : State :=
  mkState (sceneImage s) (characterImage s) (sceneImageUrl s)
    (characterImageUrl s) (resultImage s) (resultImageBase64 s)
    (isLoading s) (isEditing s) (error s) v (ticker s) (controls s).

Definition setTicker (v : option nat) (s : State) : State :=
  mkState (sceneImage s) (characterImage s) (sceneImageUrl s)
    (characterImageUrl s) (resultImage s) (resultImageBase64 s)
    (isLoading s) (isEditing s) (error s) (loadingMessage s) v
    (controls s).

Definition handleSceneImageUpload (objectUrl : string) (file : File)
  (s : State) : State :=
  mkState (Some file) (characterImage s) (Some objectUrl) (characterImageUrl s)
    (resultImage s) (resultImageBase64 s) (isLoading s) (isEditing s)
    (error s) (loadingMessage s) (ticker s) (controls s).

Definition handleCharacterImageUpload (objectUrl : string) (file : File)
  (s : State) : State :=
  mkState (sceneImage s) (Some file) (sceneImageUrl s) (Some objectUrl)
    (resultImage s) (resultImageBase64 s) (isLoading s) (isEditing s)
    (error s) (loadingMessage s) (ticker s) (controls s).

(** Lines 35-42. *)
Definition loadingMessages : list string :=
  [ "Analyzing scene composition...";
    "Isolating character elements...";
    "Harmonizing light and shadow...";
    "Blending textures seamlessly...";
    "Applying final artistic touches...";
    "Almost there, polishing the details..." ].

(** [loadingMessages[i]], for a counter within the list. *)
Definition messageOf (i : nat) : string := nth i loadingMessages "".

(** Lines 46-52, the effect when a render finds [isLoading] true: the
    first message is shown and the interval is set. *)
Definition setInterval (s : State) : State :=
  setLoadingMessage (messageOf 0) (setTicker (Some 0%nat) s).

(** Lines 50-51: one run of the callback of the interval. *)
Definition intervalCallback (s : State) : State :=
  match ticker s with
  | Some i =>
      let i := ((i + 1) mod length loadingMessages)%nat in
      setLoadingMessage (messageOf i) (setTicker (Some i) s)
  | None => s
  end.

(** Line 54, the cleanup of the effect. *)
Definition clearInterval (s : State) : State := setTicker None s.

(** The render that follows the updates of a handler, from the state
    [before] them to the state [after]: the effect has [isLoading] as
    its only dependency (line 56), so it is cleaned up and run again
    exactly when [isLoading] has changed. *)
Definition rendered (before after : State) : State :=
  if Bool.eqb (isLoading before) (isLoading after) then after
  else if isLoading after then setInterval (clearInterval after)
  else clearInterval after.

(** The callback of the interval runs [n] times. *)
Definition runInterval (n : nat) (s : State) : State :=
  Nat.iter n intervalCallback s.

Arguments rendered : simpl never.
Arguments runInterval : simpl never.

(** [Promise.all] of two promises. When both reject, the flag tells
    which of them rejected first. *)
Definition promiseAll {A B : Type} (secondRejectsFirst : bool)
  (a : Settled A) (b : Settled B) : Settled (A * B) :=
  match a, b with
  | Resolved x, Resolved y => Resolved (x, y)
  | Rejected m, Resolved _ => Rejected m
  | Resolved _, Rejected m => Rejected m
  | Rejected m1, Rejected m2 =>
      Rejected (if secondRejectsFirst then m2 else m1)
  end.

(** The world outside the component; [intervalRuns] is the number of
    times the 2.5 s interval fires while a handler waits for its
    promises. *)
Record World : Type := mkWorld {
  browser : Browser;
  ai : Api;
  secondRejectsFirst : bool;
  intervalRuns : nat
}.

Definition swapParams (s : State) (scene character : FileConversionResult)
  : SwapParams :=
  let c := controls s in
  {| sceneImageBase64 := base64 scene;
     sceneMimeType := FileUtils.mimeType scene;
     characterImageBase64 := base64 character;
     characterMimeType := FileUtils.mimeType character;
     characterScale := cCharacterScale c;
     sceneComposition := cSceneComposition c;
     characterAction := cCharacterAction c;
     artStyle := cArtStyle c;
     timeOfDay := cTimeOfDay c;
     atmosphere := cAtmosphere c;
     negativePrompt := cNegativePrompt c;
     aspectRatio := cAspectRatio c;
     removeWatermark := cRemoveWatermark c |}.

(** [`data:image/png;base64,${result}`] *)
Definition pngUrl (result : string) : string :=
  "data:image/png;base64," ++ result.

(** [handleGenerate], lines 68-110: the state it leaves and the requests
    that went to the model.  The updates of lines 74-77 are rendered,
    the interval runs while the promises are pending, and the updates
    that follow them are rendered in their turn. *)
Definition handleGenerate (w : World) (s : State)
  : State * list GenerateContentParameters :=
  match sceneImage s, characterImage s with
  | Some scene, Some character =>
      let s1 :=
        rendered s
          (setResultImageBase64 None
             (setResultImage None (setError None (setIsLoading true s)))) in
      let s2 := runInterval (intervalRuns w) s1 in
      match promiseAll (secondRejectsFirst w)
              (fileToBase64 (browser w) scene)
              (fileToBase64 (browser w) character) with
      | Rejected m =>
          (rendered s2 (setIsLoading false (setError (Some m) s2)), [])
      | Resolved (sceneImageResult, characterImageResult) =>
          let '(outcome, sent) :=
            swapCharactersInImage (ai w)
              (swapParams s sceneImageResult characterImageResult) in
          match outcome with
          | Resolved result =>
              (rendered s2
                 (setIsLoading false
                    (setResultImage (Some (pngUrl result))
                       (setResultImageBase64 (Some result) s2))),
               sent)
          | Rejected m =>
              (rendered s2 (setIsLoading false (setError (Some m) s2)), sent)
          end
      end
  | _, _ =>
      (setError (Some "Please upload both a scene and a character image.") s,
       [])
  end.

(** [handleInpaint], lines 112-133. *)
Definition handleInpaint (w : World) (imageBase64 maskBase64 : option string)
  (s : State) : State * list GenerateContentParameters :=
  let s1 :=
    rendered s
      (setLoadingMessage "Applying your edits with AI..."
         (setIsEditing false (setError None (setIsLoading true s)))) in
  let s2 := runInterval (intervalRuns w) s1 in
  let '(outcome, sent) :=
    inpaintImage (ai w)
      {| imageBase64 := imageBase64;
         imageMimeType := "image/png";
         maskBase64 := maskBase64;
         maskMimeType := "image/png" |} in
  match outcome with
  | Resolved result =>
      (rendered s2
         (setIsLoading false
            (setResultImage (Some (pngUrl result))
               (setResultImageBase64 (Some result) s2))),
       sent)
  | Rejected m =>
      (rendered s2
         (setIsLoading false (setError (Some ("Editing failed: " ++ m)) s2)),
       sent)
  end.

(** Line 193 and the [disabled] attribute of the button (line 144 of
    RefinePanel.tsx). *)
Definition canGenerate (s : State) : bool :=
  JS.present (sceneImage s) && JS.present (characterImage s).

Definition generateDisabled (s : State) : bool :=
  negb (canGenerate s) || isLoading s.

(** Lines 137-145: the props of the editor when it is rendered. *)
Definition editorProps (s : State) : option (string * string) :=
  if isEditing s && JS.truthy_opt (resultImage s)
     && JS.truthy_opt (resultImageBase64 s)
  then
    match resultImage s, resultImageBase64 s with
    | Some imageUrl, Some imageBase64 => Some (imageUrl, imageBase64)
    | _, _ => None
    end
  else None.

(** Clicking "Save Changes" in the rendered editor: [handleSave] passes
    its [imageBase64] prop and the encoded mask to [onSave], which is
    [handleInpaint]. *)
Definition saveEditor (w : World)
  (toDataURL : ImageEditor.Canvas -> string -> string)
  (ed : ImageEditor.Editor) (s : State)
  : option (State * list GenerateContentParameters) :=
  match editorProps s with
  | None => None
  | Some (_, imageBase64) =>
      let '(original, mask) :=
        ImageEditor.handleSave toDataURL (Some imageBase64) ed in
      Some (handleInpaint w original mask s)
  end.

End App.

(* ------------------------------------------------------------------ *)
(** ** Predicates of the specification *)

Module Spec.

Import GeminiService ImageEditor.

(** [needle] occurs in [hay]. *)
Definition includes (needle hay : string) : Prop :=
  exists pre post, hay = pre ++ needle ++ post.


(** An opaque grey, from black (0) to white (255). *)
Definition opaqueGrey (p : Colour) : Prop :=
  alpha p = 255%Z /\ red p = green p /\ green p = blue p /\
  (0 <= red p <= 255)%Z.


(** The segment an action strokes, if it strokes one: a press strokes
    from the pointer to itself, a move with the button down from the
    last position to the pointer. *)
Definition strokeOf (ed : Editor) (a : Action) : option (Point * Point) :=
  match a with
  | MouseDown e =>
      match getCoordinates ed e with
      | Some (Finite b) => Some (b, b)
      | _ => None
      end
  | MouseMove e =>
      if isDrawing ed then
        match lastPosition ed, getCoordinates ed e with
        | Some (Finite a), Some (Finite b) => Some (a, b)
        | None, Some (Finite b) => Some (b, b)
        | _, _ => None
        end
      else None
  | _ => None
  end.

(** How much of the pixel the stroke of an action covers, out of 255. *)
Definition coverage (strokes : Z -> Point -> Point -> Z -> Z -> Z)
  (ed : Editor) (a : Action) (x y : Z) : Z :=
  match strokeOf ed a with
  | Some (from, to) => clamp (strokes (brushSize ed) from to x y)
  | None => 0%Z
  end.



(** No part of any candidate of the response has inline data. *)
Definition carriesNoImage (r : GenerateContentResponse) : Prop :=
  forall cs c ct ps part,
    candidates r = Some cs -> In c cs ->
    content c = Some ct -> parts ct = Some ps -> In part ps ->
    partData part = None.

End Spec.

(* ------------------------------------------------------------------ *)
(** ** Concrete browsers, files, responses and states *)

Module Demo.

Import FileUtils GeminiService.

Definition webp : File := mkFile "image/webp" "UklGRg==".

Definition png : File := mkFile "image/png" "iVBORw0KGgo=".

(** A browser in which every image has the given size. *)
Definition browserOf (w h : N) : Browser :=
  {| readAsDataURL := fun f => ReadLoaded (Some (dataURL_of f));
     loadImage := fun _ => ImageLoaded w h;
     getContext2d := true;
     toDataURL := fun _ mime _ => "data:" ++ mime ++ ";base64,QUJD" |}.

(** A brush that covers the columns within the line width of the end
    point, and half of the column next to them on either side. *)
Definition columnBrush (lineWidth : Z) (a b : ImageEditor.Point) (x y : Z)
  : Z :=
  let distance := Qabs (inject_Z x - ImageEditor.px b) in
  if Qle_bool distance (inject_Z lineWidth) then 255%Z
  else if Qle_bool distance (inject_Z lineWidth + 1) then 128%Z
  else 0%Z.

Definition picture (x y : Z) : ImageEditor.Colour :=
  ImageEditor.rgba 10 20 30 255.

Definition click : ImageEditor.MouseEvent :=
  ImageEditor.mkMouse 50 10 (ImageEditor.mkRect 0 0 200 100).

Definition stroke : list ImageEditor.Action :=
  [ImageEditor.MouseDown click; ImageEditor.MouseMove click;
   ImageEditor.MouseUp].

Definition pngEncoder (c : ImageEditor.Canvas) (mime : string) : string :=
  "data:image/png;base64,TUFTSw==".

(** A response whose first candidate has a text part, a part with empty
    data, and two images. *)
Definition imageResponse : GenerateContentResponse :=
  mkResponse
    (Some [ mkCandidate
              (Some (mkContent
                       (Some [ text_part "Here is your image.";
                               inline_part (Some "") "image/png";
                               inline_part (Some "SU1HMQ==") "image/png";
                               inline_part (Some "SU1HMg==") "image/png" ])))
          ]).

Definition textResponse : GenerateContentResponse :=
  mkResponse
    (Some [ mkCandidate
              (Some (mkContent (Some [ text_part "I cannot do that." ]))) ]).

Definition imageAi : Api := fun _ => Returns imageResponse.

Definition textAi : Api := fun _ => Returns textResponse.

Definition nightParams : SwapParams :=
  mkSwapParams (Some "U0NFTkU=") "image/jpeg" (Some "Q0hBUg==") "image/png"
    "Large" "Wide Shot" "waving" "PhotoRealistic" "Night" "dreamy" "text"
    "16:9" true.

Definition plainParams : SwapParams :=
  mkSwapParams (Some "U0NFTkU=") "image/jpeg" (Some "Q0hBUg==") "image/png"
    "Medium" "Medium Shot" "" "Anime" "As in Scene" "" "" "1:1" false.

Definition maskParams : InpaintParams :=
  mkInpaintParams (Some "SU1HMQ==") "image/png" (Some "TUFTSw==") "image/png".

Definition world (api : Api) : App.World :=
  App.mkWorld (browserOf 3000 1500) api false 3.

(** Both images uploaded, nothing generated yet. *)
Definition uploaded : App.State :=
  App.handleCharacterImageUpload "blob:character" png
    (App.handleSceneImageUpload "blob:scene" webp App.initial).

(** A result is shown and the editor is open. *)
Definition editing : App.State :=
  App.setIsEditing true
    (App.setResultImage (Some (App.pngUrl "SU1HMQ=="))
       (App.setResultImageBase64 (Some "SU1HMQ==") uploaded)).

End Demo.

(* ------------------------------------------------------------------ *)
(** ** components/RefinePanel.tsx: the option lists and the sliders *)

Module RefinePanel.

(** Lines 28-32. *)
Definition scaleOptions : list string := ["Small"; "Medium"; "Large"].

Definition compositionOptions : list string :=
  ["Close-up"; "Medium Shot"; "Wide Shot"].

Definition artStyleOptions : list string :=
  ["Photorealistic"; "Cinematic"; "Anime"; "Oil Painting"; "Watercolor";
   "Vintage Photo"].

Definition timeOfDayOptions : list string :=
  ["As in Scene"; "Daylight"; "Golden Hour"; "Twilight"; "Night";
   "Overcast"].

Definition aspectRatioOptions : list string :=
  ["1:1"; "16:9"; "9:16"; "4:3"; "3:4"].

Fixpoint indexOfFrom (i : Z) (xs : list string) (v : string) : Z :=
  match xs with
  | [] => (-1)%Z
  | x :: rest => if x =? v then i else indexOfFrom (i + 1)%Z rest v
  end.

(** [xs.indexOf(v)]: the first position of [v], or -1. *)
Definition indexOf (xs : list string) (v : string) : Z :=
  indexOfFrom 0%Z xs v.

(** [xs[n]] for a number [n]; [None] stands for [NaN] on the left and for
    [undefined] on the right. *)
Definition at_number (xs : list string) (n : option Z) : option string :=
  match n with
  | None => None
  | Some z => if (z <? 0)%Z then None else nth_error xs (Z.to_nat z)
  end.

(** The white space and line terminators [parseInt] skips: those of one
    byte, U+00A0 in two bytes, and in three bytes U+1680, U+2000 to
    U+200A, U+2028, U+2029, U+202F, U+205F, U+3000 and U+FEFF. *)
Definition isWhiteSpace (c : ascii) : bool :=
  let n := nat_of_ascii c in
  ((n =? 9) || (n =? 10) || (n =? 11) || (n =? 12) || (n =? 13)
   || (n =? 32))%nat.

Definition isWhiteSpace2 (c1 c2 : ascii) : bool :=
  ((nat_of_ascii c1 =? 194) && (nat_of_ascii c2 =? 160))%nat.

Definition isWhiteSpace3 (c1 c2 c3 : ascii) : bool :=
  let a := nat_of_ascii c1 in
  let b := nat_of_ascii c2 in
  let c := nat_of_ascii c3 in
  (((a =? 225) && (b =? 154) && (c =? 128))
   || ((a =? 226) && (b =? 128)
       && (((128 <=? c) && (c <=? 138)) || (c =? 168) || (c =? 169)
           || (c =? 175)))
   || ((a =? 226) && (b =? 129) && (c =? 159))
   || ((a =? 227) && (b =? 128) && (c =? 128))
   || ((a =? 239) && (b =? 187) && (c =? 191)))%nat.

Fixpoint trimStart (s : string) : string :=
  match s with
  | EmptyString => EmptyString
  | String c1 rest1 =>
      if isWhiteSpace c1 then trimStart rest1
      else
        match rest1 with
        | EmptyString => s
        | String c2 rest2 =>
            if isWhiteSpace2 c1 c2 then trimStart rest2
            else
              match rest2 with
              | EmptyString => s
              | String c3 rest3 =>
                  if isWhiteSpace3 c1 c2 c3 then trimStart rest3 else s
              end
        end
  end.

(** The value of a digit or letter as a digit of some radix. *)
Definition digitValue (c : ascii) : option Z :=
  let n := nat_of_ascii c in
  if ((48 <=? n) && (n <=? 57))%nat then Some (Z.of_nat (n - 48))
  else if ((97 <=? n) && (n <=? 122))%nat then Some (Z.of_nat (n - 87))
  else if ((65 <=? n) && (n <=? 90))%nat then Some (Z.of_nat (n - 55))
  else None.

(** The longest prefix of digits of the radix, as a number; [acc] is
    [None] until a digit has been read. *)
Fixpoint readDigits (radix : Z) (acc : option Z) (s : string) : option Z :=
  match s with
  | EmptyString => acc
  | String c rest =>
      match digitValue c with
      | Some d =>
          if (d <? radix)%Z
          then readDigits radix
                 (Some (match acc with
                        | Some a => a * radix + d
                        | None => d
                        end)%Z) rest
          else acc
      | None => acc
      end
  end.

(** [parseInt(s)] without a radix, as an exact integer (JavaScript
    rounds results past 2^53); [None] is [NaN]. *)
Definition parseInt (s : string) : option Z :=
  let trimmed := trimStart s in
  let '(sign, unsigned) :=
    match trimmed with
    | String "-"%char rest => ((-1)%Z, rest)
    | String "+"%char rest => (1%Z, rest)
    | _ => (1%Z, trimmed)
    end in
  let '(radix, body) :=
    match unsigned with
    | String "0"%char (String "x"%char rest) => (16%Z, rest)
    | String "0"%char (String "X"%char rest) => (16%Z, rest)
    | _ => (10%Z, unsigned)
    end in
  option_map (Z.mul sign) (readDigits radix None body).

(** The string an integer becomes in a [value] attribute. *)
Definition numberToString (z : Z) : string :=
  NilZero.string_of_int (Z.to_int z).

(** Lines 82 and 89: [value={options.indexOf(current)}]. *)
Definition sliderValue (options : list string) (current : string) : string :=
  numberToString (indexOf options current).

(** Lines 82 and 89: [onChange] passes
    [options[parseInt(e.target.value)]] to the callback. *)
Definition sliderChange (options : list string) (value : string)
  : option string :=
  at_number options (parseInt value).

End RefinePanel.

(* ------------------------------------------------------------------ *)
(** ** components/RefinePanel.tsx: the ImageUploader component *)

Module ImageUploader.

(** [handleFileChange], lines 346-351: the file [onFileSelect] is called
    with, if it is called; [files] is [event.target.files]. *)
Definition handleFileChange (files : option (list FileUtils.File))
  : option FileUtils.File :=
  match files with
  | None => None
  | Some fs => JS.index fs 0
  end.

End ImageUploader.

(* ------------------------------------------------------------------ *)
(** ** App.tsx: what is rendered, and the events of the page *)

Module Page.

Import FileUtils GeminiService App.

(** Lines 35-42. *)
Definition loadingMessages : list string := App.loadingMessages.

(** Line 50, the body of the interval callback: [i = (i + 1) % length]. *)
Definition tick (i : Z) : Z :=
  ((i + 1) mod Z.of_nat (length loadingMessages))%Z.

(** Lines 48 and 51: [loadingMessages[i]]. *)
Definition messageAt (i : Z) : option string :=
  RefinePanel.at_number loadingMessages (Some i).

(** The counter after [n] runs of the callback; it starts at 0 (line 47). *)
Fixpoint ticks (n : nat) : Z :=
  match n with
  | O => 0%Z
  | S k => tick (ticks k)
  end.

(** Lines 197, 204, 210 and 233: the four conditional blocks of the
    result area. *)
Definition showSpinner (s : State) : bool :=
  isLoading s && negb (isEditing s).

Definition showError (s : State) : bool :=
  JS.truthy_opt (error s) && negb (isLoading s).

Definition showResult (s : State) : bool :=
  negb (isLoading s) && JS.truthy_opt (resultImage s).

Definition showPlaceholder (s : State) : bool :=
  negb (isLoading s) && negb (JS.truthy_opt (resultImage s))
  && negb (JS.truthy_opt (error s)).

Definition setControls (c : Controls) (s : State) : State :=
  mkState (sceneImage s) (characterImage s) (sceneImageUrl s)
    (characterImageUrl s) (resultImage s) (resultImageBase64 s)
    (isLoading s) (isEditing s) (error s) (loadingMessage s) (ticker s) c.

(** What can happen on the page between two renders. A file event
    carries the list of the input and the URL [createObjectURL] makes;
    [Refine] is one of the nine [on...Change] callbacks of lines 173-190;
    a click on "Save Changes" carries the state of the editor and the
    encoder of its mask canvas. *)
Inductive Event : Type :=
| SceneFileChange (files : option (list File)) (objectUrl : string)
| CharacterFileChange (files : option (list File)) (objectUrl : string)
| Refine (change : Controls -> Controls)
| ClickGenerate (w : World)
| ClickEdit
| CloseEditor
| ClickSave (w : World)
    (toDataURL : ImageEditor.Canvas -> string -> string)
    (ed : ImageEditor.Editor).

(** An element that is not rendered, or a button that is disabled, gets
    no click.  A click that calls the model is taken together with the
    whole run of its handler. *)
Definition step (s : State) (e : Event)
  : State * list GenerateContentParameters :=
  match e with
  | SceneFileChange files url =>
      match ImageUploader.handleFileChange files with
      | Some file => (handleSceneImageUpload url file s, [])
      | None => (s, [])
      end
  | CharacterFileChange files url =>
      match ImageUploader.handleFileChange files with
      | Some file => (handleCharacterImageUpload url file s, [])
      | None => (s, [])
      end
  | Refine change => (setControls (change (controls s)) s, [])
  | ClickGenerate w =>
      if generateDisabled s then (s, []) else handleGenerate w s
  | ClickEdit =>
      if showResult s then (setIsEditing true s, []) else (s, [])
  | CloseEditor =>
      match editorProps s with
      | Some _ => (setIsEditing false s, [])
      | None => (s, [])
      end
  | ClickSave w toDataURL ed =>
      if isLoading s then (s, [])
      else
        match saveEditor w toDataURL ed s with
        | Some after => after
        | None => (s, [])
        end
  end.

Fixpoint run (s : State) (events : list Event)
  : State * list GenerateContentParameters :=
  match events with
  | [] => (s, [])
  | e :: rest =>
      let '(s1, sent1) := step s e in
      let '(s2, sent2) := run s1 rest in
      (s2, (sent1 ++ sent2)%list)
  end.

End Page.

(* ------------------------------------------------------------------ *)
(** ** App.tsx: events while a call is pending *)

Module Async.

Import FileUtils GeminiService App.

(** A handler that has reached its [await]: what it goes on with when
    its promises settle.  The files and the controls are those of the
    render in which the click happened, [clicked] (the dependencies of
    [useCallback], line 110). *)
Inductive Pending : Type :=
| Generating (w : World) (scene character : File) (clicked : State)
| Inpainting (w : World) (imageBase64 maskBase64 : option string).

(** Lines 74-77 and the render that follows them. *)
Definition beginGenerate (s : State) : State :=
  rendered s
    (setResultImageBase64 None
       (setResultImage None (setError None (setIsLoading true s)))).

(** Lines 79-109, on the state the page has when the promises have
    settled. *)
Definition endGenerate (w : World) (scene character : File)
  (clicked s : State) : State * list GenerateContentParameters :=
  match promiseAll (secondRejectsFirst w)
          (fileToBase64 (browser w) scene)
          (fileToBase64 (browser w) character) with
  | Rejected m => (rendered s (setIsLoading false (setError (Some m) s)), [])
  | Resolved (sceneImageResult, characterImageResult) =>
      let '(outcome, sent) :=
        swapCharactersInImage (ai w)
          (swapParams clicked sceneImageResult characterImageResult) in
      match outcome with
      | Resolved result =>
          (rendered s
             (setIsLoading false
                (setResultImage (Some (pngUrl result))
                   (setResultImageBase64 (Some result) s))),
           sent)
      | Rejected m =>
          (rendered s (setIsLoading false (setError (Some m) s)), sent)
      end
  end.

(** Lines 113-116 and the render that follows them. *)
Definition beginInpaint (s : State) : State :=
  rendered s
    (setLoadingMessage "Applying your edits with AI..."
       (setIsEditing false (setError None (setIsLoading true s)))).

(** Lines 118-132. *)
Definition endInpaint (w : World) (imageBase64 maskBase64 : option string)
  (s : State) : State * list GenerateContentParameters :=
  let '(outcome, sent) :=
    inpaintImage (ai w)
      {| imageBase64 := imageBase64;
         imageMimeType := "image/png";
         maskBase64 := maskBase64;
         maskMimeType := "image/png" |} in
  match outcome with
  | Resolved result =>
      (rendered s
         (setIsLoading false
            (setResultImage (Some (pngUrl result))
               (setResultImageBase64 (Some result) s))),
       sent)
  | Rejected m =>
      (rendered s
         (setIsLoading false (setError (Some ("Editing failed: " ++ m)) s)),
       sent)
  end.

(** The page and the call it waits for, if any. *)
Record Running : Type := mkRunning {
  page : State;
  pending : option Pending
}.

Definition start : Running := mkRunning initial None.

(** An event of the page, a run of the callback of the interval, or the
    promises of the pending call settling. *)
Inductive Event : Type :=
| OnPage (e : Page.Event)
| IntervalFires
| Settles.

(** A click on "Fuse Images" or on "Save Changes" runs its handler up
    to the [await]; the requests are logged when the call settles. *)
Definition step (r : Running) (e : Event)
  : Running * list GenerateContentParameters :=
  match e with
  | OnPage (Page.ClickGenerate w) =>
      if generateDisabled (page r) then (r, [])
      else
        match sceneImage (page r), characterImage (page r) with
        | Some scene, Some character =>
            (mkRunning (beginGenerate (page r))
               (Some (Generating w scene character (page r))), [])
        | _, _ => (mkRunning (fst (handleGenerate w (page r))) (pending r), [])
        end
  | OnPage (Page.ClickSave w toDataURL ed) =>
      if isLoading (page r) then (r, [])
      else
        match editorProps (page r) with
        | Some (_, imageBase64) =>
            let '(original, mask) :=
              ImageEditor.handleSave toDataURL (Some imageBase64) ed in
            (mkRunning (beginInpaint (page r))
               (Some (Inpainting w original mask)), [])
        | None => (r, [])
        end
  | OnPage e => (mkRunning (fst (Page.step (page r) e)) (pending r), [])
  | IntervalFires => (mkRunning (intervalCallback (page r)) (pending r), [])
  | Settles =>
      match pending r with
      | Some (Generating w scene character clicked) =>
          let '(s, sent) := endGenerate w scene character clicked (page r) in
          (mkRunning s None, sent)
      | Some (Inpainting w imageBase64 maskBase64) =>
          let '(s, sent) := endInpaint w imageBase64 maskBase64 (page r) in
          (mkRunning s None, sent)
      | None => (r, [])
      end
  end.

Fixpoint run (r : Running) (events : list Event)
  : Running * list GenerateContentParameters :=
  match events with
  | [] => (r, [])
  | e :: rest =>
      let '(r1, sent1) := step r e in
      let '(r2, sent2) := run r1 rest in
      (r2, (sent1 ++ sent2)%list)
  end.

End Async.

(* ------------------------------------------------------------------ *)
(** ** Predicates on the state of the page *)

Module PageSpec.

Import App.

(** What holds of the state of the page: the result URL is the PNG data
    URL of the result data, the result data and the error message are
    not empty, and a preview URL is there exactly when its file is. *)
Definition consistent (s : State) : Prop :=
  resultImage s = option_map pngUrl (resultImageBase64 s) /\
  (forall r, resultImageBase64 s = Some r -> r <> "") /\
  (forall m, error s = Some m -> m <> "") /\
  JS.present (sceneImageUrl s) = JS.present (sceneImage s) /\
  JS.present (characterImageUrl s) = JS.present (characterImage s).

(** Both images have been uploaded. *)
Definition bothUploaded (s : State) : Prop :=
  exists scene character,
    sceneImage s = Some scene /\ characterImage s = Some character.

(** What holds at every moment, a call pending or not: the page is
    consistent, and it is loading exactly while a call is pending. *)
Definition invariant (r : Async.Running) : Prop :=
  consistent (Async.page r) /\
  isLoading (Async.page r) = JS.present (Async.pending r).

End PageSpec.

(* ------------------------------------------------------------------ *)
(** ** More concrete cases *)

Module Cases.

Import FileUtils GeminiService.

Definition gif : File := mkFile "image/gif" "R0lGODlh".

(** No 2D context, and an encoder that would fail if it were used. *)
Definition bareBrowser (w h : N) : Browser :=
  {| readAsDataURL := fun f => ReadLoaded (Some (dataURL_of f));
     loadImage := fun _ => ImageLoaded w h;
     getContext2d := false;
     toDataURL := fun _ _ _ => "" |}.

(** A reader that yields text without a comma. *)
Definition plainReader : Browser :=
  {| readAsDataURL := fun _ => ReadLoaded (Some "not a data url");
     loadImage := fun _ => ImageLoaded 10 10;
     getContext2d := true;
     toDataURL := fun _ _ _ => "" |}.

Definition brokenImages : Browser :=
  {| readAsDataURL := fun f => ReadLoaded (Some (dataURL_of f));
     loadImage := fun _ => ImageFailed "[object Event]";
     getContext2d := true;
     toDataURL := fun _ mime _ => "data:" ++ mime ++ ";base64,QUJD" |}.

(** The first candidate has only text; the second has an image. *)
Definition secondCandidateResponse : GenerateContentResponse :=
  mkResponse
    (Some [ mkCandidate
              (Some (mkContent (Some [ text_part "First answer." ])));
            mkCandidate
              (Some (mkContent
                       (Some [ inline_part (Some "SU1HMg==") "image/png" ])))
          ]).

Definition secondCandidateAi : Api := fun _ => Returns secondCandidateResponse.

Definition failingAi : Api := fun _ => ThrowsError "503 Service Unavailable".

Definition oddAi : Api := fun _ => ThrowsOther.

Definition press : ImageEditor.MouseEvent :=
  ImageEditor.mkMouse 110 60 (ImageEditor.mkRect 10 10 400 200).

Definition move : ImageEditor.MouseEvent :=
  ImageEditor.mkMouse 150 60 (ImageEditor.mkRect 10 10 400 200).

Definition loadedEditor : ImageEditor.Editor :=
  ImageEditor.onload Demo.picture 200 100 ImageEditor.mounted.

(** Both images are uploaded and "Fuse Images" is clicked; before the
    call settles a control is changed and the interval fires twice. *)
Definition interrupted : list Async.Event :=
  [ Async.OnPage (Page.SceneFileChange (Some [Demo.webp]) "blob:scene");
    Async.OnPage
      (Page.CharacterFileChange (Some [Demo.png]) "blob:character");
    Async.OnPage (Page.ClickGenerate (Demo.world Demo.imageAi));
    Async.OnPage (Page.Refine (fun c => c));
    Async.IntervalFires;
    Async.IntervalFires ].

(** A session: upload both images, generate, open the editor, save. *)
Definition session : list Page.Event :=
  [ Page.SceneFileChange (Some [Demo.webp]) "blob:scene";
    Page.CharacterFileChange (Some [Demo.png]) "blob:character";
    Page.ClickGenerate (Demo.world Demo.imageAi);
    Page.ClickEdit;
    Page.ClickSave (Demo.world Demo.textAi) Demo.pngEncoder loadedEditor ].

End Cases.

(* ------------------------------------------------------------------ *)
(** * Properties *)

(** ** Numbers, strings and splitting *)

(** The rounding at some quotients and products, as fractions:
    [1122 * (1024 / 1122)] is 1023.9999999999999, just below 1024,
    [561 * (1024 / 1122)] is 511.99999999999994, and
    [704 * (800 / 704)] is 800.0000000000001, just above 800. *)
Lemma round64_cases :
  Double.div 1024 1122 = 2055118546536269 # 2251799813685248 /\
  Double.mul 1122 (Double.div 1024 1122)
    = 9007199254740991 # 8796093022208 /\
  Double.mul 561 (Double.div 1024 1122)
    = 9007199254740991 # 17592186044416 /\
  Double.mul 704 (Double.div 800 704) = 7036874417766401 # 8796093022208 /\
  Double.mul 100 (Double.div 1024 848)
    = 4248678893745751 # 35184372088832 /\
  Double.round64 (1 # 3) = 6004799503160661 # 18014398509481984 /\
  Double.round64 (1024 # 1) = 1024 /\
  Double.sub 110 10 = 100.
Proof. repeat split; vm_compute; reflexivity. Qed.

Lemma Qgtb_true (x y : Q) : JS.Qgtb x y = true <-> y < x.
Proof.
  unfold JS.Qgtb. rewrite negb_true_iff.
  split; intro H.
  - apply Qnot_le_lt. intro L. apply Qle_bool_iff in L. congruence.
  - destruct (Qle_bool x y) eqn:E; [|reflexivity].
    apply Qle_bool_iff in E. exfalso. apply (Qlt_not_le _ _ H E).
Qed.

Lemma Qgtb_false (x y : Q) : JS.Qgtb x y = false <-> x <= y.
Proof.
  unfold JS.Qgtb. rewrite negb_false_iff. apply Qle_bool_iff.
Qed.

Lemma ToUint32_floor (q : Q) :
  0 <= q -> JS.ToUint32 q = (Qfloor q mod 2 ^ 32)%Z.
Proof.
  intros Hq. unfold JS.ToUint32. destruct q as [n d]. simpl.
  rewrite Z.quot_div_nonneg; [reflexivity| |reflexivity].
  unfold Qle in Hq. simpl in Hq. lia.
Qed.

(** Up to 1024 the conversion is the integer part. *)
Lemma ToUint32_small (q : Q) :
  0 <= q -> q <= 1024 -> JS.ToUint32 q = Qfloor q.
Proof.
  intros H0 H1. rewrite ToUint32_floor by assumption.
  apply Z.mod_small. split.
  - change 0%Z with (Qfloor 0). apply Qfloor_resp_le. assumption.
  - apply Z.le_lt_trans with 1024%Z; [|reflexivity].
    change 1024%Z with (Qfloor 1024). apply Qfloor_resp_le. assumption.
Qed.

Lemma truthy_true (s : string) : JS.truthy s = true <-> s <> "".
Proof.
  unfold JS.truthy. rewrite negb_true_iff. split.
  - intros H E. apply String.eqb_eq in E. congruence.
  - intro H. apply String.eqb_neq. assumption.
Qed.

Lemma truthy_false (s : string) : JS.truthy s = false <-> s = "".
Proof.
  unfold JS.truthy. rewrite negb_false_iff. apply String.eqb_eq.
Qed.

Lemma split_clean (s : string) :
  JS.occurs comma s = false -> JS.split comma s = [s].
Proof.
  induction s as [|c s IH]; simpl; intro H; [reflexivity|].
  apply orb_false_iff in H. destruct H as [Hc Hs].
  rewrite Hc, (IH Hs). reflexivity.
Qed.

Lemma split_header (h p : string) :
  JS.occurs comma h = false ->
  JS.split comma (h ++ String comma p) = h :: JS.split comma p.
Proof.
  induction h as [|c h IH]; simpl; intro H.
  - reflexivity.
  - apply orb_false_iff in H. destruct H as [Hc Hs].
    rewrite Hc, (IH Hs). reflexivity.
Qed.

(** The second piece of a data URL is its payload. *)
Lemma index_data_url (header payload : string) :
  JS.occurs comma header = false -> JS.occurs comma payload = false ->
  JS.index (JS.split comma (header ++ String comma payload)) 1 = Some payload.
Proof.
  intros Hh Hp. rewrite (split_header _ _ Hh), (split_clean _ Hp). reflexivity.
Qed.

Lemma truthy_data_url (header payload : string) :
  JS.truthy (header ++ String comma payload) = true.
Proof. destruct header; reflexivity. Qed.

Lemma append_assoc (a b c : string) : (a ++ b) ++ c = a ++ b ++ c.
Proof. induction a; simpl; congruence. Qed.

Lemma append_nonempty_r (a b : string) : b <> "" -> a ++ b <> a.
Proof.
  intros Hb. induction a as [|c a IH]; simpl.
  - exact Hb.
  - intro E. injection E as E. exact (IH E).
Qed.

Lemma includes_here (n post : string) : Spec.includes n (n ++ post).
Proof. exists "", post. reflexivity. Qed.

Lemma includes_skip (a n hay : string) :
  Spec.includes n hay -> Spec.includes n (a ++ hay).
Proof.
  intros (pre & post & ->). exists (a ++ pre), post.
  symmetry. apply append_assoc.
Qed.

(** Walk along a concatenation until the wanted piece is at its head. *)
Ltac find_slot :=
  repeat first [ apply includes_here | apply includes_skip ].

(** ** Image sizes *)

Section Dimensions.

Import FileUtils.

Lemma dim_nonneg (n : N) : 0 <= dim n.
Proof. unfold dim. change 0 with (inject_Z 0). rewrite <- Zle_Qle. lia. Qed.

Lemma dim_le (n m : N) : dim n <= dim m <-> (n <= m)%N.
Proof. unfold dim. rewrite <- Zle_Qle. lia. Qed.

Lemma dim_lt (n m : N) : dim n < dim m <-> (n < m)%N.
Proof. unfold dim. rewrite <- Zlt_Qlt. lia. Qed.

Lemma dim_pos (n : N) : (0 < n)%N -> 0 < dim n.
Proof. intro H. change 0 with (dim 0). apply dim_lt. assumption. Qed.

Lemma floor_dim (n : N) : Qfloor (dim n) = Z.of_N n.
Proof. apply Qfloor_Z. Qed.

Lemma scale_le (x y : Q) :
  0 <= y -> 0 < x -> y <= x -> y * (1024 / x) <= 1024.
Proof.
  intros.
  setoid_replace (y * (1024 / x)) with ((y * 1024) / x) by (field; lra).
  apply Qle_shift_div_r; [assumption|]. nra.
Qed.

Lemma scale_nonneg (x y : Q) : 0 <= y -> 0 < x -> 0 <= y * (1024 / x).
Proof.
  intros Hy Hx. apply Qmult_le_0_compat; [assumption|].
  apply Qle_shift_div_l; [assumption|]. lra.
Qed.

Lemma ratio_eq (x y : Q) : 0 < x -> (y / x) * 1024 == y * (1024 / x).
Proof. intro H. field. lra. Qed.

Lemma floor_scale (a b : N) :
  (0 < b)%N ->
  Qfloor (dim a * (1024 / dim b)) = (Z.of_N a * 1024 / Z.of_N b)%Z.
Proof.
  intro Hb. rewrite Zdiv_Qdiv. apply Qfloor_comp.
  unfold dim. rewrite inject_Z_mult.
  assert (~ inject_Z (Z.of_N b) == 0).
  { apply dim_pos in Hb. unfold dim in Hb. lra. }
  change (inject_Z 1024) with 1024. field. assumption.
Qed.

Lemma floor_ratio (a b : N) :
  (0 < b)%N ->
  Qfloor ((dim a / dim b) * 1024) = (Z.of_N a * 1024 / Z.of_N b)%Z.
Proof.
  intro Hb. rewrite <- (floor_scale a b Hb). apply Qfloor_comp.
  apply ratio_eq, dim_pos, Hb.
Qed.

End Dimensions.

(* ------------------------------------------------------------------ *)
(** ** Rounding to binary64 *)

Section Rounding.

Import Double FileUtils.

Lemma pow2_pos (k : Z) : 0 < pow2 k.
Proof. apply Qpower_0_lt. reflexivity. Qed.

Lemma pow2_succ (k : Z) : pow2 (k + 1) == 2 * pow2 k.
Proof.
  unfold pow2. rewrite Qpower_plus by discriminate. 
  change (2 ^ 1) with 2. ring.
Qed.

Lemma pow2_inject (k : Z) : (0 <= k)%Z -> inject_Z (2 ^ k) == pow2 k.
Proof. intro H. unfold pow2. rewrite Zpower_Qpower by assumption. reflexivity. Qed.

Lemma exponent_spec (q : Q) :
  0 < q -> pow2 (exponent q) <= q /\ q < pow2 (exponent q + 1).
Proof.
  intro Hq. destruct q as [n d].
  assert (Hn : (0 < n)%Z).
  { unfold Qlt in Hq. simpl in Hq. lia. }
  unfold exponent. cbn [Qnum Qden].
  set (a := Z.log2 n). set (b := Z.log2 (Z.pos d)).
  assert (Ha0 : (0 <= a)%Z) by apply Z.log2_nonneg.
  assert (Hb0 : (0 <= b)%Z) by apply Z.log2_nonneg.
  destruct (Z.log2_spec n Hn) as [A1 A2]. fold a in A1, A2.
  destruct (Z.log2_spec (Z.pos d) ltac:(lia)) as [B1 B2]. fold b in B1, B2.
  assert (Qa1 : pow2 a <= inject_Z n).
  { rewrite <- pow2_inject by assumption. rewrite <- Zle_Qle. exact A1. }
  assert (Qa2 : inject_Z n < pow2 (a + 1)).
  { rewrite <- pow2_inject by lia. rewrite <- Zlt_Qlt. exact A2. }
  assert (Qb1 : pow2 b <= inject_Z (Z.pos d)).
  { rewrite <- pow2_inject by assumption. rewrite <- Zle_Qle. exact B1. }
  assert (Qb2 : inject_Z (Z.pos d) < pow2 (b + 1)).
  { rewrite <- pow2_inject by lia. rewrite <- Zlt_Qlt. exact B2. }
  assert (E : n # d == inject_Z n / inject_Z (Z.pos d)) by apply Qmake_Qdiv.
  assert (Pd : 0 < inject_Z (Z.pos d)) by reflexivity.
  pose proof (pow2_pos a) as Pa. pose proof (pow2_pos b) as Pb.
  pose proof (pow2_pos (a - b)) as Pg.
  pose proof (pow2_pos (a - b - 1)) as Pg1.
  assert (G : pow2 (a - b) * pow2 b == pow2 a).
  { unfold pow2. rewrite <- Qpower_plus by discriminate. 
    replace (a - b + b)%Z with a by ring. reflexivity. }
  assert (S1 : pow2 (a + 1) == 2 * pow2 a) by apply pow2_succ.
  assert (S2 : pow2 (b + 1) == 2 * pow2 b) by apply pow2_succ.
  assert (S3 : pow2 (a - b) == 2 * pow2 (a - b - 1)).
  { rewrite <- pow2_succ. replace (a - b - 1 + 1)%Z with (a - b)%Z by ring.
    reflexivity. }
  assert (S4 : pow2 (a - b + 1) == 2 * pow2 (a - b)) by apply pow2_succ.
  (* q * d = n *)
  set (q := n # d) in *.
  assert (M : q * inject_Z (Z.pos d) == inject_Z n).
  { rewrite E. field. intro H. rewrite H in Pd. discriminate. }
  destruct (Qle_bool (pow2 (a - b)) q) eqn:T.
  - apply Qle_bool_iff in T. split; [exact T|].
    rewrite S4.
    (* q < 2 * 2^(a-b): q*d = n < 2*2^a = 2*2^(a-b)*2^b <= 2*2^(a-b)*d *)
    apply Qnot_le_lt. intro C.
    assert (inject_Z n >= 2 * pow2 (a - b) * pow2 b).
    { rewrite <- M. nra. }
    nra.
  - assert (T' : q < pow2 (a - b)).
    { apply Qnot_le_lt. intro C. apply Qle_bool_iff in C. congruence. }
    replace (a - b - 1 + 1)%Z with (a - b)%Z by ring.
    split; [|exact T'].
    apply Qnot_lt_le. intro C.
    (* q < 2^(g-1): n = q*d < 2^(g-1) * 2 * 2^b = 2^g 2^b = 2^a <= n *)
    assert (inject_Z n < pow2 (a - b - 1) * (2 * pow2 b)).
    { rewrite <- M. nra. }
    nra.
Qed.

Lemma nearestEven_error (q : Q) :
  - (1 # 2) <= inject_Z (nearestEven q) - q <= 1 # 2.
Proof.
  unfold nearestEven.
  pose proof (Qfloor_le q) as L. pose proof (Qlt_floor q) as U.
  rewrite inject_Z_plus in U. change (inject_Z 1) with 1 in U.
  destruct (Qcompare_spec (q - inject_Z (Qfloor q)) (1 # 2)) as [E | E | E].
  - destruct (Z.even (Qfloor q)).
    + lra.
    + rewrite inject_Z_plus. change (inject_Z 1) with 1. lra.
  - lra.
  - rewrite inject_Z_plus. change (inject_Z 1) with 1. lra.
Qed.

Lemma round64_positive (x : Q) : 0 < x -> round64 x = roundPositive x.
Proof.
  intro H. destruct x as [[|p|p] d]; [discriminate H | reflexivity |].
  exfalso. unfold Qlt in H. simpl in H. lia.
Qed.

(** In the normal range a rounding moves a number by at most its
    [2^-53]-th part. *)
Lemma round64_error (x : Q) :
  pow2 (-1022) <= x ->
  x * (1 - unit_roundoff) <= round64 x <= x * (1 + unit_roundoff).
Proof.
  intro Hx.
  assert (Px : 0 < x).
  { apply Qlt_le_trans with (pow2 (-1022)); [apply pow2_pos | exact Hx]. }
  rewrite (round64_positive x Px). unfold roundPositive.
  destruct (exponent_spec x Px) as [E1 E2].
  set (e := exponent x) in *.
  assert (He : (-1022 <= e)%Z).
  { assert (L : pow2 (-1022) < pow2 (e + 1)).
    { apply Qle_lt_trans with x; assumption. }
    apply Qpower_lt_compat_l_inv in L; [lia | reflexivity]. }
  replace (Z.max (e - 52) (-1074)) with (e - 52)%Z by lia.
  rewrite Qred_correct.
  pose proof (pow2_pos (e - 52)) as Pu.
  set (ulp := pow2 (e - 52)) in *.
  pose proof (nearestEven_error (x / ulp)) as [N1 N2].
  set (m := inject_Z (nearestEven (x / ulp))) in *.
  assert (D : x / ulp * ulp == x).
  { field. intro H. rewrite H in Pu. discriminate. }
  assert (U : ulp * (1 # 2) == pow2 e * unit_roundoff).
  { unfold ulp, pow2. replace (e - 52)%Z with (e + -52)%Z by ring.
    rewrite Qpower_plus by discriminate. 
    assert (C : 2 ^ (-52) * (1 # 2) == unit_roundoff) by reflexivity.
    rewrite <- C. ring. }
  assert (R : pow2 e * unit_roundoff <= x * unit_roundoff).
  { apply Qmult_le_compat_r; [exact E1 | discriminate]. }
  assert (A1 : (m - x / ulp) * ulp <= (1 # 2) * ulp).
  { apply Qmult_le_compat_r; [exact N2 | apply Qlt_le_weak; exact Pu]. }
  assert (A2 : - (1 # 2) * ulp <= (m - x / ulp) * ulp).
  { apply Qmult_le_compat_r; [exact N1 | apply Qlt_le_weak; exact Pu]. }
  assert (F : (m - x / ulp) * ulp == m * ulp - x).
  { rewrite <- D at 2. ring. }
  rewrite F in A1, A2.
  split; lra.
Qed.

Lemma round64_zero (x : Q) : x == 0 -> round64 x = 0.
Proof.
  intro H. unfold round64. unfold Qeq in H. simpl in H.
  replace (Qnum x) with 0%Z by lia. reflexivity.
Qed.

(** The side that was not the larger one, after
    [other *= 1024 / larger]: its integer part is that of the exact
    product, or one less. *)
Lemma scaled_side (a b : N) :
  (1024 < b)%N -> (b < 2 ^ 32)%N -> (a <= b)%N ->
  let v := Double.mul (dim a) (Double.div 1024 (dim b)) in
  let k := (Z.of_N a * 1024 / Z.of_N b)%Z in
  0 <= v /\ (k - 1 <= Qfloor v <= k)%Z /\ (0 <= k <= 1024)%Z /\
  (k <= Z.of_N a)%Z.
Proof.
  intros Hb1 Hb2 Hab v k.
  assert (Zb : (1024 < Z.of_N b < 2 ^ 32)%Z).
  { split; [lia|]. change (2 ^ 32)%Z with (Z.of_N (2 ^ 32)). lia. }
  assert (Za : (0 <= Z.of_N a <= Z.of_N b)%Z) by lia.
  assert (Kr : (0 <= k <= 1024)%Z).
  { subst k. split; [apply Z.div_pos; lia|].
    apply Z.div_le_upper_bound; lia. }
  assert (Ka : (k <= Z.of_N a)%Z).
  { subst k. apply Z.div_le_upper_bound; [lia|]. nia. }
  destruct (N.eq_dec a 0) as [-> | Ha].
  - subst v k. unfold Double.mul. rewrite round64_zero.
    + simpl. repeat split; try lia; discriminate.
    + unfold dim. simpl. ring.
  - set (A := dim a). set (B := dim b).
    assert (PA : 1 <= A).
    { unfold A, dim. change 1 with (inject_Z 1). rewrite <- Zle_Qle. lia. }
    assert (PB : 1025 <= B <= 4294967295).
    { unfold B, dim. change 1025 with (inject_Z 1025).
      change 4294967295 with (inject_Z 4294967295).
      rewrite <- !Zle_Qle. change (2 ^ 32)%Z with 4294967296%Z in Zb. lia. }
    assert (AB : A <= B).
    { unfold A, B, dim. rewrite <- Zle_Qle. lia. }
    set (x1 := 1024 / B).
    assert (X1 : x1 * B == 1024).
    { unfold x1. field. lra. }
    assert (L1 : pow2 (-1022) <= 1 # 8388608).
    { change (1 # 8388608) with (pow2 (-23)). 
      apply Qpower_le_compat_l; [lia | discriminate]. }
    assert (X1lo : (1 # 4194304) <= x1) by nra.
    assert (X1hi : x1 <= 1) by nra.
    destruct (round64_error x1 ltac:(lra)) as [Q1 Q2].
    set (q := Double.div 1024 B) in *.
    change (round64 x1) with q in Q1, Q2.
    unfold unit_roundoff in Q1, Q2.
    set (x2 := A * q).
    set (t := A * x1).
    assert (PA0 : 0 < A) by lra.
    assert (T1 : t * (1 - (1 # 9007199254740992)) <= x2).
    { unfold t, x2. rewrite <- Qmult_assoc. apply Qmult_le_l; assumption. }
    assert (T2 : x2 <= t * (1 + (1 # 9007199254740992))).
    { unfold t, x2. rewrite <- Qmult_assoc. apply Qmult_le_l; assumption. }
    assert (Tlo : (1 # 4194304) <= t).
    { unfold t. apply Qle_trans with (1 * x1); [lra|].
      apply Qmult_le_compat_r; lra. }
    destruct (round64_error x2 ltac:(lra)) as [V1 V2].
    change (round64 x2) with v in V1, V2.
    unfold unit_roundoff in V1, V2.
    (* the exact product and its integer part *)
    pose proof (Z.div_mod (Z.of_N a * 1024) (Z.of_N b) ltac:(lia)) as DM.
    pose proof (Z.mod_pos_bound (Z.of_N a * 1024) (Z.of_N b) ltac:(lia)) as MB.
    fold k in DM.
    set (r := (Z.of_N a * 1024 mod Z.of_N b)%Z) in *.
    assert (TB : t * B == B * inject_Z k + inject_Z r).
    { unfold t. 
      setoid_replace (A * x1 * B) with (A * 1024) by (rewrite <- X1; ring).
      unfold A, B, dim. change 1024 with (inject_Z 1024).
      rewrite <- !inject_Z_mult, <- inject_Z_plus. rewrite <- DM. reflexivity. }
    assert (R0 : 0 <= inject_Z r).
    { change 0 with (inject_Z 0). rewrite <- Zle_Qle. lia. }
    assert (R1 : inject_Z r + 1 <= B).
    { unfold B, dim. change 1 with (inject_Z 1).
      rewrite <- inject_Z_plus, <- Zle_Qle. lia. }
    assert (K0 : 0 <= inject_Z k <= 1024).
    { change 0 with (inject_Z 0). change 1024 with (inject_Z 1024).
      rewrite <- !Zle_Qle. lia. }
    assert (TE : t == inject_Z k + inject_Z r / B).
    { apply Qmult_inj_r with B; [lra|]. rewrite TB. field. lra. }
    assert (Tk1 : inject_Z k <= t).
    { rewrite TE. assert (0 <= inject_Z r / B);  [|lra].
      apply Qle_shift_div_l; lra. }
    assert (Tk2 : t <= inject_Z k + 1 - (1 # 4294967296)).
    { rewrite TE. assert (inject_Z r / B <= 1 - (1 # 4294967296)); [|lra].
      apply Qle_shift_div_r; lra. }
    assert (Vlo : inject_Z k - 1 <= v) by lra.
    assert (Vhi : v < inject_Z k + 1) by lra.
    split; [lra|]. split; [|split; assumption].
    split.
    + rewrite <- (Qfloor_Z (k - 1)). apply Qfloor_resp_le.
      unfold Z.sub. rewrite inject_Z_plus, inject_Z_opp.
      change (inject_Z 1) with 1. lra.
    + assert (F : (Qfloor v < k + 1)%Z).
      { rewrite Zlt_Qlt. apply Qle_lt_trans with v; [apply Qfloor_le|].
        rewrite inject_Z_plus. change (inject_Z 1) with 1. exact Vhi. }
      lia.
Qed.

End Rounding.

(* ------------------------------------------------------------------ *)
(** ** fileToBase64 *)

Section Upload.

Import FileUtils.

Lemma small_enough_iff (w h : N) :
  small_enough (dim w) (dim h) = true <-> (w <= 1024 /\ h <= 1024)%N.
Proof.
  unfold small_enough. rewrite andb_true_iff, !Qle_bool_iff.
  change MAX_DIMENSION with (dim 1024). rewrite !dim_le. tauto.
Qed.

(** The early return of line 34. *)
Lemma fileToBase64_small (b : Browser) (f : File) (url : string) (w h : N) :
  readAsDataURL b f = ReadLoaded (Some url) -> JS.truthy url = true ->
  loadImage b url = ImageLoaded w h ->
  (w <= 1024 /\ h <= 1024)%N ->
  fileToBase64 b f =
    Resolved {| base64 := JS.index (JS.split comma url) 1;
                mimeType := ftype f |}.
Proof.
  intros Hr Hu Hl Hs. unfold fileToBase64. rewrite Hr, Hu. simpl.
  rewrite Hl. apply small_enough_iff in Hs. rewrite Hs. reflexivity.
Qed.

(** The canvas path, lines 40-69. *)
Lemma fileToBase64_large (b : Browser) (f : File) (url : string) (w h : N) :
  readAsDataURL b f = ReadLoaded (Some url) -> JS.truthy url = true ->
  loadImage b url = ImageLoaded w h ->
  (1024 < w \/ 1024 < h)%N ->
  getContext2d b = true ->
  fileToBase64 b f =
    Resolved
      {| base64 :=
           JS.index
             (JS.split comma
                (toDataURL b (render url (dim w) (dim h)) (outputMimeType f)
                   (quality (outputMimeType f)))) 1;
         mimeType := outputMimeType f |}.
Proof.
  intros Hr Hu Hl Hs Hc. unfold fileToBase64. rewrite Hr, Hu. simpl.
  rewrite Hl. destruct (small_enough (dim w) (dim h)) eqn:E.
  - apply small_enough_iff in E. lia.
  - rewrite Hc. reflexivity.
Qed.

Lemma outputMimeType_cases (f : File) :
  (ftype f = "image/png" /\ outputMimeType f = "image/png") \/
  (ftype f <> "image/png" /\ outputMimeType f = "image/jpeg").
Proof.
  unfold outputMimeType. destruct (ftype f =? "image/png") eqn:E.
  - left. apply String.eqb_eq in E. auto.
  - right. apply String.eqb_neq in E. auto.
Qed.

(** C2: a 1122 by 561 image, twice as wide as it is tall, goes through
    the canvas path.  The same factor 1024/1122 that takes its width to
    1024 takes its height to exactly 512, which is also what the
    editor's [onload] computes for this image; [fileToBase64] computes
    the quotient and then the product in binary64, gets a number just
    below 512, and resolves with the encoding of a canvas 1024 by 511.
    In the same way a square of 1122 by 1122 gets a canvas 1023 by
    1024. *)
Theorem fileToBase64_drops_a_pixel :
  forall (b : Browser) (f : File) (url : string),
    readAsDataURL b f = ReadLoaded (Some url) -> JS.truthy url = true ->
    loadImage b url = ImageLoaded 1122 561 ->
    getContext2d b = true ->
    let canvas := render url (dim 1122) (dim 561) in
    fileToBase64 b f =
      Resolved
        {| base64 :=
             JS.index
               (JS.split comma
                  (toDataURL b canvas (outputMimeType f)
                     (quality (outputMimeType f)))) 1;
           mimeType := outputMimeType f |} /\
    cwidth canvas = 1024%Z /\ cheight canvas = 511%Z /\
    dim 561 * (1024 / dim 1122) == 512 /\
    (exists w' h',
       ImageEditor.fitted (dim 1122) (dim 561) = (w', h') /\
       JS.ToUint32 w' = 1024%Z /\ JS.ToUint32 h' = 512%Z) /\
    cwidth (render url (dim 1122) (dim 1122)) = 1023%Z /\
    cheight (render url (dim 1122) (dim 1122)) = 1024%Z.
Proof.
  intros b f url Hr Hu Hl Hc canvas.
  split.
  { apply (fileToBase64_large b f url 1122 561 Hr Hu Hl); [lia | exact Hc]. }
  split; [reflexivity|]. split; [reflexivity|].
  split; [reflexivity|].
  split.
  { eexists. eexists. split; [reflexivity|]. split; reflexivity. }
  split; reflexivity.
Qed.

(** A 1122 by 561 PNG in a browser that reads and decodes it. *)
Lemma fileToBase64_drops_a_pixel_witness :
  let canvas := render (dataURL_of Demo.png) (dim 1122) (dim 561) in
  fileToBase64 (Demo.browserOf 1122 561) Demo.png =
    Resolved
      {| base64 :=
           JS.index
             (JS.split comma
                (toDataURL (Demo.browserOf 1122 561) canvas
                   (outputMimeType Demo.png)
                   (quality (outputMimeType Demo.png)))) 1;
         mimeType := outputMimeType Demo.png |} /\
  cwidth canvas = 1024%Z /\ cheight canvas = 511%Z /\
  dim 561 * (1024 / dim 1122) == 512 /\
  (exists w' h',
     ImageEditor.fitted (dim 1122) (dim 561) = (w', h') /\
     JS.ToUint32 w' = 1024%Z /\ JS.ToUint32 h' = 512%Z) /\
  cwidth (render (dataURL_of Demo.png) (dim 1122) (dim 1122)) = 1023%Z /\
  cheight (render (dataURL_of Demo.png) (dim 1122) (dim 1122)) = 1024%Z.
Proof.
  apply (fileToBase64_drops_a_pixel (Demo.browserOf 1122 561) Demo.png
           (dataURL_of Demo.png));
    reflexivity.
Defined.

(** C9: for a file read as a data URL (a header without comma, a comma,
    the base64 text of the bytes), an image of at most 1024 by 1024
    resolves with that base64 text and the file's own type; a larger one
    resolves with the canvas encoded as [image/png] exactly when the file
    is [image/png], and otherwise (WEBP included, so that the type sent
    differs from the file's) as [image/jpeg] at quality 9/10. *)
Theorem fileToBase64_payload_and_type :
  forall (b : Browser) (f : File) (header : string) (w h : N),
    readAsDataURL b f =
      ReadLoaded (Some (header ++ String comma (fbytes64 f))) ->
    JS.occurs comma header = false ->
    JS.occurs comma (fbytes64 f) = false ->
    loadImage b (header ++ String comma (fbytes64 f)) = ImageLoaded w h ->
    ((w <= 1024 /\ h <= 1024)%N ->
     fileToBase64 b f =
       Resolved {| base64 := Some (fbytes64 f); mimeType := ftype f |}) /\
    ((1024 < w \/ 1024 < h)%N -> getContext2d b = true ->
     exists out : FileConversionResult,
       fileToBase64 b f = Resolved out /\
       base64 out =
         JS.index
           (JS.split comma
              (toDataURL b
                 (render (header ++ String comma (fbytes64 f)) (dim w) (dim h))
                 (mimeType out) (quality (mimeType out)))) 1 /\
       (mimeType out = "image/png" <-> ftype f = "image/png") /\
       (ftype f <> "image/png" ->
        mimeType out = "image/jpeg" /\ quality (mimeType out) = 9 # 10) /\
       (ftype f = "image/webp" -> mimeType out <> ftype f)).
Proof.
  intros b f header w h Hr Hh Hp Hl.
  pose proof (truthy_data_url header (fbytes64 f)) as Ht.
  split.
  - intros Hs.
    rewrite (fileToBase64_small b f _ w h Hr Ht Hl Hs).
    rewrite (index_data_url _ _ Hh Hp). reflexivity.
  - intros Hbig Hc.
    exists {| base64 :=
                JS.index
                  (JS.split comma
                     (toDataURL b
                        (render (header ++ String comma (fbytes64 f))
                           (dim w) (dim h))
                        (outputMimeType f) (quality (outputMimeType f)))) 1;
              mimeType := outputMimeType f |}.
    split; [exact (fileToBase64_large b f _ w h Hr Ht Hl Hbig Hc)|].
    split; [reflexivity|]. simpl.
    destruct (outputMimeType_cases f) as [[E1 E2] | [E1 E2]]; rewrite E2.
    + split; [tauto|]. split; [congruence|].
      intro W. rewrite W in E1. discriminate.
    + split; [split; [discriminate|congruence]|].
      split; [intros _; split; reflexivity|].
      intro W. rewrite W. discriminate.
Qed.

(** A small PNG keeps its bytes and type; a large WEBP leaves as JPEG. *)
Lemma fileToBase64_payload_and_type_witness :
  fileToBase64 (Demo.browserOf 800 600) Demo.png =
    Resolved {| base64 := Some (fbytes64 Demo.png);
                mimeType := ftype Demo.png |} /\
  exists out : FileConversionResult,
    fileToBase64 (Demo.browserOf 3000 1500) Demo.webp = Resolved out /\
    base64 out =
      JS.index
        (JS.split comma
           (toDataURL (Demo.browserOf 3000 1500)
              (render ("data:image/webp;base64"
                       ++ String comma (fbytes64 Demo.webp))
                 (dim 3000) (dim 1500))
              (mimeType out) (quality (mimeType out)))) 1 /\
    (mimeType out = "image/png" <-> ftype Demo.webp = "image/png") /\
    (ftype Demo.webp <> "image/png" ->
     mimeType out = "image/jpeg" /\ quality (mimeType out) = 9 # 10) /\
    (ftype Demo.webp = "image/webp" -> mimeType out <> ftype Demo.webp).
Proof.
  split.
  - apply (proj1 (fileToBase64_payload_and_type (Demo.browserOf 800 600)
                    Demo.png "data:image/png;base64" 800 600
                    eq_refl eq_refl eq_refl eq_refl)).
    lia.
  - apply (proj2 (fileToBase64_payload_and_type (Demo.browserOf 3000 1500)
                    Demo.webp "data:image/webp;base64" 3000 1500
                    eq_refl eq_refl eq_refl eq_refl)).
    + lia.
    + reflexivity.
Defined.

End Upload.

(* ------------------------------------------------------------------ *)
(** ** The mask editor: canvas sizes *)

Section EditorSizes.

Import FileUtils ImageEditor.

Lemma fitted_small (w h : N) :
  (w <= 1024 /\ h <= 1024)%N -> fitted (dim w) (dim h) = (dim w, dim h).
Proof.
  intros [Hw Hh]. unfold fitted.
  assert (G1 : JS.Qgtb (dim w) MAX_DIM = false).
  { apply Qgtb_false. change MAX_DIM with (dim 1024). apply dim_le. lia. }
  assert (G2 : JS.Qgtb (dim h) MAX_DIM = false).
  { apply Qgtb_false. change MAX_DIM with (dim 1024). apply dim_le. lia. }
  rewrite G1, G2. reflexivity.
Qed.

Lemma fitted_guard (w h : N) :
  (1024 < w \/ 1024 < h)%N ->
  JS.Qgtb (dim w) MAX_DIM || JS.Qgtb (dim h) MAX_DIM = true.
Proof.
  intros H. apply orb_true_iff. change MAX_DIM with (dim 1024).
  destruct H; [left | right]; apply Qgtb_true, dim_lt; assumption.
Qed.

Lemma fitted_wide (w h : N) :
  (1024 < w \/ 1024 < h)%N -> (h < w)%N ->
  fitted (dim w) (dim h) = (1024, (dim h / dim w) * 1024).
Proof.
  intros Hbig Hlt. unfold fitted. rewrite (fitted_guard w h Hbig).
  assert (G : JS.Qgtb (dim w) (dim h) = true)
    by (apply Qgtb_true, dim_lt; lia).
  rewrite G. reflexivity.
Qed.

Lemma fitted_tall (w h : N) :
  (1024 < w \/ 1024 < h)%N -> (w <= h)%N ->
  fitted (dim w) (dim h) = ((dim w / dim h) * 1024, 1024).
Proof.
  intros Hbig Hle. unfold fitted. rewrite (fitted_guard w h Hbig).
  assert (G : JS.Qgtb (dim w) (dim h) = false)
    by (apply Qgtb_false, dim_le; lia).
  rewrite G. reflexivity.
Qed.

(** The numbers [onload] assigns to the canvases lie between 0 and 1024. *)
Lemma fitted_range (w h : N) (w' h' : Q) :
  fitted (dim w) (dim h) = (w', h') ->
  (0 <= w' <= 1024) /\ (0 <= h' <= 1024).
Proof.
  intro E.
  pose proof (dim_nonneg w) as Nw. pose proof (dim_nonneg h) as Nh.
  destruct (N.le_gt_cases w 1024) as [Hw | Hw];
    [destruct (N.le_gt_cases h 1024) as [Hh | Hh]|].
  - rewrite fitted_small in E by lia. inversion E; subst.
    assert (dim w <= dim 1024) by (apply dim_le; lia).
    assert (dim h <= dim 1024) by (apply dim_le; lia).
    change (dim 1024) with 1024 in *. auto.
  - destruct (N.lt_ge_cases h w) as [Hlt | Hge]; [lia|].
    rewrite fitted_tall in E by lia. inversion E; subst.
    assert (P : 0 < dim h) by (apply dim_pos; lia).
    assert (L : dim w <= dim h) by (apply dim_le; lia).
    rewrite (ratio_eq _ _ P).
    pose proof (scale_le _ _ Nw P L). pose proof (scale_nonneg _ _ Nw P).
    lra.
  - destruct (N.lt_ge_cases h w) as [Hlt | Hge].
    + rewrite fitted_wide in E by lia. inversion E; subst.
      assert (P : 0 < dim w) by (apply dim_pos; lia).
      assert (L : dim h <= dim w) by (apply dim_le; lia).
      rewrite (ratio_eq _ _ P).
      pose proof (scale_le _ _ Nh P L). pose proof (scale_nonneg _ _ Nh P).
      lra.
    + rewrite fitted_tall in E by lia. inversion E; subst.
      assert (P : 0 < dim h) by (apply dim_pos; lia).
      assert (L : dim w <= dim h) by (apply dim_le; lia).
      rewrite (ratio_eq _ _ P).
      pose proof (scale_le _ _ Nw P L). pose proof (scale_nonneg _ _ Nw P).
      lra.
Qed.

Lemma onload_canvases (picture : Z -> Z -> Colour) (w h : N) (ed : Editor)
  (w' h' : Q) :
  fitted (dim w) (dim h) = (w', h') ->
  width (canvas (onload picture w h ed)) = Qfloor w' /\
  height (canvas (onload picture w h ed)) = Qfloor h' /\
  width (maskCanvas (onload picture w h ed)) = Qfloor w' /\
  height (maskCanvas (onload picture w h ed)) = Qfloor h'.
Proof.
  intro E. destruct (fitted_range w h w' h' E) as [[? ?] [? ?]].
  unfold onload. rewrite E. simpl.
  rewrite !ToUint32_small by assumption. auto.
Qed.

(** C3: after [onload] the mask canvas has the width and height of the
    visible canvas. An image of at most 1024 by 1024 keeps its
    dimensions. Otherwise the larger canvas dimension is 1024 and the other
    is the integer part of the other image dimension scaled by the same
    ratio: the numbers [w'] and [h'] assigned to the canvas satisfy
    [w' * h == h' * w]. *)
Theorem onload_sizes_canvases :
  forall (picture : Z -> Z -> Colour) (w h : N) (ed : Editor),
    let shown := canvas (onload picture w h ed) in
    let mask := maskCanvas (onload picture w h ed) in
    width mask = width shown /\ height mask = height shown /\
    ((w <= 1024 /\ h <= 1024)%N ->
     width shown = Z.of_N w /\ height shown = Z.of_N h) /\
    ((1024 < w \/ 1024 < h)%N ->
     Z.max (width shown) (height shown) = 1024%Z /\
     ((h < w)%N ->
      width shown = 1024%Z /\
      height shown = (Z.of_N h * 1024 / Z.of_N w)%Z) /\
     ((w <= h)%N ->
      height shown = 1024%Z /\
      width shown = (Z.of_N w * 1024 / Z.of_N h)%Z) /\
     exists w' h' : Q,
       fitted (dim w) (dim h) = (w', h') /\
       w' * dim h == h' * dim w /\
       width shown = Qfloor w' /\ height shown = Qfloor h').
Proof.
  intros picture w h ed shown mask. subst shown mask.
  destruct (fitted (dim w) (dim h)) as [w' h'] eqn:E.
  destruct (onload_canvases picture w h ed w' h' E) as (C1 & C2 & M1 & M2).
  destruct (fitted_range w h w' h' E) as [[Rw0 Rw1] [Rh0 Rh1]].
  rewrite C1, C2, M1, M2.
  split; [reflexivity|]. split; [reflexivity|]. split.
  - intro Hs. rewrite (fitted_small w h Hs) in E. inversion E; subst.
    rewrite !floor_dim. auto.
  - intro Hbig.
    assert (F1 : (Qfloor w' <= 1024)%Z).
    { change 1024%Z with (Qfloor 1024). apply Qfloor_resp_le. assumption. }
    assert (F2 : (Qfloor h' <= 1024)%Z).
    { change 1024%Z with (Qfloor 1024). apply Qfloor_resp_le. assumption. }
    destruct (N.lt_ge_cases h w) as [Hlt | Hge].
    + rewrite (fitted_wide w h Hbig Hlt) in E. inversion E; subst.
      assert (P : 0 < dim w) by (apply dim_pos; lia).
      rewrite floor_ratio by lia. change (Qfloor 1024) with 1024%Z in *.
      rewrite floor_ratio in F2 by lia.
      split; [lia|]. split; [auto|]. split; [intro; lia|].
      exists 1024, (dim h / dim w * 1024). repeat split;
        try (rewrite floor_ratio by lia; reflexivity).
      field. lra.
    + rewrite (fitted_tall w h Hbig Hge) in E. inversion E; subst.
      assert (P : 0 < dim h) by (apply dim_pos; lia).
      rewrite floor_ratio by lia. change (Qfloor 1024) with 1024%Z in *.
      rewrite floor_ratio in F1 by lia.
      split; [lia|]. split; [intro; lia|]. split; [auto|].
      exists (dim w / dim h * 1024), 1024. repeat split;
        try (rewrite floor_ratio by lia; reflexivity).
      field. lra.
Qed.

(** An 800 by 600 picture keeps its size; a 2048 by 1000 one is shown at
    1024 by 500. *)
Lemma onload_sizes_canvases_witness :
  (width (canvas (onload Demo.picture 800 600 mounted)) = 800%Z /\
   height (canvas (onload Demo.picture 800 600 mounted)) = 600%Z) /\
  (width (canvas (onload Demo.picture 2048 1000 mounted)) = 1024%Z /\
   height (canvas (onload Demo.picture 2048 1000 mounted))
     = (1000 * 1024 / 2048)%Z).
Proof.
  split.
  - apply (proj1 (proj2 (proj2
             (onload_sizes_canvases Demo.picture 800 600 mounted)))).
    lia.
  - apply (proj2 (proj2 (proj2
             (onload_sizes_canvases Demo.picture 2048 1000 mounted))));
      lia.
Defined.

End EditorSizes.

(* ------------------------------------------------------------------ *)
(** ** The mask editor: what the mask is made of *)

Section EditorMask.

Import FileUtils GeminiService ImageEditor Spec.


Lemma divRound_mul (k d : Z) : (0 < d)%Z -> divRound (k * d) d = k.
Proof.
  intro Hd. unfold divRound.
  replace (2 * (k * d) + d)%Z with (k * (2 * d) + d)%Z by ring.
  rewrite Z.div_add_l by lia. rewrite Z.div_small by lia. lia.
Qed.

Lemma divRound_range (n m d : Z) :
  (0 < d)%Z -> (0 <= n <= m * d)%Z -> (0 <= divRound n d <= m)%Z.
Proof.
  intros Hd [H0 H1]. unfold divRound. split.
  - apply Z.div_pos; lia.
  - apply Z.le_trans with (divRound (m * d) d).
    + unfold divRound. apply Z.div_le_mono; lia.
    + rewrite divRound_mul by lia. lia.
Qed.

Lemma clamp_range (c : Z) : (0 <= clamp c <= 255)%Z.
Proof. unfold clamp. lia. Qed.


(** Half-transparent black over an opaque colour halves its channels,
    to the nearest integer. *)
Lemma source_over_halfBlack :
  source_over halfBlack (rgba 10 20 30 255) = rgba 5 10 15 255.
Proof. reflexivity. Qed.



(** Black painted on an opaque grey, at any coverage, leaves an opaque
    grey that is no lighter. *)
Lemma paint_black_grey (coverage : Z) (p : Colour) :
  opaqueGrey p ->
  opaqueGrey (paint black coverage p) /\
  (red (paint black coverage p) <= red p)%Z.
Proof.
  intros (Ha & Hrg & Hgb & Hr). unfold paint.
  pose proof (clamp_range coverage) as Hc.
  destruct (clamp coverage =? 0)%Z eqn:E.
  - split; [unfold opaqueGrey; auto | lia].
  - apply Z.eqb_neq in E. cbn [alpha red green blue black].
    replace (255 * clamp coverage)%Z with (clamp coverage * 255)%Z by ring.
    rewrite divRound_mul by lia.
    unfold source_over. cbn [alpha red green blue]. rewrite Ha.
    replace (255 * (255 - clamp coverage))%Z
      with ((255 - clamp coverage) * 255)%Z by ring.
    rewrite divRound_mul by lia.
    replace (clamp coverage + (255 - clamp coverage))%Z with 255%Z by ring.
    change (255 =? 0)%Z with false. cbv iota.
    rewrite <- Hgb, <- Hrg. cbn [alpha red green blue].
    rewrite Z.mul_0_l, Z.add_0_l.
    assert (B : (0 <= divRound (red p * (255 - clamp coverage)) 255
                 <= red p)%Z).
    { apply divRound_range; [lia|]. split; nia. }
    unfold opaqueGrey. cbn [alpha red green blue]. repeat split; lia.
Qed.


Lemma opaqueGrey_black (p : Colour) :
  opaqueGrey p -> red p = 0%Z -> p = black.
Proof.
  destruct p as [r g b a]. unfold opaqueGrey. simpl.
  intros (-> & <- & <- & _) ->. reflexivity.
Qed.




Variable strokes : Z -> Point -> Point -> Z -> Z -> Z.

(** Every action composites black on the mask at the coverage of its
    stroke. *)
Lemma step_coverage (ed : Editor) (a : Action) (x y : Z) :
  pixel (maskCanvas (step strokes ed a)) x y
    = paint black (coverage strokes ed a x y) (pixel (maskCanvas ed) x y).
Proof.
  assert (P : forall c p, paint black (clamp c) p = paint black c p).
  { intros c p. unfold paint.
    replace (clamp (clamp c)) with (clamp c) by (unfold clamp; lia).
    reflexivity. }
  assert (D : forall e ed',
             isDrawing ed' = true ->
             pixel (maskCanvas (draw strokes e ed')) x y
             = paint black (coverage strokes ed' (MouseMove e) x y)
                 (pixel (maskCanvas ed') x y)).
  { intros e ed' Hd. unfold draw, coverage, strokeOf. rewrite Hd.
    cbn [negb]. cbv iota.
    destruct (getCoordinates ed' e) as [[b|]|]; cbn [maskCanvas];
      unfold drawOnCanvas;
      destruct (lastPosition ed') as [[a0|]|];
      try reflexivity; cbn [pixel]; rewrite P; reflexivity. }
  destruct a as [e | e | | | n]; try reflexivity.
  - cbn [step]. unfold startDrawing.
    rewrite D by reflexivity. unfold coverage, strokeOf.
    cbn [isDrawing lastPosition brushSize maskCanvas].
    change (getCoordinates
              (mkEditor (canvas ed) (maskCanvas ed) true
                 (getCoordinates ed e) (brushSize ed)) e)
      with (getCoordinates ed e).
    destruct (getCoordinates ed e) as [[b|]|]; reflexivity.
  - cbn [step]. destruct (isDrawing ed) eqn:Hd.
    + apply D. exact Hd.
    + unfold draw, coverage, strokeOf. rewrite Hd. reflexivity.
Qed.

Lemma step_grey (ed : Editor) (a : Action) (x y : Z) :
  opaqueGrey (pixel (maskCanvas ed) x y) ->
  opaqueGrey (pixel (maskCanvas (step strokes ed a)) x y) /\
  (red (pixel (maskCanvas (step strokes ed a)) x y)
   <= red (pixel (maskCanvas ed) x y))%Z.
Proof.
  intro G. rewrite step_coverage. apply paint_black_grey. exact G.
Qed.

Lemma step_size (ed : Editor) (a : Action) :
  width (maskCanvas (step strokes ed a)) = width (maskCanvas ed) /\
  height (maskCanvas (step strokes ed a)) = height (maskCanvas ed) /\
  width (canvas (step strokes ed a)) = width (canvas ed) /\
  height (canvas (step strokes ed a)) = height (canvas ed).
Proof.
  assert (D : forall e ed',
             width (maskCanvas (draw strokes e ed')) = width (maskCanvas ed') /\
             height (maskCanvas (draw strokes e ed'))
               = height (maskCanvas ed') /\
             width (canvas (draw strokes e ed')) = width (canvas ed') /\
             height (canvas (draw strokes e ed')) = height (canvas ed')).
  { intros e ed'. unfold draw. destruct (isDrawing ed'); [|auto].
    cbn [negb]. cbv iota.
    destruct (getCoordinates ed' e) as [coords|]; [|auto].
    cbn [maskCanvas canvas]. unfold drawOnCanvas.
    destruct (match lastPosition ed' with Some p => p | None => coords end);
      destruct coords; auto. }
  destruct a as [e | e | | | n]; auto.
  - exact (D e (mkEditor (canvas ed) (maskCanvas ed) true
                  (getCoordinates ed e) (brushSize ed))).
  - exact (D e ed).
Qed.

Lemma step_black (ed : Editor) (a : Action) (x y : Z) :
  pixel (maskCanvas ed) x y = black ->
  pixel (maskCanvas (step strokes ed a)) x y = black.
Proof.
  intro B.
  assert (G : opaqueGrey (pixel (maskCanvas ed) x y)).
  { rewrite B. unfold opaqueGrey, black. simpl. lia. }
  destruct (step_grey ed a x y G) as [(Ha & Hrg & Hgb & Hr) Hle].
  rewrite B in Hle. simpl in Hle.
  apply opaqueGrey_black; [unfold opaqueGrey; auto | lia].
Qed.








End EditorMask.



(* ------------------------------------------------------------------ *)
(** ** The calls to the model *)

Section Service.

Import GeminiService Spec.

Lemma firstInlineData_found (pre post : list Part) (part : Part)
  (d : string) :
  Forall (fun q => partData q = None) pre ->
  partData part = Some d ->
  firstInlineData (pre ++ part :: post)%list = Some d.
Proof.
  intros Hpre Hd. induction Hpre as [|q pre Hq _ IH]; simpl.
  - rewrite Hd. reflexivity.
  - rewrite Hq. exact IH.
Qed.

Lemma firstInlineData_none (ps : list Part) :
  (forall part, In part ps -> partData part = None) ->
  firstInlineData ps = None.
Proof.
  induction ps as [|p ps IH]; simpl; intro H; [reflexivity|].
  rewrite (H p (or_introl eq_refl)). apply IH.
  intros q Hq. apply H. now right.
Qed.

(** The parts the loop visits are parts of the response. *)
Lemma firstCandidateParts_in (r : GenerateContentResponse) (part : Part) :
  In part (firstCandidateParts r) ->
  exists cs c ct ps,
    candidates r = Some cs /\ In c cs /\ content c = Some ct /\
    parts ct = Some ps /\ In part ps.
Proof.
  unfold firstCandidateParts.
  destruct (candidates r) as [cs|]; [|contradiction].
  destruct cs as [|c cs']; simpl; [contradiction|].
  destruct (content c) as [ct|] eqn:Ec; [|contradiction].
  destruct (parts ct) as [ps|] eqn:Ep; [|contradiction].
  intro Hin. exists (c :: cs'), c, ct, ps. simpl. auto.
Qed.

Lemma settle_found (prefix unknown missing : string)
  (r : GenerateContentResponse) (pre post : list Part) (part : Part)
  (d : string) :
  firstCandidateParts r = (pre ++ part :: post)%list ->
  Forall (fun q => partData q = None) pre ->
  partData part = Some d ->
  settle prefix unknown missing (Returns r) = Resolved d.
Proof.
  intros E Hpre Hd. simpl.
  rewrite E, (firstInlineData_found _ _ _ _ Hpre Hd). reflexivity.
Qed.

Lemma settle_missing (prefix unknown missing : string)
  (r : GenerateContentResponse) :
  carriesNoImage r ->
  settle prefix unknown missing (Returns r) = Rejected (prefix ++ missing).
Proof.
  intro H. simpl. rewrite firstInlineData_none; [reflexivity|].
  intros part Hin.
  destruct (firstCandidateParts_in r part Hin)
    as (cs & c & ct & ps & H1 & H2 & H3 & H4 & H5).
  exact (H cs c ct ps part H1 H2 H3 H4 H5).
Qed.

(** C4: when the parts of the first candidate are [pre ++ part :: post],
    no part of [pre] has data and [part] has data [d], both functions
    resolve with [d]; when no part of any candidate has data, both
    reject. *)
Theorem first_image_part_or_rejection :
  forall (ai : Api),
    (forall p r pre part post d,
        ai (swapRequest p) = Returns r ->
        firstCandidateParts r = (pre ++ part :: post)%list ->
        Forall (fun q => partData q = None) pre ->
        partData part = Some d ->
        fst (swapCharactersInImage ai p) = Resolved d) /\
    (forall p r,
        ai (swapRequest p) = Returns r -> carriesNoImage r ->
        exists m, fst (swapCharactersInImage ai p) = Rejected m) /\
    (forall p r pre part post d,
        ai (inpaintRequest p) = Returns r ->
        firstCandidateParts r = (pre ++ part :: post)%list ->
        Forall (fun q => partData q = None) pre ->
        partData part = Some d ->
        fst (inpaintImage ai p) = Resolved d) /\
    (forall p r,
        ai (inpaintRequest p) = Returns r -> carriesNoImage r ->
        exists m, fst (inpaintImage ai p) = Rejected m).
Proof.
  intro ai. repeat split.
  - intros p r pre part post d Ha E Hpre Hd. simpl. rewrite Ha.
    exact (settle_found _ _ _ r pre post part d E Hpre Hd).
  - intros p r Ha Hn. simpl. rewrite Ha.
    eexists. exact (settle_missing _ _ _ r Hn).
  - intros p r pre part post d Ha E Hpre Hd. simpl. rewrite Ha.
    exact (settle_found _ _ _ r pre post part d E Hpre Hd).
  - intros p r Ha Hn. simpl. rewrite Ha.
    eexists. exact (settle_missing _ _ _ r Hn).
Qed.

Lemma textResponse_carriesNoImage : carriesNoImage Demo.textResponse.
Proof.
  intros cs c ct ps part H1 H2 H3 H4 H5.
  injection H1 as <-. destruct H2 as [<-|[]].
  injection H3 as <-. injection H4 as <-.
  destruct H5 as [<-|[]]. reflexivity.
Qed.

(** The first image of [Demo.imageResponse] comes after a text part and a
    part with empty data; [Demo.textResponse] has no image. *)
Lemma first_image_part_or_rejection_witness :
  fst (swapCharactersInImage Demo.imageAi Demo.nightParams)
    = Resolved "SU1HMQ==" /\
  (exists m,
      fst (swapCharactersInImage Demo.textAi Demo.nightParams) = Rejected m) /\
  fst (inpaintImage Demo.imageAi Demo.maskParams) = Resolved "SU1HMQ==" /\
  (exists m, fst (inpaintImage Demo.textAi Demo.maskParams) = Rejected m).
Proof.
  split; [|split; [|split]].
  - apply (proj1 (first_image_part_or_rejection Demo.imageAi)
             Demo.nightParams Demo.imageResponse
             [text_part "Here is your image.";
              inline_part (Some "") "image/png"]
             (inline_part (Some "SU1HMQ==") "image/png")
             [inline_part (Some "SU1HMg==") "image/png"]).
    + reflexivity.
    + reflexivity.
    + repeat constructor.
    + reflexivity.
  - apply (proj1 (proj2 (first_image_part_or_rejection Demo.textAi))
             Demo.nightParams Demo.textResponse).
    + reflexivity.
    + exact textResponse_carriesNoImage.
  - apply (proj1 (proj2 (proj2
             (first_image_part_or_rejection Demo.imageAi)))
             Demo.maskParams Demo.imageResponse
             [text_part "Here is your image.";
              inline_part (Some "") "image/png"]
             (inline_part (Some "SU1HMQ==") "image/png")
             [inline_part (Some "SU1HMg==") "image/png"]).
    + reflexivity.
    + reflexivity.
    + repeat constructor.
    + reflexivity.
  - apply (proj2 (proj2 (proj2
             (first_image_part_or_rejection Demo.textAi)))
             Demo.maskParams Demo.textResponse).
    + reflexivity.
    + exact textResponse_carriesNoImage.
Defined.

(** C7: the prompt is the template with its nine slots. The time slot
    holds the time-of-day instruction exactly when [timeOfDay] is not
    ['As in Scene'], the atmosphere and exclusions slots hold theirs
    exactly when their strings are not empty, the watermark slot exactly
    when [removeWatermark] is true, and a slot is empty otherwise; the
    style instruction ends with the extra sentence exactly when the
    lowercased [artStyle] is ['photorealistic']. An instruction that is
    in its slot occurs in the prompt. *)
Theorem fusion_prompt_slots :
  forall p : SwapParams,
    fusionPrompt p =
      fusionTemplate
        (watermarkInstruction p) (styleInstruction p) (timeInstruction p)
        (atmosphereInstruction p) (aspectRatioInstruction p)
        (sceneComposition p) (characterScale p) (actionOrDefault p)
        (negativeInstruction p) /\
    (timeInstruction p = timeText (timeOfDay p) <->
     timeOfDay p <> "As in Scene") /\
    (timeOfDay p = "As in Scene" -> timeInstruction p = "") /\
    (timeOfDay p <> "As in Scene" ->
     includes (timeText (timeOfDay p)) (fusionPrompt p)) /\
    (atmosphereInstruction p = atmosphereText (atmosphere p) <->
     atmosphere p <> "") /\
    (atmosphere p = "" -> atmosphereInstruction p = "") /\
    (atmosphere p <> "" ->
     includes (atmosphereText (atmosphere p)) (fusionPrompt p)) /\
    (negativeInstruction p = negativeText (negativePrompt p) <->
     negativePrompt p <> "") /\
    (negativePrompt p = "" -> negativeInstruction p = "") /\
    (negativePrompt p <> "" ->
     includes (negativeText (negativePrompt p)) (fusionPrompt p)) /\
    (watermarkInstruction p = watermarkText <-> removeWatermark p = true) /\
    (removeWatermark p = false -> watermarkInstruction p = "") /\
    (removeWatermark p = true -> includes watermarkText (fusionPrompt p)) /\
    (styleInstruction p = styleBase (artStyle p) ++ styleExtra <->
     JS.toLowerCase (artStyle p) = "photorealistic") /\
    (JS.toLowerCase (artStyle p) <> "photorealistic" ->
     styleInstruction p = styleBase (artStyle p)) /\
    includes (styleInstruction p) (fusionPrompt p).
Proof.
  intro p. split; [reflexivity|].
  unfold timeInstruction, atmosphereInstruction, negativeInstruction,
    watermarkInstruction, styleInstruction.
  repeat match goal with |- _ /\ _ => split end.
  - destruct (timeOfDay p =? "As in Scene") eqn:E; simpl.
    + apply String.eqb_eq in E. split; [discriminate|congruence].
    + apply String.eqb_neq in E. tauto.
  - intros ->. reflexivity.
  - intro H. apply String.eqb_neq in H.
    unfold fusionPrompt, fusionTemplate, timeInstruction. rewrite H.
    simpl negb. cbv iota. find_slot.
  - destruct (JS.truthy (atmosphere p)) eqn:E.
    + apply truthy_true in E. tauto.
    + apply truthy_false in E. split; [discriminate|congruence].
  - intros ->. reflexivity.
  - intro H. apply truthy_true in H.
    unfold fusionPrompt, fusionTemplate, atmosphereInstruction. rewrite H.
    find_slot.
  - destruct (JS.truthy (negativePrompt p)) eqn:E.
    + apply truthy_true in E. tauto.
    + apply truthy_false in E. split; [discriminate|congruence].
  - intros ->. reflexivity.
  - intro H. apply truthy_true in H.
    unfold fusionPrompt, fusionTemplate, negativeInstruction. rewrite H.
    find_slot.
  - destruct (removeWatermark p); split; (reflexivity || discriminate).
  - intros ->. reflexivity.
  - intro H. unfold fusionPrompt, fusionTemplate, watermarkInstruction.
    rewrite H. find_slot.
  - destruct (JS.toLowerCase (artStyle p) =? "photorealistic") eqn:E.
    + apply String.eqb_eq in E. tauto.
    + apply String.eqb_neq in E. split; [|tauto].
      intro H. symmetry in H. apply append_nonempty_r in H; [contradiction|].
      discriminate.
  - intro H. apply String.eqb_neq in H. rewrite H. reflexivity.
  - unfold fusionPrompt, fusionTemplate. fold (styleInstruction p).
    find_slot.
Qed.

(** [Demo.nightParams] fills every slot; [Demo.plainParams] none. *)
Lemma fusion_prompt_slots_witness :
  (includes (timeText "Night") (fusionPrompt Demo.nightParams) /\
   includes (atmosphereText "dreamy") (fusionPrompt Demo.nightParams) /\
   includes (negativeText "text") (fusionPrompt Demo.nightParams) /\
   includes watermarkText (fusionPrompt Demo.nightParams) /\
   styleInstruction Demo.nightParams
     = styleBase "PhotoRealistic" ++ styleExtra) /\
  (timeInstruction Demo.plainParams = "" /\
   atmosphereInstruction Demo.plainParams = "" /\
   negativeInstruction Demo.plainParams = "" /\
   watermarkInstruction Demo.plainParams = "" /\
   styleInstruction Demo.plainParams = styleBase "Anime").
Proof.
  pose proof (fusion_prompt_slots Demo.nightParams)
    as (_ & _ & _ & T & _ & _ & A & _ & _ & X & _ & _ & W & S & _ & _).
  pose proof (fusion_prompt_slots Demo.plainParams)
    as (_ & _ & T0 & _ & _ & A0 & _ & _ & X0 & _ & _ & W0 & _ & _ & S0 & _).
  split; [split; [|split; [|split; [|split]]]
         | split; [|split; [|split; [|split]]]].
  - apply T. discriminate.
  - apply A. discriminate.
  - apply X. discriminate.
  - apply W. reflexivity.
  - apply (proj2 S). reflexivity.
  - apply T0. reflexivity.
  - apply A0. reflexivity.
  - apply X0. reflexivity.
  - apply W0. reflexivity.
  - apply S0. discriminate.
Defined.

End Service.

(* ------------------------------------------------------------------ *)
(** ** The loading messages touch no other cell *)

Section LoadingEffect.

Import App.

Lemma rendered_sceneImage (before after : State) :
  sceneImage (rendered before after) = sceneImage after.
Proof.
  unfold rendered. destruct (Bool.eqb _ _); [reflexivity|].
  destruct (isLoading after) eqn:E; simpl; try rewrite E; reflexivity.
Qed.

Lemma rendered_characterImage (before after : State) :
  characterImage (rendered before after) = characterImage after.
Proof.
  unfold rendered. destruct (Bool.eqb _ _); [reflexivity|].
  destruct (isLoading after) eqn:E; simpl; try rewrite E; reflexivity.
Qed.

Lemma rendered_sceneImageUrl (before after : State) :
  sceneImageUrl (rendered before after) = sceneImageUrl after.
Proof.
  unfold rendered. destruct (Bool.eqb _ _); [reflexivity|].
  destruct (isLoading after) eqn:E; simpl; try rewrite E; reflexivity.
Qed.

Lemma rendered_characterImageUrl (before after : State) :
  characterImageUrl (rendered before after) = characterImageUrl after.
Proof.
  unfold rendered. destruct (Bool.eqb _ _); [reflexivity|].
  destruct (isLoading after) eqn:E; simpl; try rewrite E; reflexivity.
Qed.

Lemma rendered_resultImage (before after : State) :
  resultImage (rendered before after) = resultImage after.
Proof.
  unfold rendered. destruct (Bool.eqb _ _); [reflexivity|].
  destruct (isLoading after) eqn:E; simpl; try rewrite E; reflexivity.
Qed.

Lemma rendered_resultImageBase64 (before after : State) :
  resultImageBase64 (rendered before after) = resultImageBase64 after.
Proof.
  unfold rendered. destruct (Bool.eqb _ _); [reflexivity|].
  destruct (isLoading after) eqn:E; simpl; try rewrite E; reflexivity.
Qed.

Lemma rendered_isLoading (before after : State) :
  isLoading (rendered before after) = isLoading after.
Proof.
  unfold rendered. destruct (Bool.eqb _ _); [reflexivity|].
  destruct (isLoading after) eqn:E; simpl; try rewrite E; reflexivity.
Qed.

Lemma rendered_isEditing (before after : State) :
  isEditing (rendered before after) = isEditing after.
Proof.
  unfold rendered. destruct (Bool.eqb _ _); [reflexivity|].
  destruct (isLoading after) eqn:E; simpl; try rewrite E; reflexivity.
Qed.

Lemma rendered_error (before after : State) :
  error (rendered before after) = error after.
Proof.
  unfold rendered. destruct (Bool.eqb _ _); [reflexivity|].
  destruct (isLoading after) eqn:E; simpl; try rewrite E; reflexivity.
Qed.

Lemma rendered_controls (before after : State) :
  controls (rendered before after) = controls after.
Proof.
  unfold rendered. destruct (Bool.eqb _ _); [reflexivity|].
  destruct (isLoading after) eqn:E; simpl; try rewrite E; reflexivity.
Qed.

Lemma intervalCallback_cells (s : State) :
  intervalCallback s
  = setLoadingMessage (loadingMessage (intervalCallback s))
      (setTicker (ticker (intervalCallback s)) s).
Proof.
  unfold intervalCallback. destruct s. simpl.
  destruct ticker0; reflexivity.
Qed.

Lemma runInterval_sceneImage (n : nat) (s : State) :
  sceneImage (runInterval n s) = sceneImage s.
Proof.
  unfold runInterval. induction n as [|n IH]; [reflexivity|].
  simpl. rewrite intervalCallback_cells. exact IH.
Qed.

Lemma runInterval_characterImage (n : nat) (s : State) :
  characterImage (runInterval n s) = characterImage s.
Proof.
  unfold runInterval. induction n as [|n IH]; [reflexivity|].
  simpl. rewrite intervalCallback_cells. exact IH.
Qed.

Lemma runInterval_sceneImageUrl (n : nat) (s : State) :
  sceneImageUrl (runInterval n s) = sceneImageUrl s.
Proof.
  unfold runInterval. induction n as [|n IH]; [reflexivity|].
  simpl. rewrite intervalCallback_cells. exact IH.
Qed.

Lemma runInterval_characterImageUrl (n : nat) (s : State) :
  characterImageUrl (runInterval n s) = characterImageUrl s.
Proof.
  unfold runInterval. induction n as [|n IH]; [reflexivity|].
  simpl. rewrite intervalCallback_cells. exact IH.
Qed.

Lemma runInterval_resultImage (n : nat) (s : State) :
  resultImage (runInterval n s) = resultImage s.
Proof.
  unfold runInterval. induction n as [|n IH]; [reflexivity|].
  simpl. rewrite intervalCallback_cells. exact IH.
Qed.

Lemma runInterval_resultImageBase64 (n : nat) (s : State) :
  resultImageBase64 (runInterval n s) = resultImageBase64 s.
Proof.
  unfold runInterval. induction n as [|n IH]; [reflexivity|].
  simpl. rewrite intervalCallback_cells. exact IH.
Qed.

Lemma runInterval_isLoading (n : nat) (s : State) :
  isLoading (runInterval n s) = isLoading s.
Proof.
  unfold runInterval. induction n as [|n IH]; [reflexivity|].
  simpl. rewrite intervalCallback_cells. exact IH.
Qed.

Lemma runInterval_isEditing (n : nat) (s : State) :
  isEditing (runInterval n s) = isEditing s.
Proof.
  unfold runInterval. induction n as [|n IH]; [reflexivity|].
  simpl. rewrite intervalCallback_cells. exact IH.
Qed.

Lemma runInterval_error (n : nat) (s : State) :
  error (runInterval n s) = error s.
Proof.
  unfold runInterval. induction n as [|n IH]; [reflexivity|].
  simpl. rewrite intervalCallback_cells. exact IH.
Qed.

Lemma runInterval_controls (n : nat) (s : State) :
  controls (runInterval n s) = controls s.
Proof.
  unfold runInterval. induction n as [|n IH]; [reflexivity|].
  simpl. rewrite intervalCallback_cells. exact IH.
Qed.

(** A render that finds [isLoading] set starts the interval at the
    first message; one that finds it cleared stops the interval. *)
Lemma rendered_started (before after : State) :
  isLoading before = false -> isLoading after = true ->
  ticker (rendered before after) = Some 0%nat /\
  loadingMessage (rendered before after) = messageOf 0.
Proof.
  intros Hb Ha. unfold rendered. rewrite Hb, Ha. simpl. auto.
Qed.

Lemma rendered_stopped (before after : State) :
  isLoading before = true -> isLoading after = false ->
  ticker (rendered before after) = None /\
  loadingMessage (rendered before after) = loadingMessage after.
Proof.
  intros Hb Ha. unfold rendered. rewrite Hb, Ha. simpl. auto.
Qed.

Lemma runInterval_ticks (n : nat) (s : State) :
  ticker s = Some 0%nat -> loadingMessage s = messageOf 0 ->
  ticker (runInterval n s) = Some (n mod 6)%nat /\
  loadingMessage (runInterval n s) = messageOf (n mod 6).
Proof.
  intros Ht Hm. induction n as [|n [IHt IHm]].
  - unfold runInterval. simpl. auto.
  - change (runInterval (S n) s) with (intervalCallback (runInterval n s)).
    generalize dependent (runInterval n s). intros t IHt IHm.
    unfold intervalCallback. rewrite IHt.
    change (length loadingMessages) with 6%nat.
    replace ((n mod 6 + 1) mod 6)%nat with (S n mod 6)%nat.
    + cbn [ticker loadingMessage setLoadingMessage setTicker]. auto.
    + rewrite Nat.Div0.add_mod_idemp_l.
      f_equal. lia.
Qed.

End LoadingEffect.

Create Rewrite HintDb cells.

#[global] Hint Rewrite
  rendered_sceneImage rendered_characterImage rendered_sceneImageUrl
  rendered_characterImageUrl rendered_resultImage rendered_resultImageBase64
  rendered_isLoading rendered_isEditing rendered_error
  rendered_controls runInterval_sceneImage runInterval_characterImage
  runInterval_sceneImageUrl runInterval_characterImageUrl runInterval_resultImage
  runInterval_resultImageBase64 runInterval_isLoading runInterval_isEditing
  runInterval_error runInterval_controls
  : cells.

(** Read a cell through the renders and the runs of the interval. *)
Ltac cells := repeat (progress (autorewrite with cells; simpl)).

(* ------------------------------------------------------------------ *)
(** ** The page *)

Section Page.

Import FileUtils GeminiService ImageEditor App Spec.



(** The request of a fusion is built from the two converted files. *)
Lemma handleGenerate_sent (w : World) (s : State)
  (req : GenerateContentParameters) :
  In req (snd (handleGenerate w s)) ->
  exists scene character sr cr,
    sceneImage s = Some scene /\ characterImage s = Some character /\
    fileToBase64 (browser w) scene = Resolved sr /\
    fileToBase64 (browser w) character = Resolved cr /\
    req = swapRequest (swapParams s sr cr).
Proof.
  unfold handleGenerate.
  destruct (sceneImage s) as [scene|];
    [|destruct (characterImage s); contradiction].
  destruct (characterImage s) as [character|]; [|contradiction].
  destruct (fileToBase64 (browser w) scene) as [sr|m1] eqn:Es;
    destruct (fileToBase64 (browser w) character) as [cr|m2] eqn:Ec;
    simpl; try contradiction.
  destruct (settle _ _ _ _); simpl; intros [<-|[]];
    exists scene, character, sr, cr; repeat split;
    (reflexivity || assumption).
Qed.

Lemma handleInpaint_sent (w : World) (image mask : option string)
  (s : State) :
  snd (handleInpaint w image mask s) =
    [ inpaintRequest
        {| imageBase64 := image; imageMimeType := "image/png";
           maskBase64 := mask; maskMimeType := "image/png" |} ].
Proof.
  unfold handleInpaint. simpl. destruct (settle _ _ _ _); reflexivity.
Qed.

(** C6: each call sends one request. Its parts are, in this order, the
    scene with its type, the character with its type and the fusion
    prompt, or the image, the mask and the inpainting prompt; its
    response modalities are IMAGE and TEXT. The requests the page sends
    have this shape. *)
Theorem requests_have_three_parts :
  (forall (ai : Api) (p : SwapParams),
      snd (swapCharactersInImage ai p) =
        [ {| rmodel := model;
             contents :=
               [ {| inlineData :=
                      Some {| data := sceneImageBase64 p;
                              mimeType := Some (sceneMimeType p) |};
                    text := None |};
                 {| inlineData :=
                      Some {| data := characterImageBase64 p;
                              mimeType := Some (characterMimeType p) |};
                    text := None |};
                 {| inlineData := None; text := Some (fusionPrompt p) |} ];
             responseModalities := [IMAGE; TEXT] |} ]) /\
  (forall (ai : Api) (p : InpaintParams),
      snd (inpaintImage ai p) =
        [ {| rmodel := model;
             contents :=
               [ {| inlineData :=
                      Some {| data := imageBase64 p;
                              mimeType := Some (imageMimeType p) |};
                    text := None |};
                 {| inlineData :=
                      Some {| data := maskBase64 p;
                              mimeType := Some (maskMimeType p) |};
                    text := None |};
                 {| inlineData := None; text := Some inpaintPrompt |} ];
             responseModalities := [IMAGE; TEXT] |} ]) /\
  (forall (w : World) (s : State) (req : GenerateContentParameters),
      In req (snd (handleGenerate w s)) ->
      exists scene character sr cr,
        sceneImage s = Some scene /\ characterImage s = Some character /\
        fileToBase64 (browser w) scene = Resolved sr /\
        fileToBase64 (browser w) character = Resolved cr /\
        contents req =
          [ inline_part (base64 sr) (FileUtils.mimeType sr);
            inline_part (base64 cr) (FileUtils.mimeType cr);
            text_part (fusionPrompt (swapParams s sr cr)) ] /\
        responseModalities req = [IMAGE; TEXT]) /\
  (forall (w : World) (image mask : option string) (s : State),
      snd (handleInpaint w image mask s) =
        [ {| rmodel := model;
             contents := [ inline_part image "image/png";
                           inline_part mask "image/png";
                           text_part inpaintPrompt ];
             responseModalities := [IMAGE; TEXT] |} ]).
Proof.
  split; [reflexivity|]. split; [reflexivity|]. split.
  - intros w s req Hin.
    destruct (handleGenerate_sent w s req Hin)
      as (scene & character & sr & cr & H1 & H2 & H3 & H4 & ->).
    exists scene, character, sr, cr. repeat split; assumption.
  - intros w image mask s. apply handleInpaint_sent.
Qed.

(** The request sent for [Demo.uploaded]. *)
Lemma requests_have_three_parts_witness :
  exists scene character sr cr,
    sceneImage Demo.uploaded = Some scene /\
    characterImage Demo.uploaded = Some character /\
    fileToBase64 (browser (Demo.world Demo.imageAi)) scene = Resolved sr /\
    fileToBase64 (browser (Demo.world Demo.imageAi)) character
      = Resolved cr /\
    contents
      (swapRequest
         (swapParams Demo.uploaded
            (mkConversion (Some "QUJD") "image/jpeg")
            (mkConversion (Some "QUJD") "image/png"))) =
      [ inline_part (base64 sr) (FileUtils.mimeType sr);
        inline_part (base64 cr) (FileUtils.mimeType cr);
        text_part (fusionPrompt (swapParams Demo.uploaded sr cr)) ] /\
    responseModalities
      (swapRequest
         (swapParams Demo.uploaded
            (mkConversion (Some "QUJD") "image/jpeg")
            (mkConversion (Some "QUJD") "image/png"))) = [IMAGE; TEXT].
Proof.
  apply (proj1 (proj2 (proj2 requests_have_three_parts))
           (Demo.world Demo.imageAi) Demo.uploaded).
  left. vm_compute. reflexivity.
Defined.

Lemma editorProps_some (s : State) (url b64 : string) :
  editorProps s = Some (url, b64) ->
  isEditing s = true /\
  resultImage s = Some url /\ url <> "" /\
  resultImageBase64 s = Some b64 /\ b64 <> "".
Proof.
  unfold editorProps.
  destruct (isEditing s); simpl; [|discriminate].
  destruct (resultImage s) as [u|]; simpl; [|discriminate].
  destruct (JS.truthy u) eqn:Eu; simpl; [|discriminate].
  destruct (resultImageBase64 s) as [d|]; simpl; [|discriminate].
  destruct (JS.truthy d) eqn:Ed; simpl; [|discriminate].
  intro H. injection H as -> ->.
  apply truthy_true in Eu, Ed. auto.
Qed.



(** C10: when the inpainting call rejects, [handleInpaint] leaves
    [resultImage] and [resultImageBase64] as they were and sets the error;
    when it resolves, both are replaced. A [handleGenerate] that ends
    with an error has cleared both. *)
Theorem failed_inpaint_keeps_result :
  forall (w : World) (image mask : option string) (s : State),
    let params :=
      {| imageBase64 := image; imageMimeType := "image/png";
         maskBase64 := mask; maskMimeType := "image/png" |} in
    let after := fst (handleInpaint w image mask s) in
    (forall m,
        fst (inpaintImage (ai w) params) = Rejected m ->
        resultImage after = resultImage s /\
        resultImageBase64 after = resultImageBase64 s /\
        error after = Some ("Editing failed: " ++ m) /\
        isLoading after = false) /\
    (forall result,
        fst (inpaintImage (ai w) params) = Resolved result ->
        resultImage after = Some (pngUrl result) /\
        resultImageBase64 after = Some result /\
        error after = None /\
        isLoading after = false) /\
    (forall scene character,
        sceneImage s = Some scene -> characterImage s = Some character ->
        error (fst (handleGenerate w s)) <> None ->
        resultImage (fst (handleGenerate w s)) = None /\
        resultImageBase64 (fst (handleGenerate w s)) = None).
Proof.
  intros w image mask s params after. subst after params.
  assert (G : forall scene character,
             sceneImage s = Some scene -> characterImage s = Some character ->
             error (fst (handleGenerate w s)) <> None ->
             resultImage (fst (handleGenerate w s)) = None /\
             resultImageBase64 (fst (handleGenerate w s)) = None).
  { intros scene character Hs Hc. unfold handleGenerate. rewrite Hs, Hc.
    destruct (promiseAll _ _ _) as [[sr cr]|m1]; cells; [|auto].
    destruct (settle _ _ _ _) as [r2|m2]; cells; [congruence|auto]. }
  unfold handleInpaint. simpl.
  destruct (settle _ _ _ (ai w _)) as [r|m] eqn:E; cells.
  - split; [intros m H; discriminate|].
    split; [intros result H; injection H as <-; auto|exact G].
  - split; [intros m' H; injection H as <-; auto|].
    split; [intros result H; discriminate|exact G].
Qed.

(** An inpainting answered without an image keeps the result of
    [Demo.editing]; one answered with an image replaces it. *)
Lemma failed_inpaint_keeps_result_witness :
  (resultImage
     (fst (handleInpaint (Demo.world Demo.textAi) (Some "SU1HMQ==")
             (Some "TUFTSw==") Demo.editing))
     = resultImage Demo.editing /\
   resultImageBase64
     (fst (handleInpaint (Demo.world Demo.textAi) (Some "SU1HMQ==")
             (Some "TUFTSw==") Demo.editing))
     = resultImageBase64 Demo.editing) /\
  resultImageBase64
    (fst (handleInpaint (Demo.world Demo.imageAi) (Some "SU1HMg==")
            (Some "TUFTSw==") Demo.editing))
    = Some "SU1HMQ==" /\
  resultImage (fst (handleGenerate (Demo.world Demo.textAi) Demo.editing))
    = None.
Proof.
  split; [|split].
  - pose proof (proj1 (failed_inpaint_keeps_result (Demo.world Demo.textAi)
                         (Some "SU1HMQ==") (Some "TUFTSw==") Demo.editing)
                  _ eq_refl) as (H1 & H2 & _).
    split; [exact H1 | exact H2].
  - pose proof (proj1 (proj2 (failed_inpaint_keeps_result
                                (Demo.world Demo.imageAi) (Some "SU1HMg==")
                                (Some "TUFTSw==") Demo.editing))
                  "SU1HMQ==" eq_refl) as (_ & H & _).
    exact H.
  - apply (proj2 (proj2 (failed_inpaint_keeps_result
                           (Demo.world Demo.textAi) None None Demo.editing))
             Demo.webp Demo.png eq_refl eq_refl).
    vm_compute. discriminate.
Defined.

End Page.

(* ------------------------------------------------------------------ *)
(** * Further properties *)

(** ** fileToBase64: rejections and the path taken *)

Section UploadEdges.

Import FileUtils.

Lemma not_small_enough (w h : N) :
  small_enough (dim w) (dim h) = false <-> (1024 < w \/ 1024 < h)%N.
Proof.
  split; intro H.
  - destruct (N.le_gt_cases w 1024), (N.le_gt_cases h 1024); auto.
    assert (E : small_enough (dim w) (dim h) = true)
      by (apply small_enough_iff; auto).
    congruence.
  - destruct (small_enough (dim w) (dim h)) eqn:E; [|reflexivity].
    apply small_enough_iff in E. lia.
Qed.

(** X1: [fileToBase64] rejects in exactly four situations, each with its
    own message: the reader fails; the reader yields [null] or the empty
    string; the image does not load; the image is wider or taller than
    1024 and the canvas gives no 2D context. *)
Theorem fileToBase64_rejections :
  forall (b : Browser) (f : File) (m : string),
    fileToBase64 b f = Rejected m <->
    (exists ev,
        readAsDataURL b f = ReadFailed ev /\
        m = "File reader error: " ++ ev) \/
    ((readAsDataURL b f = ReadLoaded None \/
      readAsDataURL b f = ReadLoaded (Some "")) /\
     m = "Could not read file data.") \/
    (exists url ev,
        readAsDataURL b f = ReadLoaded (Some url) /\ url <> "" /\
        loadImage b url = ImageFailed ev /\
        m = "Image failed to load for processing: " ++ ev) \/
    (exists url w h,
        readAsDataURL b f = ReadLoaded (Some url) /\ url <> "" /\
        loadImage b url = ImageLoaded w h /\
        (1024 < w \/ 1024 < h)%N /\ getContext2d b = false /\
        m = "Could not get canvas 2D context.").
Proof.
  intros b f m. unfold fileToBase64.
  destruct (readAsDataURL b f) as [[url|]|ev] eqn:Er.
  - destruct (JS.truthy url) eqn:Et; simpl.
    + apply truthy_true in Et.
      destruct (loadImage b url) as [w h|ev] eqn:El.
      * destruct (small_enough (dim w) (dim h)) eqn:Es.
        { split; [discriminate|].
          apply small_enough_iff in Es.
          intros [(ev & H & _) | [[[H|H] _] | [(u & ev & H & _ & H2 & _)
                   | (u & w' & h' & H & _ & H2 & Hbig & _)]]];
            try discriminate.
          - injection H as ->. contradiction.
          - injection H as <-. congruence.
          - injection H as <-. rewrite El in H2. injection H2 as <- <-. lia. }
        apply not_small_enough in Es.
        destruct (getContext2d b) eqn:Ec; simpl.
        { split; [discriminate|].
          intros [(ev & H & _) | [[[H|H] _] | [(u & ev & H & _ & H2 & _)
                   | (u & w' & h' & H & _ & _ & _ & H3 & _)]]];
            try discriminate.
          - injection H as ->. contradiction.
          - injection H as <-. congruence. }
        split.
        { intro H. injection H as <-. right. right. right.
          exists url, w, h. auto 10. }
        intros [(ev & H & _) | [[[H|H] _] | [(u & ev & H & _ & H2 & _)
                 | (u & w' & h' & _ & _ & _ & _ & _ & ->)]]];
          try discriminate; try reflexivity.
        { injection H as ->. contradiction. }
        { injection H as <-. congruence. }
      * split.
        { intro H. injection H as <-. right. right. left.
          exists url, ev. auto. }
        intros [(ev' & H & _) | [[[H|H] _] | [(u & ev' & H & _ & H2 & ->)
                 | (u & w' & h' & H & _ & H2 & _)]]];
          try discriminate.
        { injection H as ->. contradiction. }
        { injection H as <-. rewrite El in H2. injection H2 as <-.
          reflexivity. }
        { injection H as <-. congruence. }
    + apply truthy_false in Et. subst url. split.
      * intro H. injection H as <-. right. left. auto.
      * intros [(ev & H & _) | [[_ ->] | [(u & ev & H & Hu & _)
                 | (u & w' & h' & H & Hu & _)]]];
          try discriminate; try reflexivity.
        { injection H as <-. contradiction. }
        { injection H as <-. contradiction. }
  - split.
    + intro H. injection H as <-. right. left. auto.
    + intros [(ev & H & _) | [[_ ->] | [(u & ev & H & _)
               | (u & w' & h' & H & _)]]];
        try discriminate; reflexivity.
  - split.
    + intro H. injection H as <-. left. exists ev. auto.
    + intros [(ev' & H & ->) | [[[H|H] _] | [(u & ev' & H & _)
               | (u & w' & h' & H & _)]]];
        try discriminate.
      injection H as <-. reflexivity.
Qed.

(** X2: for an image of at most 1024 by 1024, the outcome does not depend
    on the canvas: a browser without 2D context and with any encoder
    gives the same outcome. *)
Theorem fileToBase64_small_ignores_canvas :
  forall (b : Browser) (f : File) (url : string) (w h : N)
         (context : bool) (encoder : Canvas -> string -> Q -> string),
    readAsDataURL b f = ReadLoaded (Some url) ->
    loadImage b url = ImageLoaded w h ->
    (w <= 1024 /\ h <= 1024)%N ->
    fileToBase64
      (mkBrowser (readAsDataURL b) (loadImage b) context encoder) f
    = fileToBase64 b f.
Proof.
  intros b f url w h context encoder Hr Hl Hs.
  unfold fileToBase64. simpl. rewrite Hr.
  destruct (JS.truthy url); simpl; [|reflexivity].
  rewrite Hl. apply small_enough_iff in Hs. rewrite Hs. reflexivity.
Qed.

Lemma fileToBase64_small_ignores_canvas_witness :
  fileToBase64
    (mkBrowser (readAsDataURL (Demo.browserOf 1024 1024))
       (loadImage (Demo.browserOf 1024 1024)) false (fun _ _ _ => ""))
    Demo.png
  = fileToBase64 (Demo.browserOf 1024 1024) Demo.png.
Proof.
  apply (fileToBase64_small_ignores_canvas (Demo.browserOf 1024 1024)
           Demo.png (dataURL_of Demo.png) 1024 1024 false
           (fun _ _ _ => ""));
    [reflexivity | reflexivity | lia].
Defined.

(** X3: a resolved conversion has the file's type or [image/jpeg]; PNG
    and JPEG files keep their type whatever their size. *)
Theorem fileToBase64_type_kept :
  forall (b : Browser) (f : File) (out : FileConversionResult),
    fileToBase64 b f = Resolved out ->
    (mimeType out = ftype f \/ mimeType out = "image/jpeg") /\
    (ftype f = "image/png" \/ ftype f = "image/jpeg" ->
     mimeType out = ftype f).
Proof.
  intros b f out. unfold fileToBase64.
  destruct (readAsDataURL b f) as [[url|]|ev]; try discriminate.
  destruct (JS.truthy url); simpl; [|discriminate].
  destruct (loadImage b url) as [w h|ev]; [|discriminate].
  destruct (small_enough (dim w) (dim h)).
  - intro H. injection H as <-. simpl. auto.
  - destruct (getContext2d b); simpl; [|discriminate].
    intro H. injection H as <-. simpl.
    destruct (outputMimeType_cases f) as [[E1 E2] | [E1 E2]]; rewrite E2.
    + split; [left; congruence|]. intros _. congruence.
    + split; [auto|]. intros [H|H]; congruence.
Qed.

Lemma fileToBase64_type_kept_witness :
  (mimeType (mkConversion (Some "QUJD") "image/png") = ftype Demo.png \/
   mimeType (mkConversion (Some "QUJD") "image/png") = "image/jpeg") /\
  (ftype Demo.png = "image/png" \/ ftype Demo.png = "image/jpeg" ->
   mimeType (mkConversion (Some "QUJD") "image/png") = ftype Demo.png).
Proof.
  apply (fileToBase64_type_kept (Demo.browserOf 3000 1500) Demo.png).
  reflexivity.
Defined.

(** X4: what [split(',')[1]] makes of the URL of a small image: without a
    comma the promise still resolves, with an undefined [base64]; with
    more than one comma it resolves with the text between the first two. *)
Theorem fileToBase64_comma_edges :
  forall (b : Browser) (f : File) (url : string) (w h : N),
    readAsDataURL b f = ReadLoaded (Some url) -> JS.truthy url = true ->
    loadImage b url = ImageLoaded w h ->
    (w <= 1024 /\ h <= 1024)%N ->
    (JS.occurs comma url = false ->
     fileToBase64 b f = Resolved {| base64 := None; mimeType := ftype f |}) /\
    (forall header piece rest,
        url = header ++ String comma (piece ++ String comma rest) ->
        JS.occurs comma header = false ->
        JS.occurs comma piece = false ->
        fileToBase64 b f =
          Resolved {| base64 := Some piece; mimeType := ftype f |}).
Proof.
  intros b f url w h Hr Ht Hl Hs.
  rewrite (fileToBase64_small b f url w h Hr Ht Hl Hs). split.
  - intro Hc. rewrite (split_clean url Hc). reflexivity.
  - intros header piece rest -> Hh Hp.
    rewrite (split_header _ _ Hh), (split_header _ _ Hp). reflexivity.
Qed.

Lemma fileToBase64_comma_edges_witness :
  fileToBase64 Cases.plainReader Demo.png =
    Resolved {| base64 := None; mimeType := ftype Demo.png |}.
Proof.
  apply (fileToBase64_comma_edges Cases.plainReader Demo.png
           "not a data url" 10 10); [reflexivity | reflexivity | reflexivity
                                     | lia | reflexivity].
Defined.

(** The canvas of an image that is wider than it is tall, and of one
    that is not. *)
Lemma render_wide (url : string) (w h : N) :
  (1024 < w)%N -> (w < 2 ^ 32)%N -> (h < w)%N ->
  cwidth (render url (dim w) (dim h)) = 1024%Z /\
  cheight (render url (dim w) (dim h))
    = Qfloor (Double.mul (dim h) (Double.div 1024 (dim w))).
Proof.
  intros Hw1 Hw2 Hlt. unfold render, new_dimensions.
  assert (G1 : JS.Qgtb (dim w) (dim h) = true)
    by (apply Qgtb_true, dim_lt; lia).
  assert (G2 : JS.Qgtb (dim w) MAX_DIMENSION = true).
  { apply Qgtb_true. change MAX_DIMENSION with (dim 1024). apply dim_lt. lia. }
  rewrite G1, G2. cbn [cwidth cheight]. split; [reflexivity|].
  destruct (scaled_side h w Hw1 Hw2 ltac:(lia)) as (V0 & [F1 F2] & [K1 K2] & _).
  rewrite ToUint32_floor by exact V0. apply Z.mod_small. split.
  - change 0%Z with (Qfloor 0). apply Qfloor_resp_le. exact V0.
  - change (2 ^ 32)%Z with 4294967296%Z. lia.
Qed.

Lemma render_tall (url : string) (w h : N) :
  (1024 < h)%N -> (h < 2 ^ 32)%N -> (w <= h)%N ->
  cheight (render url (dim w) (dim h)) = 1024%Z /\
  cwidth (render url (dim w) (dim h))
    = Qfloor (Double.mul (dim w) (Double.div 1024 (dim h))).
Proof.
  intros Hh1 Hh2 Hle. unfold render, new_dimensions.
  assert (G1 : JS.Qgtb (dim w) (dim h) = false)
    by (apply Qgtb_false, dim_le; lia).
  assert (G2 : JS.Qgtb (dim h) MAX_DIMENSION = true).
  { apply Qgtb_true. change MAX_DIMENSION with (dim 1024). apply dim_lt. lia. }
  rewrite G1, G2. cbn [cwidth cheight]. split; [reflexivity|].
  destruct (scaled_side w h Hh1 Hh2 Hle) as (V0 & [F1 F2] & [K1 K2] & _).
  rewrite ToUint32_floor by exact V0. apply Z.mod_small. split.
  - change 0%Z with (Qfloor 0). apply Qfloor_resp_le. exact V0.
  - change (2 ^ 32)%Z with 4294967296%Z. lia.
Qed.

(** X25: what the downscaling keeps of its aim, whatever the rounding
    does.  An image wider or taller than 1024 pixels (and below 2^32
    either way, as the sizes of images are) resolves with the encoding
    of a canvas whose larger side is exactly 1024, whose sides exceed
    neither 1024 nor those of the image, and whose other side is the
    integer part of the exactly scaled side or one pixel less. *)
Theorem downscaled_canvas_fits :
  forall (b : Browser) (f : File) (url : string) (w h : N),
    readAsDataURL b f = ReadLoaded (Some url) -> JS.truthy url = true ->
    loadImage b url = ImageLoaded w h ->
    getContext2d b = true ->
    (w < 2 ^ 32)%N -> (h < 2 ^ 32)%N ->
    (1024 < w \/ 1024 < h)%N ->
    let canvas := render url (dim w) (dim h) in
    fileToBase64 b f =
      Resolved
        {| base64 :=
             JS.index
               (JS.split comma
                  (toDataURL b canvas (outputMimeType f)
                     (quality (outputMimeType f)))) 1;
           mimeType := outputMimeType f |} /\
    Z.max (cwidth canvas) (cheight canvas) = 1024%Z /\
    (0 <= cwidth canvas <= Z.of_N w)%Z /\
    (0 <= cheight canvas <= Z.of_N h)%Z /\
    ((h < w)%N ->
     cwidth canvas = 1024%Z /\
     (Z.of_N h * 1024 / Z.of_N w - 1 <= cheight canvas
      <= Z.of_N h * 1024 / Z.of_N w)%Z) /\
    ((w <= h)%N ->
     cheight canvas = 1024%Z /\
     (Z.of_N w * 1024 / Z.of_N h - 1 <= cwidth canvas
      <= Z.of_N w * 1024 / Z.of_N h)%Z).
Proof.
  intros b f url w h Hr Hu Hl Hc Hw Hh Hbig canvas.
  split.
  { apply (fileToBase64_large b f url w h Hr Hu Hl Hbig Hc). }
  subst canvas.
  destruct (N.lt_ge_cases h w) as [Hlt | Hge].
  - assert (Hw1 : (1024 < w)%N) by lia.
    destruct (render_wide url w h Hw1 Hw Hlt) as [Ew Eh].
    destruct (scaled_side h w Hw1 Hw ltac:(lia))
      as (V0 & [F1 F2] & [K1 K2] & Ka).
    assert (V : (0 <= Qfloor
                        (Double.mul (dim h) (Double.div 1024 (dim w))))%Z).
    { change 0%Z with (Qfloor 0). apply Qfloor_resp_le. exact V0. }
    rewrite Ew, Eh.
    split; [lia|]. split; [lia|]. split; [lia|].
    split; [intros _; split; lia | intro; exfalso; lia].
  - assert (Hh1 : (1024 < h)%N) by lia.
    destruct (render_tall url w h Hh1 Hh Hge) as [Eh Ew].
    destruct (scaled_side w h Hh1 Hh Hge)
      as (V0 & [F1 F2] & [K1 K2] & Ka).
    assert (V : (0 <= Qfloor
                        (Double.mul (dim w) (Double.div 1024 (dim h))))%Z).
    { change 0%Z with (Qfloor 0). apply Qfloor_resp_le. exact V0. }
    rewrite Ew, Eh.
    split; [lia|]. split; [lia|]. split; [lia|].
    split; [intro; exfalso; lia | intros _; split; lia].
Qed.

(** A 3000 by 1500 WEBP file: the canvas is 1024 wide and 511 or 512
    high. *)
Lemma downscaled_canvas_fits_witness :
  Z.max (cwidth (render (dataURL_of Demo.webp) (dim 3000) (dim 1500)))
        (cheight (render (dataURL_of Demo.webp) (dim 3000) (dim 1500)))
    = 1024%Z /\
  cwidth (render (dataURL_of Demo.webp) (dim 3000) (dim 1500)) = 1024%Z /\
  (1500 * 1024 / 3000 - 1
   <= cheight (render (dataURL_of Demo.webp) (dim 3000) (dim 1500))
   <= 1500 * 1024 / 3000)%Z.
Proof.
  pose proof (downscaled_canvas_fits (Demo.browserOf 3000 1500) Demo.webp
                (dataURL_of Demo.webp) 3000 1500 eq_refl eq_refl eq_refl
                eq_refl eq_refl eq_refl (or_introl eq_refl))
    as (_ & M & _ & _ & W & _).
  destruct (W eq_refl) as [Cw Ch].
  split; [exact M|]. split; [exact Cw | exact Ch].
Defined.

End UploadEdges.

(* ------------------------------------------------------------------ *)
(** ** The calls to the model: what resolves and what rejects *)

Section ServiceEdges.

Import GeminiService Spec.

Lemma partData_some (part : Part) (d : string) :
  partData part = Some d ->
  d <> "" /\
  exists blob, inlineData part = Some blob /\ data blob = Some d.
Proof.
  unfold partData.
  destruct (inlineData part) as [blob|]; [|discriminate].
  destruct (data blob) as [d'|] eqn:Ed; [|discriminate].
  destruct (JS.truthy d') eqn:Et; [|discriminate].
  intro H. injection H as <-. apply truthy_true in Et. eauto.
Qed.

Lemma firstInlineData_some (ps : list Part) (d : string) :
  firstInlineData ps = Some d ->
  exists part, In part ps /\ partData part = Some d.
Proof.
  induction ps as [|p ps IH]; simpl; [discriminate|].
  destruct (partData p) as [d'|] eqn:E.
  - intro H. injection H as <-. exists p. auto.
  - intro H. destruct (IH H) as (part & Hin & Hd). exists part. auto.
Qed.

Lemma settle_resolved (prefix unknown missing : string) (o : ApiOutcome)
  (d : string) :
  settle prefix unknown missing o = Resolved d ->
  d <> "" /\
  exists r part blob,
    o = Returns r /\ In part (firstCandidateParts r) /\
    inlineData part = Some blob /\ data blob = Some d.
Proof.
  destruct o as [r| |]; simpl; try discriminate.
  destruct (firstInlineData (firstCandidateParts r)) as [d'|] eqn:E;
    [|discriminate].
  intro H. injection H as <-.
  destruct (firstInlineData_some _ _ E) as (part & Hin & Hd).
  destruct (partData_some _ _ Hd) as (Hne & blob & Hb & Hdata).
  split; [exact Hne|]. exists r, part, blob. auto.
Qed.

(** X5: what either function resolves with is never the empty string,
    and it is the [data] of the [inlineData] of a part of the first
    candidate of the response. *)
Theorem resolved_data_is_a_part :
  forall (ai : Api) (d : string),
    (forall p,
        fst (swapCharactersInImage ai p) = Resolved d ->
        d <> "" /\
        exists r part blob,
          ai (swapRequest p) = Returns r /\
          In part (firstCandidateParts r) /\
          inlineData part = Some blob /\ data blob = Some d) /\
    (forall p,
        fst (inpaintImage ai p) = Resolved d ->
        d <> "" /\
        exists r part blob,
          ai (inpaintRequest p) = Returns r /\
          In part (firstCandidateParts r) /\
          inlineData part = Some blob /\ data blob = Some d).
Proof.
  intros ai d. split; intros p H; simpl in H;
    exact (settle_resolved _ _ _ _ d H).
Qed.

Lemma resolved_data_is_a_part_witness :
  "SU1HMQ==" <> "" /\
  exists r part blob,
    Demo.imageAi (swapRequest Demo.nightParams) = Returns r /\
    In part (firstCandidateParts r) /\
    inlineData part = Some blob /\ data blob = Some "SU1HMQ==".
Proof.
  apply (proj1 (resolved_data_is_a_part Demo.imageAi "SU1HMQ==")
           Demo.nightParams).
  reflexivity.
Defined.

(** The first candidate has no part with data. *)
Lemma no_data_in_first (r : GenerateContentResponse) :
  (candidates r = None \/ candidates r = Some [] \/
   exists c others,
     candidates r = Some (c :: others) /\
     forall ct ps part,
       content c = Some ct -> parts ct = Some ps -> In part ps ->
       partData part = None) ->
  firstInlineData (firstCandidateParts r) = None.
Proof.
  unfold firstCandidateParts.
  intros [H | [H | (c & others & H & Hc)]]; rewrite H; simpl;
    try reflexivity.
  destruct (content c) as [ct|] eqn:Ec; [|reflexivity].
  destruct (parts ct) as [ps|] eqn:Ep; [|reflexivity].
  apply firstInlineData_none. intros part Hin.
  exact (Hc ct ps part eq_refl Ep Hin).
Qed.

(** X6: only the first candidate is read. When the response has no
    candidates, or its first candidate has no content, no parts, or no
    part with data, both functions reject with their "did not return"
    message, whatever the other candidates hold. *)
Theorem only_first_candidate_is_read :
  forall (ai : Api) (r : GenerateContentResponse),
    (candidates r = None \/ candidates r = Some [] \/
     exists c others,
       candidates r = Some (c :: others) /\
       forall ct ps part,
         content c = Some ct -> parts ct = Some ps -> In part ps ->
         partData part = None) ->
    (forall p,
        ai (swapRequest p) = Returns r ->
        fst (swapCharactersInImage ai p) =
          Rejected "Failed to generate image: The AI did not return an image. It might have refused the request due to safety policies or an inability to process the images.") /\
    (forall p,
        ai (inpaintRequest p) = Returns r ->
        fst (inpaintImage ai p) =
          Rejected "Inpainting failed: The AI did not return an edited image. It may have refused the request.").
Proof.
  intros ai r Hr. pose proof (no_data_in_first r Hr) as E.
  split; intros p Ha; simpl; rewrite Ha; simpl; rewrite E; reflexivity.
Qed.

(** The image of [Cases.secondCandidateResponse] is in its second
    candidate. *)
Lemma only_first_candidate_is_read_witness :
  fst (swapCharactersInImage Cases.secondCandidateAi Demo.nightParams) =
    Rejected "Failed to generate image: The AI did not return an image. It might have refused the request due to safety policies or an inability to process the images." /\
  fst (inpaintImage Cases.secondCandidateAi Demo.maskParams) =
    Rejected "Inpainting failed: The AI did not return an edited image. It may have refused the request.".
Proof.
  assert (H : candidates Cases.secondCandidateResponse = None \/
              candidates Cases.secondCandidateResponse = Some [] \/
              exists c others,
                candidates Cases.secondCandidateResponse
                  = Some (c :: others) /\
                forall ct ps part,
                  content c = Some ct -> parts ct = Some ps ->
                  In part ps -> partData part = None).
  { right. right. eexists. eexists. split; [reflexivity|].
    intros ct ps part H1 H2 H3. injection H1 as <-. injection H2 as <-.
    destruct H3 as [<-|[]]. reflexivity. }
  split.
  - apply (proj1 (only_first_candidate_is_read Cases.secondCandidateAi
                    Cases.secondCandidateResponse H)).
    reflexivity.
  - apply (proj2 (only_first_candidate_is_read Cases.secondCandidateAi
                    Cases.secondCandidateResponse H)).
    reflexivity.
Defined.

Lemma includes_here3 (a x b post : string) :
  includes (a ++ x ++ b) (a ++ x ++ b ++ post).
Proof.
  exists "", post. simpl. rewrite !append_assoc. reflexivity.
Qed.

(** X7: every fusion prompt holds the aspect-ratio instruction and the
    lines of the scene composition, the character scale and the character
    action; an empty action is replaced by "naturally placed in the
    environment". *)
Theorem fusion_prompt_fixed_lines :
  forall p : SwapParams,
    includes (aspectRatioInstruction p) (fusionPrompt p) /\
    includes
      ("    - **Scene Composition:** The final image should be a "
       ++ sceneComposition p ++ ".")
      (fusionPrompt p) /\
    includes
      ("    - **Character Scale:** The character should appear "
       ++ characterScale p ++ " relative to the scene.")
      (fusionPrompt p) /\
    (characterAction p <> "" ->
     includes
       ("    - **Character Action:** The character should be depicted "
        ++ characterAction p ++ ".")
       (fusionPrompt p)) /\
    (characterAction p = "" ->
     includes
       ("    - **Character Action:** The character should be depicted "
        ++ "naturally placed in the environment" ++ ".")
       (fusionPrompt p)).
Proof.
  intro p. unfold fusionPrompt, fusionTemplate.
  split; [find_slot|].
  split; [repeat first [apply includes_here3 | apply includes_skip]|].
  split; [repeat first [apply includes_here3 | apply includes_skip]|].
  split; intro H; unfold actionOrDefault.
  - apply truthy_true in H. rewrite H.
    repeat first [apply includes_here3 | apply includes_skip].
  - apply truthy_false in H. rewrite H.
    repeat first [apply includes_here3 | apply includes_skip].
Qed.

Lemma fusion_prompt_fixed_lines_witness :
  includes
    ("    - **Character Action:** The character should be depicted "
     ++ "waving" ++ ".")
    (fusionPrompt Demo.nightParams) /\
  includes
    ("    - **Character Action:** The character should be depicted "
     ++ "naturally placed in the environment" ++ ".")
    (fusionPrompt Demo.plainParams).
Proof.
  pose proof (fusion_prompt_fixed_lines Demo.nightParams)
    as (_ & _ & _ & A & _).
  pose proof (fusion_prompt_fixed_lines Demo.plainParams)
    as (_ & _ & _ & _ & B).
  split; [apply A; discriminate | apply B; reflexivity].
Defined.

(** X8: of the six art styles the panel offers, "Photorealistic" is the
    only one whose style instruction gets the extra sentence. *)
Theorem only_photorealistic_option_is_extended :
  forall p : SwapParams,
    In (artStyle p) RefinePanel.artStyleOptions ->
    (styleInstruction p = styleBase (artStyle p) ++ styleExtra <->
     artStyle p = "Photorealistic").
Proof.
  intros p Hin. unfold styleInstruction.
  assert (Hne : forall s, s ++ styleExtra <> s).
  { intro s. apply append_nonempty_r. discriminate. }
  simpl in Hin.
  destruct Hin as [H | [H | [H | [H | [H | [H | []]]]]]];
    rewrite <- H; simpl; split; intro E;
    try reflexivity; try discriminate;
    exfalso; symmetry in E; exact (Hne _ E).
Qed.

Lemma only_photorealistic_option_is_extended_witness :
  styleInstruction Demo.plainParams
    = styleBase (artStyle Demo.plainParams) ++ styleExtra <->
  artStyle Demo.plainParams = "Photorealistic".
Proof.
  apply (only_photorealistic_option_is_extended Demo.plainParams).
  simpl. auto.
Defined.

End ServiceEdges.

(* ------------------------------------------------------------------ *)
(** ** The sliders of the refine panel *)

Section Sliders.

Import RefinePanel.

(** Evaluate the digit at the head of the string being read. *)
Ltac read_digit :=
  cbn [NilEmpty.string_of_uint readDigits];
  match goal with
  | |- context [digitValue ?c] =>
      let v := eval vm_compute in (digitValue c) in
      change (digitValue c) with v
  end;
  cbv iota beta;
  match goal with
  | |- context [(?n <? 10)%Z] => change (n <? 10)%Z with true
  end;
  cbv iota.

Lemma of_lu_rev_digit (d : Decimal.uint) :
  d <> Decimal.Nil ->
  DecimalPos.Unsigned.of_lu (Decimal.rev d) =
    (DecimalPos.Unsigned.of_lu (Decimal.rev (DecimalPos.Unsigned.tl d))
     + DecimalPos.Unsigned.hd d
       * 10 ^ DecimalPos.Unsigned.usize (DecimalPos.Unsigned.tl d))%N.
Proof.
  intro Hd. destruct d; [contradiction | ..];
    unfold Decimal.rev at 1; cbn [Decimal.revapp];
    rewrite DecimalPos.Unsigned.of_lu_revapp; reflexivity.
Qed.

Lemma readDigits_acc (d : Decimal.uint) :
  forall a : Z,
    readDigits 10 (Some a) (NilEmpty.string_of_uint d) =
      Some (a * Z.of_N (10 ^ DecimalPos.Unsigned.usize d)
            + Z.of_N (DecimalPos.Unsigned.of_lu (Decimal.rev d)))%Z.
Proof.
  induction d; intro a;
    [simpl; f_equal; lia | ..];
    read_digit; rewrite IHd; f_equal;
    match goal with
    | |- context [Decimal.rev (?c d)] =>
        rewrite (of_lu_rev_digit (c d)) by easy
    end;
    cbn [DecimalPos.Unsigned.usize DecimalPos.Unsigned.hd
           DecimalPos.Unsigned.tl];
    rewrite N.pow_succ_r', ?N2Z.inj_add, ?N2Z.inj_mul; simpl Z.of_N; ring.
Qed.

Lemma readDigits_uint (d : Decimal.uint) :
  d <> Decimal.Nil ->
  readDigits 10 None (NilEmpty.string_of_uint d)
    = Some (Z.of_N (Pos.of_uint d)).
Proof.
  intro Hd. rewrite DecimalPos.Unsigned.of_uint_alt.
  rewrite (of_lu_rev_digit d Hd).
  destruct d; [contradiction | ..];
    read_digit; rewrite readDigits_acc; f_equal;
    cbn [DecimalPos.Unsigned.hd DecimalPos.Unsigned.tl];
    rewrite ?N2Z.inj_add, ?N2Z.inj_mul; simpl Z.of_N; ring.
Qed.

Lemma parseInt_digits (d : Decimal.uint) :
  d <> Decimal.Nil ->
  parseInt (NilEmpty.string_of_uint d)
    = option_map (Z.mul 1) (readDigits 10 None (NilEmpty.string_of_uint d))
  /\ parseInt (String "-" (NilEmpty.string_of_uint d))
    = option_map (Z.mul (-1))
        (readDigits 10 None (NilEmpty.string_of_uint d)).
Proof.
  intro Hd. destruct d as [|d|d|d|d|d|d|d|d|d|d]; [contradiction | ..];
    try (split; reflexivity);
    destruct d; try (split; reflexivity);
    destruct d; split; reflexivity.
Qed.

Lemma string_of_uint_nonnil (d : Decimal.uint) :
  d <> Decimal.Nil ->
  NilZero.string_of_uint d = NilEmpty.string_of_uint d.
Proof. destruct d; [contradiction | reflexivity ..]. Qed.

(** Printing an integer and parsing it gives the integer back. *)
Lemma parseInt_numberToString (z : Z) :
  parseInt (numberToString z) = Some z.
Proof.
  unfold numberToString. destruct z as [|p|p]; [reflexivity | |];
    cbn [Z.to_int NilZero.string_of_int];
    pose proof (DecimalPos.Unsigned.to_uint_nonnil p) as Hn;
    rewrite (string_of_uint_nonnil _ Hn).
  - rewrite (proj1 (parseInt_digits _ Hn)), (readDigits_uint _ Hn),
      DecimalPos.Unsigned.of_to. reflexivity.
  - rewrite (proj2 (parseInt_digits _ Hn)), (readDigits_uint _ Hn),
      DecimalPos.Unsigned.of_to. reflexivity.
Qed.


Lemma indexOfFrom_absent (xs : list string) (v : string) :
  ~ In v xs -> forall i, indexOfFrom i xs v = (-1)%Z.
Proof.
  induction xs as [|x xs IH]; simpl; intros Hn i; [reflexivity|].
  destruct (x =? v) eqn:E.
  - apply String.eqb_eq in E. exfalso. apply Hn. auto.
  - apply IH. intro H. apply Hn. auto.
Qed.

(** [indexOf] finds the first position of a member. *)
Lemma indexOfFrom_present (xs : list string) (v : string) :
  In v xs ->
  forall i, exists k,
    indexOfFrom i xs v = (i + Z.of_nat k)%Z /\
    nth_error xs k = Some v /\
    forall j, (j < k)%nat -> nth_error xs j <> Some v.
Proof.
  induction xs as [|x xs IH]; simpl; intros Hin i; [contradiction|].
  destruct (x =? v) eqn:E.
  - apply String.eqb_eq in E. subst x. exists 0%nat.
    split; [lia|]. split; [reflexivity|]. intros j Hj. lia.
  - apply String.eqb_neq in E.
    destruct Hin as [H|H]; [contradiction|].
    destruct (IH H (i + 1)%Z) as (k & Hk & Hnth & Hfirst).
    exists (S k). split; [lia|]. split; [exact Hnth|].
    intros [|j] Hj; simpl.
    + congruence.
    + apply Hfirst. lia.
Qed.

Lemma at_number_nat (xs : list string) (k : nat) :
  at_number xs (Some (Z.of_nat k)) = nth_error xs k.
Proof.
  unfold at_number.
  destruct (Z.of_nat k <? 0)%Z eqn:E; [apply Z.ltb_lt in E; lia|].
  rewrite Nat2Z.id. reflexivity.
Qed.

(** X9: a slider and its option list. Moving the slider to position [i]
    passes [options[i]] to the callback, which is undefined past the end
    of the list. The position shown for a current value that is an option
    leads back to that value; for a value that is no option the position
    is -1. In a list without repetition the position shown for
    [options[i]] is [i]. *)
Theorem slider_round_trip :
  forall (options : list string) (v : string),
    (forall i : nat,
        sliderChange options (numberToString (Z.of_nat i))
          = nth_error options i) /\
    (In v options ->
     sliderChange options (sliderValue options v) = Some v) /\
    (~ In v options -> sliderValue options v = "-1") /\
    (forall i : nat,
        NoDup options -> nth_error options i = Some v ->
        sliderValue options v = numberToString (Z.of_nat i)).
Proof.
  intros options v. unfold sliderChange, sliderValue, indexOf.
  split; [|split; [|split]].
  - intro i. rewrite parseInt_numberToString. apply at_number_nat.
  - intro Hin.
    destruct (indexOfFrom_present options v Hin 0%Z) as (k & Hk & Hnth & _).
    rewrite Hk, parseInt_numberToString. simpl Z.add.
    rewrite at_number_nat. exact Hnth.
  - intro Hn. rewrite (indexOfFrom_absent options v Hn). reflexivity.
  - intros i Hnd Hi.
    assert (Hin : In v options) by (eapply nth_error_In; eauto).
    destruct (indexOfFrom_present options v Hin 0%Z) as (k & Hk & Hnth & _).
    rewrite Hk. simpl Z.add. f_equal. f_equal.
    apply (proj1 (NoDup_nth_error options) Hnd); [|congruence].
    apply nth_error_Some. congruence.
Qed.

(** The character-scale slider: "Medium" is shown at position 1, and
    position 1 gives "Medium". *)
Lemma slider_round_trip_witness :
  sliderChange scaleOptions (sliderValue scaleOptions "Medium")
    = Some "Medium" /\
  sliderValue compositionOptions "Panorama" = "-1" /\
  sliderValue scaleOptions "Medium" = numberToString (Z.of_nat 1).
Proof.
  split; [|split].
  - apply (proj1 (proj2 (slider_round_trip scaleOptions "Medium"))).
    simpl. auto.
  - apply (proj1 (proj2 (proj2
             (slider_round_trip compositionOptions "Panorama")))).
    simpl. intros [H | [H | [H | []]]]; discriminate.
  - apply (proj2 (proj2 (proj2 (slider_round_trip scaleOptions "Medium")))
             1%nat).
    + repeat constructor; simpl; intuition discriminate.
    + reflexivity.
Defined.

End Sliders.

(* ------------------------------------------------------------------ *)
(** ** The loading messages *)

Section Ticker.

Import Page.

Lemma ticks_mod (n : nat) : ticks n = Z.of_nat (n mod 6).
Proof.
  induction n as [|n IH]; [reflexivity|].
  cbn [ticks]. rewrite IH. unfold tick.
  change (Z.of_nat (length loadingMessages)) with 6%Z.
  replace (Z.of_nat (n mod 6) + 1)%Z with (Z.of_nat (n mod 6 + 1)) by lia.
  change 6%Z with (Z.of_nat 6). rewrite <- Nat2Z.inj_mod. f_equal.
  replace (S n) with (n + 1)%nat by lia.
  rewrite (Nat.Div0.add_mod n 1 6).
  change (1 mod 6)%nat with 1%nat. reflexivity.
Qed.

(** X10: while the page is loading, the message shown after [n] runs of
    the interval callback is message number [n mod 6] of the six loading
    messages; it is always defined, and the sequence repeats every six
    runs. *)
Theorem loading_messages_cycle :
  forall n : nat,
    messageAt (ticks n) = nth_error loadingMessages (n mod 6) /\
    (exists m, messageAt (ticks n) = Some m /\ In m loadingMessages) /\
    ticks (n + 6) = ticks n.
Proof.
  intro n. rewrite !ticks_mod.
  assert (E : messageAt (Z.of_nat (n mod 6))
              = nth_error loadingMessages (n mod 6))
    by apply at_number_nat.
  split; [exact E|]. split.
  - rewrite E.
    assert (Hlt : (n mod 6 < length loadingMessages)%nat).
    { change (length loadingMessages) with 6%nat.
      apply Nat.mod_upper_bound. discriminate. }
    destruct (nth_error loadingMessages (n mod 6)) as [m|] eqn:Hm.
    + exists m. split; [reflexivity|]. eapply nth_error_In. exact Hm.
    + apply nth_error_None in Hm. lia.
  - f_equal. rewrite <- (Nat.Div0.add_mod_idemp_r n 6 6).
    change (6 mod 6)%nat with 0%nat. rewrite Nat.add_0_r. reflexivity.
Qed.

End Ticker.

(* ------------------------------------------------------------------ *)
(** ** The mask editor: strokes *)

Section EditorStrokes.

Import ImageEditor.

Variable strokes : Z -> Point -> Point -> Z -> Z -> Z.

(** X11: the editor has no eraser. A mask pixel that is black stays
    black under every further action. *)
Theorem black_stays_black :
  forall (actions : list Action) (ed : Editor) (x y : Z),
    pixel (maskCanvas ed) x y = black ->
    pixel (maskCanvas (run strokes ed actions)) x y = black.
Proof.
  unfold run. induction actions as [|a rest IH]; intros ed x y H; simpl.
  - exact H.
  - apply IH. apply step_black. exact H.
Qed.

Lemma step_sizes (ed : Editor) (a : Action) :
  width (canvas (step strokes ed a)) = width (canvas ed) /\
  height (canvas (step strokes ed a)) = height (canvas ed) /\
  width (maskCanvas (step strokes ed a)) = width (maskCanvas ed) /\
  height (maskCanvas (step strokes ed a)) = height (maskCanvas ed).
Proof.
  destruct (step_size strokes ed a) as (A & B & C & D). auto.
Qed.

Lemma run_sizes (actions : list Action) :
  forall ed,
    width (canvas (run strokes ed actions)) = width (canvas ed) /\
    height (canvas (run strokes ed actions)) = height (canvas ed) /\
    width (maskCanvas (run strokes ed actions)) = width (maskCanvas ed) /\
    height (maskCanvas (run strokes ed actions)) = height (maskCanvas ed).
Proof.
  unfold run. induction actions as [|a rest IH]; intro ed; simpl; [auto|].
  destruct (IH (step strokes ed a)) as (A & B & C & D).
  destruct (step_sizes ed a) as (A' & B' & C' & D').
  rewrite A, B, C, D. auto.
Qed.

(** X12: no action of the user resizes a canvas: after the image has
    loaded, the visible canvas and the mask keep the size [onload] gave
    them, so the mask that is saved has the size of the visible canvas. *)
Theorem canvases_keep_their_size :
  forall (picture : Z -> Z -> Colour) (w h : N)
         (before after : list Action),
    let loaded := onload picture w h (run strokes mounted before) in
    let final := run strokes loaded after in
    width (canvas final) = width (canvas loaded) /\
    height (canvas final) = height (canvas loaded) /\
    width (maskCanvas final) = width (canvas final) /\
    height (maskCanvas final) = height (canvas final).
Proof.
  intros picture w h before after loaded final. subst final.
  destruct (run_sizes after loaded) as (A & B & C & D).
  destruct (fitted (FileUtils.dim w) (FileUtils.dim h)) as [w' h'] eqn:E.
  destruct (onload_canvases picture w h (run strokes mounted before)
              w' h' E) as (C1 & C2 & M1 & M2).
  fold loaded in C1, C2, M1, M2.
  rewrite A, B, C, D, C1, C2, M1, M2. auto.
Qed.

(** X13: moving the pointer with no button down draws nothing. Starting
    with the button up, actions other than a press leave both bitmaps
    as they are. *)
Theorem no_press_no_paint :
  forall (actions : list Action) (ed : Editor),
    isDrawing ed = false ->
    Forall (fun a => forall e, a <> MouseDown e) actions ->
    canvas (run strokes ed actions) = canvas ed /\
    maskCanvas (run strokes ed actions) = maskCanvas ed /\
    isDrawing (run strokes ed actions) = false.
Proof.
  unfold run. induction actions as [|a rest IH]; intros ed Hd Hall; simpl.
  - auto.
  - inversion Hall as [|a' rest' Ha Hrest]; subst.
    assert (S : canvas (step strokes ed a) = canvas ed /\
                maskCanvas (step strokes ed a) = maskCanvas ed /\
                isDrawing (step strokes ed a) = false).
    { destruct a as [e | e | | | n]; simpl; auto.
      - exfalso. exact (Ha e eq_refl).
      - unfold draw. rewrite Hd. simpl. auto. }
    destruct S as (S1 & S2 & S3).
    destruct (IH (step strokes ed a) S3 Hrest) as (I1 & I2 & I3).
    rewrite I1, I2, S1, S2. auto.
Qed.

End EditorStrokes.

Section EditorStrokeCases.

Import ImageEditor.

Lemma black_stays_black_witness :
  pixel
    (maskCanvas
       (run Demo.columnBrush
          (run Demo.columnBrush Cases.loadedEditor Demo.stroke)
          [MouseDown Cases.press; BrushSlider 5; MouseMove Cases.move]))
    60 5 = black.
Proof.
  apply (black_stays_black Demo.columnBrush).
  reflexivity.
Defined.

Lemma no_press_no_paint_witness :
  canvas (run Demo.columnBrush Cases.loadedEditor
            [MouseMove Cases.move; BrushSlider 80; MouseLeave])
    = canvas Cases.loadedEditor /\
  maskCanvas (run Demo.columnBrush Cases.loadedEditor
                [MouseMove Cases.move; BrushSlider 80; MouseLeave])
    = maskCanvas Cases.loadedEditor /\
  isDrawing (run Demo.columnBrush Cases.loadedEditor
               [MouseMove Cases.move; BrushSlider 80; MouseLeave]) = false.
Proof.
  apply (no_press_no_paint Demo.columnBrush).
  - reflexivity.
  - repeat constructor; discriminate.
Defined.

End EditorStrokeCases.


(* ------------------------------------------------------------------ *)
(** ** The page: what the handlers leave behind *)

Section PageEdges.

Import FileUtils GeminiService App Page PageSpec.

Lemma fileToBase64_message (b : Browser) (f : File) (m : string) :
  fileToBase64 b f = Rejected m -> m <> "".
Proof.
  unfold fileToBase64.
  destruct (readAsDataURL b f) as [[url|]|ev];
    try (intro H; injection H as <-; discriminate).
  destruct (JS.truthy url); simpl;
    [|intro H; injection H as <-; discriminate].
  destruct (loadImage b url) as [w h|ev];
    [|intro H; injection H as <-; discriminate].
  destruct (small_enough (dim w) (dim h)); [discriminate|].
  destruct (getContext2d b); simpl; [discriminate|].
  intro H. injection H as <-. discriminate.
Qed.

Lemma swap_message (ai : Api) (p : SwapParams) (m : string) :
  fst (swapCharactersInImage ai p) = Rejected m -> m <> "".
Proof.
  simpl. destruct (ai (swapRequest p)) as [r| e |]; simpl.
  - destruct (firstInlineData (firstCandidateParts r)); [discriminate|].
    intro H. injection H as <-. discriminate.
  - intro H. injection H as <-. discriminate.
  - intro H. injection H as <-. discriminate.
Qed.

Lemma promiseAll_rejected {A B : Type} (flag : bool)
  (a : Settled A) (b : Settled B) (m : string) :
  promiseAll flag a b = Rejected m -> a = Rejected m \/ b = Rejected m.
Proof.
  destruct a, b, flag; simpl; intro H; try discriminate;
    injection H as <-; auto.
Qed.

Lemma promiseAll_resolved {A B : Type} (flag : bool)
  (a : Settled A) (b : Settled B) (x : A) (y : B) :
  promiseAll flag a b = Resolved (x, y) -> a = Resolved x /\ b = Resolved y.
Proof.
  destruct a, b; simpl; intro H; try discriminate.
  injection H as <- <-. auto.
Qed.

(** X17: when the conversion of the scene or of the character rejects,
    [handleGenerate] sends nothing to the model; it shows the message of
    one of the rejected conversions, with the result cleared and loading
    off. *)
Theorem failed_conversion_sends_nothing :
  forall (w : World) (s : State) (scene character : File),
    sceneImage s = Some scene -> characterImage s = Some character ->
    (exists m, fileToBase64 (browser w) scene = Rejected m) \/
    (exists m, fileToBase64 (browser w) character = Rejected m) ->
    snd (handleGenerate w s) = [] /\
    (exists m,
        error (fst (handleGenerate w s)) = Some m /\
        (fileToBase64 (browser w) scene = Rejected m \/
         fileToBase64 (browser w) character = Rejected m)) /\
    resultImage (fst (handleGenerate w s)) = None /\
    resultImageBase64 (fst (handleGenerate w s)) = None /\
    isLoading (fst (handleGenerate w s)) = false.
Proof.
  intros w s scene character Hs Hc Hrej.
  unfold handleGenerate. rewrite Hs, Hc.
  destruct (promiseAll (secondRejectsFirst w)
              (fileToBase64 (browser w) scene)
              (fileToBase64 (browser w) character))
    as [[sr cr]|m] eqn:E.
  - apply promiseAll_resolved in E. destruct E as [E1 E2].
    destruct Hrej as [[m H] | [m H]]; congruence.
  - apply promiseAll_rejected in E. cells.
    split; [reflexivity|]. split; [exists m; auto|]. auto.
Qed.

Lemma failed_conversion_sends_nothing_witness :
  snd (handleGenerate (mkWorld Cases.brokenImages Demo.imageAi false 0)
         Demo.uploaded) = [] /\
  (exists m,
      error (fst (handleGenerate
                    (mkWorld Cases.brokenImages Demo.imageAi false 0)
                    Demo.uploaded)) = Some m /\
      (fileToBase64 Cases.brokenImages Demo.webp = Rejected m \/
       fileToBase64 Cases.brokenImages Demo.png = Rejected m)) /\
  resultImage (fst (handleGenerate
                      (mkWorld Cases.brokenImages Demo.imageAi false 0)
                      Demo.uploaded)) = None /\
  resultImageBase64 (fst (handleGenerate
                            (mkWorld Cases.brokenImages Demo.imageAi false 0)
                            Demo.uploaded)) = None /\
  isLoading (fst (handleGenerate
                    (mkWorld Cases.brokenImages Demo.imageAi false 0)
                    Demo.uploaded)) = false.
Proof.
  apply (failed_conversion_sends_nothing
           (mkWorld Cases.brokenImages Demo.imageAi false 0) Demo.uploaded
           Demo.webp Demo.png eq_refl eq_refl).
  left. eexists. reflexivity.
Defined.

Lemma handleInpaint_loading (w : World) (image mask : option string)
  (s : State) :
  isLoading s = false ->
  loadingMessage (fst (handleInpaint w image mask s))
    = messageOf (intervalRuns w mod 6) /\
  ticker (fst (handleInpaint w image mask s)) = None.
Proof.
  intro Hl. unfold handleInpaint.
  match goal with
  | |- context [runInterval ?n (rendered s ?s1)] =>
      destruct (rendered_started s s1 Hl eq_refl) as [T0 M0];
      destruct (runInterval_ticks n (rendered s s1) T0 M0) as [T M];
      assert (L : isLoading (runInterval n (rendered s s1)) = true)
        by (rewrite runInterval_isLoading, rendered_isLoading; reflexivity)
  end.
  destruct (inpaintImage (ai w) _) as [[r|m] sent]; cbn [fst];
    match goal with
    | |- context [rendered ?a ?b] =>
        destruct (rendered_stopped a b L eq_refl) as [T' M']
    end;
    rewrite T', M'; cbn [loadingMessage setIsLoading setResultImage
                          setResultImageBase64 setError];
    rewrite M; auto.
Qed.

Lemma handleGenerate_loading (w : World) (s : State)
  (scene character : File) :
  sceneImage s = Some scene -> characterImage s = Some character ->
  isLoading s = false ->
  loadingMessage (fst (handleGenerate w s))
    = messageOf (intervalRuns w mod 6) /\
  ticker (fst (handleGenerate w s)) = None.
Proof.
  intros Hs Hc Hl. unfold handleGenerate. rewrite Hs, Hc.
  match goal with
  | |- context [runInterval ?n (rendered s ?s1)] =>
      destruct (rendered_started s s1 Hl eq_refl) as [T0 M0];
      destruct (runInterval_ticks n (rendered s s1) T0 M0) as [T M];
      assert (L : isLoading (runInterval n (rendered s s1)) = true)
        by (rewrite runInterval_isLoading, rendered_isLoading; reflexivity)
  end.
  destruct (promiseAll _ _ _) as [[sr cr]|m];
    [destruct (swapCharactersInImage (ai w) _) as [[r|m] sent]|];
    cbn [fst];
    match goal with
    | |- context [rendered ?a ?b] =>
        destruct (rendered_stopped a b L eq_refl) as [T' M']
    end;
    rewrite T', M'; cbn [loadingMessage setIsLoading setResultImage
                          setResultImageBase64 setError];
    rewrite M; auto.
Qed.

(** X18: the handlers never touch the uploaded files, their preview
    URLs or the controls.  [handleGenerate] also leaves [isEditing]
    alone, so an editor that was open stays open; [handleInpaint] closes
    the editor and ends with loading off.  Started on a page that is not
    loading, a handler that calls the model leaves as loading message
    the one of the six rotating messages the interval has reached, and
    no interval: the message "Applying your edits with AI..." that
    [handleInpaint] sets gives way to the first of the six as soon as
    the page is rendered as loading. *)
Theorem handlers_keep_uploads_and_controls :
  forall (w : World) (image mask : option string) (s : State),
    let g := fst (handleGenerate w s) in
    let i := fst (handleInpaint w image mask s) in
    (sceneImage g = sceneImage s /\
     characterImage g = characterImage s /\
     sceneImageUrl g = sceneImageUrl s /\
     characterImageUrl g = characterImageUrl s /\
     controls g = controls s /\
     isEditing g = isEditing s) /\
    (sceneImage i = sceneImage s /\
     characterImage i = characterImage s /\
     sceneImageUrl i = sceneImageUrl s /\
     characterImageUrl i = characterImageUrl s /\
     controls i = controls s /\
     isEditing i = false /\
     isLoading i = false) /\
    (isLoading s = false ->
     (nth_error loadingMessages (intervalRuns w mod 6)
        = Some (loadingMessage i) /\
      ticker i = None) /\
     (canGenerate s = true ->
      nth_error loadingMessages (intervalRuns w mod 6)
        = Some (loadingMessage g) /\
      ticker g = None)).
Proof.
  intros w image mask s g i. subst g i.
  assert (N : forall k, (k < 6)%nat ->
             nth_error loadingMessages k = Some (messageOf k)).
  { intros k Hk. unfold messageOf.
    do 6 (destruct k as [|k]; [reflexivity|]). lia. }
  assert (B : (intervalRuns w mod 6 < 6)%nat)
    by (apply Nat.mod_upper_bound; discriminate).
  split; [|split].
  - unfold handleGenerate.
    destruct (sceneImage s) as [scene|] eqn:Es;
      destruct (characterImage s) as [character|] eqn:Ec;
      simpl; auto 10.
    destruct (promiseAll _ _ _) as [[sr cr]|m]; cells; [|auto 10].
    destruct (settle _ _ _ _); cells; auto 10.
  - unfold handleInpaint. simpl.
    destruct (settle _ _ _ _); cells; auto 10.
  - intro Hl. split.
    + destruct (handleInpaint_loading w image mask s Hl) as [M T].
      rewrite M. auto.
    + unfold canGenerate. intro Hg.
      destruct (sceneImage s) as [scene|] eqn:Es; [|discriminate].
      destruct (characterImage s) as [character|] eqn:Ec; [|discriminate].
      destruct (handleGenerate_loading w s scene character Es Ec Hl)
        as [M T].
      rewrite M. auto.
Qed.

(** From [Demo.editing], with the interval firing three times during
    the call, the fourth message is left. *)
Lemma handlers_keep_uploads_and_controls_witness :
  (nth_error loadingMessages 3
     = Some (loadingMessage
               (fst (handleInpaint (Demo.world Demo.imageAi)
                       (Some "SU1HMQ==") (Some "TUFTSw==") Demo.editing))) /\
   ticker
     (fst (handleInpaint (Demo.world Demo.imageAi) (Some "SU1HMQ==")
             (Some "TUFTSw==") Demo.editing)) = None) /\
  nth_error loadingMessages 3
    = Some (loadingMessage
              (fst (handleGenerate (Demo.world Demo.imageAi) Demo.editing))).
Proof.
  destruct (proj2 (proj2
              (handlers_keep_uploads_and_controls (Demo.world Demo.imageAi)
                 (Some "SU1HMQ==") (Some "TUFTSw==") Demo.editing))
              eq_refl) as [[M T] G].
  destruct (G eq_refl) as [M' _].
  split; [split|].
  - exact M.
  - exact T.
  - exact M'.
Defined.

Lemma truthy_pngUrl (r : string) : JS.truthy (pngUrl r) = true.
Proof. reflexivity. Qed.

(** X19: after [handleGenerate] with both images uploaded, the result
    area shows either the error block or the result block, never both,
    and neither the spinner nor the placeholder; a result that is shown
    is the PNG data URL of non-empty data, with the error cleared. *)
Theorem generate_shows_result_or_error :
  forall (w : World) (s : State) (scene character : File),
    sceneImage s = Some scene -> characterImage s = Some character ->
    let after := fst (handleGenerate w s) in
    showSpinner after = false /\
    showPlaceholder after = false /\
    xorb (showError after) (showResult after) = true /\
    (showResult after = true ->
     exists r,
       r <> "" /\ resultImageBase64 after = Some r /\
       resultImage after = Some (pngUrl r) /\ error after = None).
Proof.
  intros w s scene character Hs Hc after. subst after.
  unfold handleGenerate. rewrite Hs, Hc.
  unfold showSpinner, showPlaceholder, showError, showResult.
  destruct (promiseAll _ _ _) as [[sr cr]|m] eqn:E; cells.
  - destruct (settle _ _ _ (ai w _)) as [r|m] eqn:Eo; cells.
    + repeat split; try reflexivity. intros _. exists r.
      destruct (settle_resolved _ _ _ _ r Eo) as [Hne _]. auto.
    + assert (Hm : JS.truthy m = true).
      { apply truthy_true.
        apply (swap_message (ai w) (swapParams s sr cr)). exact Eo. }
      rewrite Hm. repeat split; try reflexivity. discriminate.
  - assert (Hm : JS.truthy m = true).
    { apply truthy_true. apply promiseAll_rejected in E.
      destruct E as [E|E]; exact (fileToBase64_message _ _ _ E). }
    rewrite Hm. repeat split; try reflexivity. discriminate.
Qed.

Lemma generate_shows_result_or_error_witness :
  showSpinner (fst (handleGenerate (Demo.world Demo.imageAi) Demo.uploaded))
    = false /\
  showPlaceholder
    (fst (handleGenerate (Demo.world Demo.imageAi) Demo.uploaded)) = false /\
  xorb
    (showError
       (fst (handleGenerate (Demo.world Demo.imageAi) Demo.uploaded)))
    (showResult
       (fst (handleGenerate (Demo.world Demo.imageAi) Demo.uploaded)))
    = true /\
  (showResult (fst (handleGenerate (Demo.world Demo.imageAi) Demo.uploaded))
     = true ->
   exists r,
     r <> "" /\
     resultImageBase64
       (fst (handleGenerate (Demo.world Demo.imageAi) Demo.uploaded))
       = Some r /\
     resultImage
       (fst (handleGenerate (Demo.world Demo.imageAi) Demo.uploaded))
       = Some (pngUrl r) /\
     error (fst (handleGenerate (Demo.world Demo.imageAi) Demo.uploaded))
       = None).
Proof.
  apply (generate_shows_result_or_error (Demo.world Demo.imageAi)
           Demo.uploaded Demo.webp Demo.png);
    reflexivity.
Defined.

(** X20: the error the page shows for each way a call can fail. A
    thrown [Error] with message [m] is shown as "Failed to generate
    image: m" after a fusion and as "Editing failed: Inpainting failed:
    m" after an inpainting; a thrown value that is no [Error] gives the
    "unknown error" message of the service, prefixed by "Editing failed:
    " after an inpainting. *)
Theorem error_shown_for_each_failure :
  forall (w : World) (s : State) (scene character : File)
         (sr cr : FileConversionResult) (image mask : option string),
    sceneImage s = Some scene -> characterImage s = Some character ->
    fileToBase64 (browser w) scene = Resolved sr ->
    fileToBase64 (browser w) character = Resolved cr ->
    (forall m,
        ai w (swapRequest (swapParams s sr cr)) = ThrowsError m ->
        error (fst (handleGenerate w s))
          = Some ("Failed to generate image: " ++ m)) /\
    (ai w (swapRequest (swapParams s sr cr)) = ThrowsOther ->
     error (fst (handleGenerate w s))
       = Some "An unknown error occurred while calling the Gemini API.") /\
    (forall m,
        ai w (inpaintRequest
                (mkInpaintParams image "image/png" mask "image/png"))
          = ThrowsError m ->
        error (fst (handleInpaint w image mask s))
          = Some ("Editing failed: Inpainting failed: " ++ m)) /\
    (ai w (inpaintRequest
             (mkInpaintParams image "image/png" mask "image/png"))
       = ThrowsOther ->
     error (fst (handleInpaint w image mask s))
       = Some "Editing failed: An unknown error occurred during the inpainting API call.").
Proof.
  intros w s scene character sr cr image mask Hs Hc Hsr Hcr.
  split; [|split; [|split]].
  - intros m Ha. unfold handleGenerate. rewrite Hs, Hc, Hsr, Hcr.
    simpl. rewrite Ha. cells. reflexivity.
  - intros Ha. unfold handleGenerate. rewrite Hs, Hc, Hsr, Hcr.
    simpl. rewrite Ha. cells. reflexivity.
  - intros m Ha. unfold handleInpaint. simpl. rewrite Ha. cells.
    reflexivity.
  - intros Ha. unfold handleInpaint. simpl. rewrite Ha. cells.
    reflexivity.
Qed.

Lemma error_shown_for_each_failure_witness :
  error (fst (handleGenerate (Demo.world Cases.failingAi) Demo.uploaded))
    = Some ("Failed to generate image: " ++ "503 Service Unavailable") /\
  error (fst (handleGenerate (Demo.world Cases.oddAi) Demo.uploaded))
    = Some "An unknown error occurred while calling the Gemini API." /\
  error (fst (handleInpaint (Demo.world Cases.failingAi) (Some "SU1HMQ==")
                (Some "TUFTSw==") Demo.editing))
    = Some ("Editing failed: Inpainting failed: "
            ++ "503 Service Unavailable") /\
  error (fst (handleInpaint (Demo.world Cases.oddAi) (Some "SU1HMQ==")
                (Some "TUFTSw==") Demo.editing))
    = Some "Editing failed: An unknown error occurred during the inpainting API call.".
Proof.
  split; [|split; [|split]].
  - apply (proj1 (error_shown_for_each_failure (Demo.world Cases.failingAi)
                    Demo.uploaded Demo.webp Demo.png
                    (mkConversion (Some "QUJD") "image/jpeg")
                    (mkConversion (Some "QUJD") "image/png") None None
                    eq_refl eq_refl eq_refl eq_refl)).
    reflexivity.
  - apply (proj1 (proj2 (error_shown_for_each_failure
                           (Demo.world Cases.oddAi)
                           Demo.uploaded Demo.webp Demo.png
                           (mkConversion (Some "QUJD") "image/jpeg")
                           (mkConversion (Some "QUJD") "image/png")
                           None None eq_refl eq_refl eq_refl eq_refl))).
    reflexivity.
  - apply (proj1 (proj2 (proj2 (error_shown_for_each_failure
                           (Demo.world Cases.failingAi)
                           Demo.editing Demo.webp Demo.png
                           (mkConversion (Some "QUJD") "image/jpeg")
                           (mkConversion (Some "QUJD") "image/png")
                           (Some "SU1HMQ==") (Some "TUFTSw==")
                           eq_refl eq_refl eq_refl eq_refl)))).
    reflexivity.
  - apply (proj2 (proj2 (proj2 (error_shown_for_each_failure
                           (Demo.world Cases.oddAi)
                           Demo.editing Demo.webp Demo.png
                           (mkConversion (Some "QUJD") "image/jpeg")
                           (mkConversion (Some "QUJD") "image/png")
                           (Some "SU1HMQ==") (Some "TUFTSw==")
                           eq_refl eq_refl eq_refl eq_refl)))).
    reflexivity.
Defined.

Lemma inpaint_message (ai : Api) (p : InpaintParams) (m : string) :
  fst (inpaintImage ai p) = Rejected m -> m <> "".
Proof.
  simpl. destruct (ai (inpaintRequest p)) as [r| e |]; simpl.
  - destruct (firstInlineData (firstCandidateParts r)); [discriminate|].
    intro H. injection H as <-. discriminate.
  - intro H. injection H as <-. discriminate.
  - intro H. injection H as <-. discriminate.
Qed.

Lemma handleGenerate_consistent (w : World) (s : State) :
  consistent s -> consistent (fst (handleGenerate w s)).
Proof.
  intros (R & Rn & En & Us & Uc). unfold handleGenerate.
  destruct (sceneImage s) as [scene|] eqn:Es;
    destruct (characterImage s) as [character|] eqn:Ec;
    try (unfold consistent; simpl; rewrite ?Es, ?Ec;
         repeat split; auto;
         intros m H; injection H as <-; discriminate).
  destruct (promiseAll _ _ _) as [[sr cr]|m] eqn:E.
  - destruct (swapCharactersInImage (ai w) (swapParams s sr cr))
      as [outcome sent] eqn:Eo.
    assert (Ef : fst (swapCharactersInImage (ai w) (swapParams s sr cr))
                 = outcome) by (rewrite Eo; reflexivity).
    destruct outcome as [r|m]; unfold consistent; cells;
      rewrite ?Es, ?Ec; repeat split; auto; try discriminate.
    + intros r' H. injection H as <-.
      exact (proj1 (settle_resolved _ _ _ _ r Ef)).
    + intros m' H. injection H as <-.
      exact (swap_message _ _ _ Ef).
  - unfold consistent; cells; rewrite ?Es, ?Ec; repeat split; auto;
      try discriminate.
    intros m' H. injection H as <-.
    apply promiseAll_rejected in E.
    destruct E as [E|E]; exact (fileToBase64_message _ _ _ E).
Qed.

Lemma handleInpaint_consistent (w : World) (image mask : option string)
  (s : State) :
  consistent s -> consistent (fst (handleInpaint w image mask s)).
Proof.
  intros (R & Rn & En & Us & Uc). unfold handleInpaint.
  destruct (inpaintImage (ai w) _) as [outcome sent] eqn:Eo.
  match type of Eo with
  | inpaintImage ?a ?p = _ =>
      assert (Ef : fst (inpaintImage a p) = outcome)
        by (rewrite Eo; reflexivity)
  end.
  destruct outcome as [r|m]; unfold consistent; cells;
    repeat split; auto.
  - intros r' H. injection H as <-.
    exact (proj1 (settle_resolved _ _ _ _ r Ef)).
  - discriminate.
  - intros m' H. injection H as <-. discriminate.
Qed.

Lemma step_consistent (s : State) (e : Event) :
  consistent s -> consistent (fst (step s e)).
Proof.
  intro H. destruct e as [files url | files url | change | w | | | w enc ed];
    simpl.
  - destruct (ImageUploader.handleFileChange files); [|exact H].
    destruct H as (R & Rn & En & Us & Uc).
    unfold consistent; simpl; auto 10.
  - destruct (ImageUploader.handleFileChange files); [|exact H].
    destruct H as (R & Rn & En & Us & Uc).
    unfold consistent; simpl; auto 10.
  - exact H.
  - destruct (generateDisabled s); [exact H|].
    apply handleGenerate_consistent. exact H.
  - destruct (showResult s); exact H.
  - destruct (editorProps s); exact H.
  - destruct (isLoading s); [exact H|].
    unfold saveEditor. destruct (editorProps s) as [[url b64]|]; [|exact H].
    unfold ImageEditor.handleSave.
    apply handleInpaint_consistent. exact H.
Qed.

Lemma run_fst (events : list Event) :
  forall s e,
    fst (run s (e :: events)) = fst (run (fst (step s e)) events).
Proof.
  intros s e. simpl. destruct (step s e) as [s1 sent1]. simpl.
  destruct (run s1 events). reflexivity.
Qed.

Lemma run_consistent (events : list Event) :
  forall s, consistent s -> consistent (fst (run s events)).
Proof.
  induction events as [|e rest IH]; intros s H; [exact H|].
  rewrite run_fst. apply IH, step_consistent, H.
Qed.

Lemma initial_consistent : consistent initial.
Proof.
  unfold consistent, initial. simpl. repeat split; auto; discriminate.
Qed.

Lemma beginGenerate_consistent (s : State) :
  consistent s -> consistent (Async.beginGenerate s).
Proof.
  intros (R & Rn & En & Us & Uc). unfold Async.beginGenerate, consistent.
  cells. repeat split; auto; discriminate.
Qed.

Lemma beginInpaint_consistent (s : State) :
  consistent s -> consistent (Async.beginInpaint s).
Proof.
  intros (R & Rn & En & Us & Uc). unfold Async.beginInpaint, consistent.
  cells. repeat split; auto; discriminate.
Qed.

Lemma endGenerate_consistent (w : World) (scene character : File)
  (clicked s : State) :
  consistent s ->
  consistent (fst (Async.endGenerate w scene character clicked s)).
Proof.
  intros (R & Rn & En & Us & Uc). unfold Async.endGenerate.
  destruct (promiseAll _ _ _) as [[sr cr]|m] eqn:E.
  - destruct (swapCharactersInImage (ai w) (swapParams clicked sr cr))
      as [outcome sent] eqn:Eo.
    assert (Ef : fst (swapCharactersInImage (ai w) (swapParams clicked sr cr))
                 = outcome) by (rewrite Eo; reflexivity).
    destruct outcome as [r|m]; unfold consistent; cells;
      repeat split; auto; try discriminate.
    + intros r' H. injection H as <-.
      exact (proj1 (settle_resolved _ _ _ _ r Ef)).
    + intros m' H. injection H as <-.
      exact (swap_message _ _ _ Ef).
  - unfold consistent; cells; repeat split; auto; try discriminate.
    intros m' H. injection H as <-.
    apply promiseAll_rejected in E.
    destruct E as [E|E]; exact (fileToBase64_message _ _ _ E).
Qed.

Lemma endInpaint_consistent (w : World) (image mask : option string)
  (s : State) :
  consistent s -> consistent (fst (Async.endInpaint w image mask s)).
Proof.
  intros (R & Rn & En & Us & Uc). unfold Async.endInpaint.
  destruct (inpaintImage (ai w) _) as [outcome sent] eqn:Eo.
  match type of Eo with
  | inpaintImage ?a ?p = _ =>
      assert (Ef : fst (inpaintImage a p) = outcome)
        by (rewrite Eo; reflexivity)
  end.
  destruct outcome as [r|m]; unfold consistent; cells;
    repeat split; auto.
  - intros r' H. injection H as <-.
    exact (proj1 (settle_resolved _ _ _ _ r Ef)).
  - intros m' H. injection H as <-. discriminate.
Qed.

Lemma endGenerate_isLoading (w : World) (scene character : File)
  (clicked s : State) :
  isLoading (fst (Async.endGenerate w scene character clicked s)) = false.
Proof.
  unfold Async.endGenerate.
  destruct (promiseAll _ _ _) as [[sr cr]|m]; cells; [|reflexivity].
  destruct (settle _ _ _ _); cells; reflexivity.
Qed.

Lemma endInpaint_isLoading (w : World) (image mask : option string)
  (s : State) :
  isLoading (fst (Async.endInpaint w image mask s)) = false.
Proof.
  unfold Async.endInpaint. simpl.
  destruct (settle _ _ _ _); cells; reflexivity.
Qed.

Lemma intervalCallback_consistent (s : State) :
  consistent s -> consistent (intervalCallback s).
Proof.
  intro H. rewrite intervalCallback_cells. exact H.
Qed.

Lemma intervalCallback_isLoading (s : State) :
  isLoading (intervalCallback s) = isLoading s.
Proof. rewrite intervalCallback_cells. reflexivity. Qed.

(** The two halves of a handler, with the interval running between
    them, make up the handler. *)
Lemma handleGenerate_halves (w : World) (s : State)
  (scene character : File) :
  sceneImage s = Some scene -> characterImage s = Some character ->
  handleGenerate w s =
    Async.endGenerate w scene character s
      (runInterval (intervalRuns w) (Async.beginGenerate s)).
Proof.
  intros Hs Hc. unfold handleGenerate, Async.endGenerate. rewrite Hs, Hc.
  reflexivity.
Qed.

Lemma handleInpaint_halves (w : World) (image mask : option string)
  (s : State) :
  handleInpaint w image mask s =
    Async.endInpaint w image mask
      (runInterval (intervalRuns w) (Async.beginInpaint s)).
Proof. reflexivity. Qed.

Lemma async_step_invariant (r : Async.Running) (e : Async.Event) :
  invariant r -> invariant (fst (Async.step r e)).
Proof.
  intros I. destruct r as [s p]. pose proof I as [C L].
  cbn [Async.page Async.pending] in C, L.
  destruct e as [e | | ].
  - destruct e as [files url | files url | change | w | | | w enc ed];
      cbn [Async.step].
    + split; cbn [fst Async.page Async.pending].
      * apply step_consistent. exact C.
      * simpl. destruct (ImageUploader.handleFileChange files); exact L.
    + split; cbn [fst Async.page Async.pending].
      * apply step_consistent. exact C.
      * simpl. destruct (ImageUploader.handleFileChange files); exact L.
    + split; cbn [fst Async.page Async.pending].
      * apply (step_consistent s (Refine change)). exact C.
      * exact L.
    + cbn [Async.page Async.pending].
      destruct (generateDisabled s) eqn:D; [exact I|].
      unfold generateDisabled, canGenerate in D.
      destruct (sceneImage s) as [scene|]; [|discriminate].
      destruct (characterImage s) as [character|]; [|discriminate].
      split; cbn [fst Async.page Async.pending].
      * apply beginGenerate_consistent. exact C.
      * unfold Async.beginGenerate. cells. reflexivity.
    + split; cbn [fst Async.page Async.pending].
      * apply (step_consistent s ClickEdit). exact C.
      * simpl. destruct (showResult s); exact L.
    + split; cbn [fst Async.page Async.pending].
      * apply (step_consistent s CloseEditor). exact C.
      * simpl. destruct (editorProps s); exact L.
    + cbn [Async.page Async.pending].
      destruct (isLoading s) eqn:D; [exact I|].
      destruct (editorProps s) as [[url b64]|]; [|exact I].
      unfold ImageEditor.handleSave.
      split; cbn [fst Async.page Async.pending].
      * apply beginInpaint_consistent. exact C.
      * unfold Async.beginInpaint. cells. reflexivity.
  - split; cbn [Async.step fst Async.page Async.pending].
    + apply intervalCallback_consistent. exact C.
    + rewrite intervalCallback_isLoading. exact L.
  - cbn [Async.step Async.page Async.pending].
    destruct p as [[w scene character clicked | w image mask]|].
    + pose proof (endGenerate_consistent w scene character clicked s C) as C'.
      pose proof (endGenerate_isLoading w scene character clicked s) as L'.
      destruct (Async.endGenerate w scene character clicked s) as [s' sent].
      split; assumption.
    + pose proof (endInpaint_consistent w image mask s C) as C'.
      pose proof (endInpaint_isLoading w image mask s) as L'.
      destruct (Async.endInpaint w image mask s) as [s' sent].
      split; assumption.
    + exact I.
Qed.

Lemma async_run_invariant (events : list Async.Event) :
  forall r, invariant r -> invariant (fst (Async.run r events)).
Proof.
  induction events as [|e rest IH]; intros r H; [exact H|].
  cbn [Async.run].
  pose proof (async_step_invariant r e H) as H1.
  destruct (Async.step r e) as [r1 sent1]. cbn [fst] in H1.
  pose proof (IH r1 H1) as H2.
  destruct (Async.run r1 rest) as [r2 sent2]. exact H2.
Qed.

(** X21: events of the page, runs of the callback of the interval and
    the settling of the pending call, in any order from the initial
    page, leave at every moment a page whose result URL is exactly the
    PNG data URL of the result data, whose result data and error message
    are not empty, and on which a preview URL is there exactly when its
    file is; and the page is loading exactly while a call is pending.
    A handler is its two halves, before and after the [await], with the
    interval running in between. *)
Theorem page_stays_consistent :
  forall events : list Async.Event,
    let r := fst (Async.run Async.start events) in
    consistent (Async.page r) /\
    isLoading (Async.page r) = JS.present (Async.pending r) /\
    (forall w s scene character,
        sceneImage s = Some scene -> characterImage s = Some character ->
        handleGenerate w s =
          Async.endGenerate w scene character s
            (runInterval (intervalRuns w) (Async.beginGenerate s))) /\
    (forall w image mask s,
        handleInpaint w image mask s =
          Async.endInpaint w image mask
            (runInterval (intervalRuns w) (Async.beginInpaint s))).
Proof.
  intros events r.
  assert (I : invariant r).
  { apply async_run_invariant. split; [exact initial_consistent|reflexivity]. }
  destruct I as [C L].
  split; [exact C|]. split; [exact L|]. split.
  - intros w s scene character. apply handleGenerate_halves.
  - apply handleInpaint_halves.
Qed.

(** Both images are uploaded and "Fuse Images" is clicked; a control is
    changed and the interval fires while the call is pending. *)
Lemma page_stays_consistent_witness :
  handleGenerate (Demo.world Demo.imageAi) Demo.uploaded =
    Async.endGenerate (Demo.world Demo.imageAi) Demo.webp Demo.png
      Demo.uploaded
      (runInterval (intervalRuns (Demo.world Demo.imageAi))
         (Async.beginGenerate Demo.uploaded)) /\
  isLoading (Async.page (fst (Async.run Async.start Cases.interrupted)))
    = true.
Proof.
  split.
  - apply (proj1 (proj2 (proj2 (page_stays_consistent []))));
      reflexivity.
  - rewrite (proj1 (proj2 (page_stays_consistent Cases.interrupted))).
    reflexivity.
Defined.

(** X22: whenever the page, after any sequence of events, shows the
    result with its "Edit Image" button, a click on the button renders
    the editor, on the result that is shown. *)
Theorem edit_button_opens_editor :
  forall events : list Event,
    let s := fst (run initial events) in
    showResult s = true ->
    exists b64,
      resultImageBase64 s = Some b64 /\
      resultImage s = Some (pngUrl b64) /\
      editorProps (fst (step s ClickEdit)) = Some (pngUrl b64, b64).
Proof.
  intros events s Hshow.
  destruct (run_consistent events initial initial_consistent)
    as (R & Rn & _).
  fold s in R, Rn.
  simpl. rewrite Hshow. unfold showResult in Hshow.
  apply andb_true_iff in Hshow. destruct Hshow as [_ Ht].
  destruct (resultImageBase64 s) as [b64|] eqn:Eb;
    rewrite R in Ht; simpl in Ht; [|discriminate].
  exists b64. split; [reflexivity|]. split; [exact R|].
  unfold editorProps. simpl. rewrite R, Eb. simpl.
  assert (Hb : JS.truthy b64 = true) by (apply truthy_true, Rn; reflexivity).
  rewrite Hb. reflexivity.
Qed.

Lemma edit_button_opens_editor_witness :
  exists b64,
    resultImageBase64 (fst (run initial Cases.session)) = Some b64 /\
    resultImage (fst (run initial Cases.session)) = Some (pngUrl b64) /\
    editorProps (fst (step (fst (run initial Cases.session)) ClickEdit))
      = Some (pngUrl b64, b64).
Proof.
  apply (edit_button_opens_editor Cases.session).
  vm_compute. reflexivity.
Defined.

Lemma handlers_keep_files (w : World) (image mask : option string)
  (s : State) :
  sceneImage (fst (handleGenerate w s)) = sceneImage s /\
  characterImage (fst (handleGenerate w s)) = characterImage s /\
  sceneImage (fst (handleInpaint w image mask s)) = sceneImage s /\
  characterImage (fst (handleInpaint w image mask s)) = characterImage s.
Proof.
  unfold handleGenerate, handleInpaint. simpl.
  destruct (settle _ _ _ (ai w (inpaintRequest _))); cells.
  all: destruct (sceneImage s) as [scene|] eqn:Es;
    destruct (characterImage s) as [character|] eqn:Ec; cells; auto.
  all: destruct (promiseAll _ _ _) as [[sr cr]|m]; cells; auto.
  all: destruct (settle _ _ _ _); cells; auto.
Qed.

(** A result exists only if both images were uploaded. *)
Lemma step_result_needs_uploads (s : State) (e : Event) :
  (resultImageBase64 s <> None -> bothUploaded s) ->
  (resultImageBase64 (fst (step s e)) <> None ->
   bothUploaded (fst (step s e))) /\
  (bothUploaded s -> bothUploaded (fst (step s e))) /\
  (snd (step s e) <> [] -> bothUploaded s) /\
  (length (snd (step s e)) <= 1)%nat.
Proof.
  unfold bothUploaded. intro J.
  assert (G : forall w,
             bothUploaded s -> bothUploaded (fst (handleGenerate w s))).
  { intros w (a & b & Ha & Hb).
    destruct (handlers_keep_files w None None s) as (E1 & E2 & _).
    exists a, b. rewrite E1, E2. auto. }
  assert (I : forall w image mask,
             bothUploaded s ->
             bothUploaded (fst (handleInpaint w image mask s))).
  { intros w image mask (a & b & Ha & Hb).
    destruct (handlers_keep_files w image mask s) as (_ & _ & E1 & E2).
    exists a, b. rewrite E1, E2. auto. }
  unfold bothUploaded in G, I.
  destruct e as [files url | files url | change | w | | | w enc ed]; simpl.
  - destruct (ImageUploader.handleFileChange files) as [f|]; simpl;
      [|repeat split; auto; congruence].
    repeat match goal with |- _ /\ _ => split end; auto; try congruence.
    + intro H. destruct (J H) as (a & b & Ha & Hb). exists f, b. auto.
    + intros (a & b & Ha & Hb). exists f, b. auto.
  - destruct (ImageUploader.handleFileChange files) as [f|]; simpl;
      [|repeat split; auto; congruence].
    repeat match goal with |- _ /\ _ => split end; auto; try congruence.
    + intro H. destruct (J H) as (a & b & Ha & Hb). exists a, f. auto.
    + intros (a & b & Ha & Hb). exists a, f. auto.
  - repeat split; auto; congruence.
  - destruct (generateDisabled s) eqn:Ed; simpl;
      [repeat split; auto; congruence|].
    assert (B : bothUploaded s).
    { unfold generateDisabled, canGenerate in Ed.
      destruct (sceneImage s) as [a|] eqn:Ea; [|discriminate].
      destruct (characterImage s) as [b|] eqn:Eb; [|discriminate].
      exists a, b. auto. }
    repeat split; auto.
    unfold handleGenerate.
    destruct (sceneImage s), (characterImage s); simpl; auto.
    destruct (promiseAll _ _ _) as [[sr cr]|m]; simpl; auto.
    destruct (settle _ _ _ _); simpl; auto.
  - destruct (showResult s); simpl; repeat split; auto; congruence.
  - destruct (editorProps s); simpl; repeat split; auto; congruence.
  - destruct (isLoading s); simpl; [repeat split; auto; congruence|].
    unfold saveEditor.
    destruct (editorProps s) as [[url b64]|] eqn:Ep; simpl;
      [|repeat split; auto; congruence].
    assert (B : bothUploaded s).
    { apply J. destruct (editorProps_some s url b64 Ep) as (_ & _ & _ & H & _).
      congruence. }
    unfold ImageEditor.handleSave.
    repeat split; auto.
    rewrite handleInpaint_sent. simpl. auto.
Qed.

Lemma run_result_needs_uploads (events : list Event) :
  forall s,
    (resultImageBase64 s <> None -> bothUploaded s) ->
    (snd (run s events) <> [] -> bothUploaded (fst (run s events))) /\
    (bothUploaded s -> bothUploaded (fst (run s events))) /\
    (length (snd (run s events)) <= length events)%nat.
Proof.
  induction events as [|e rest IH]; intros s J.
  - simpl. repeat split; auto; congruence.
  - destruct (step_result_needs_uploads s e J) as (J' & M & S & L).
    destruct (IH (fst (step s e)) J') as (A & B & C).
    simpl. destruct (step s e) as [s1 sent1]. simpl in *.
    destruct (run s1 rest) as [s2 sent2]. simpl in *.
    split; [|split].
    + intro H. destruct sent1 as [|r1 sent1'].
      * apply A. exact H.
      * apply B, M, S. discriminate.
    + intro H. apply B, M, H.
    + rewrite length_app. lia.
Qed.

(** X23: the model is never called before both images are uploaded: if a
    sequence of events from the initial page sent a request, a scene and
    a character image are in the state; and a sequence sends at most one
    request per event. *)
Theorem no_call_before_both_uploads :
  forall events : list Event,
    (snd (run initial events) <> [] ->
     bothUploaded (fst (run initial events))) /\
    (length (snd (run initial events)) <= length events)%nat.
Proof.
  intro events.
  assert (J : resultImageBase64 initial <> None -> bothUploaded initial).
  { intro H. exfalso. apply H. reflexivity. }
  destruct (run_result_needs_uploads events initial J) as (A & _ & C).
  auto.
Qed.

Lemma no_call_before_both_uploads_witness :
  bothUploaded (fst (run initial Cases.session)).
Proof.
  apply (proj1 (no_call_before_both_uploads Cases.session)).
  vm_compute. discriminate.
Defined.

(** X24: when an inpainting fails while a result is shown, the page
    shows the error block and the earlier result together, with the
    editor closed. *)
Theorem failed_inpaint_shows_error_and_result :
  forall (w : World) (image mask : option string) (s : State) (m : string),
    showResult s = true ->
    fst (inpaintImage (ai w)
           (mkInpaintParams image "image/png" mask "image/png"))
      = Rejected m ->
    let after := fst (handleInpaint w image mask s) in
    showError after = true /\ showResult after = true /\
    showPlaceholder after = false /\ showSpinner after = false /\
    editorProps after = None.
Proof.
  intros w image mask s m Hshow Hrej after. subst after.
  unfold showResult in Hshow. apply andb_true_iff in Hshow.
  destruct Hshow as [_ Ht].
  unfold handleInpaint. simpl in Hrej |- *. rewrite Hrej. simpl.
  unfold showError, showResult, showPlaceholder, showSpinner, editorProps.
  cells. rewrite Ht. auto.
Qed.

Lemma failed_inpaint_shows_error_and_result_witness :
  showError (fst (handleInpaint (Demo.world Demo.textAi) (Some "SU1HMQ==")
                    (Some "TUFTSw==") Demo.editing)) = true /\
  showResult (fst (handleInpaint (Demo.world Demo.textAi) (Some "SU1HMQ==")
                     (Some "TUFTSw==") Demo.editing)) = true /\
  showPlaceholder
    (fst (handleInpaint (Demo.world Demo.textAi) (Some "SU1HMQ==")
            (Some "TUFTSw==") Demo.editing)) = false /\
  showSpinner (fst (handleInpaint (Demo.world Demo.textAi) (Some "SU1HMQ==")
                      (Some "TUFTSw==") Demo.editing)) = false /\
  editorProps (fst (handleInpaint (Demo.world Demo.textAi) (Some "SU1HMQ==")
                      (Some "TUFTSw==") Demo.editing)) = None.
Proof.
  apply (failed_inpaint_shows_error_and_result (Demo.world Demo.textAi)
           (Some "SU1HMQ==") (Some "TUFTSw==") Demo.editing
           "Inpainting failed: The AI did not return an edited image. It may have refused the request.");
    reflexivity.
Defined.

End PageEdges.
